(** * ESP32 voltage recorder: a shallow embedding of [src/main.cpp]

    The sketch samples an ADC channel into a fixed buffer, replays the buffer
    on a DAC and is driven by text commands on the serial port.  Every global
    of the sketch is a field of [State]; every function of the sketch is a
    function on [State] that returns the new state together with the list of
    output events it produced (serial lines, DAC writes, LED writes).  What
    the firmware reads from the outside (clock values, raw ADC codes, serial
    input) is an explicit argument.

    Integers are [Z] with the wrap-around of the 32-bit types written out.
    [float] and [double] are IEEE 754 binary32 and binary64, computed with
    the Standard Library's executable specification of floating-point
    arithmetic ([SpecFloat]), round-to-nearest-even.

    Passing of time itself ([delay], [delayMicroseconds] and the
    [micros()]-based pacing inside the replay loop) changes neither a global
    nor an output and is left out. *)

From Stdlib Require Import ZArith Bool Ascii String DecimalString DecimalN List Lia.
From Stdlib Require Import SpecFloat PrimFloat FloatOps.
From stdpp Require Import base list.
Import ListNotations.

Local Open Scope string_scope.
Local Open Scope list_scope.
Local Open Scope Z_scope.

(* ===================================================================== *)
(** ** Machine integers *)

(** [unsigned long] and [uint32_t] on the ESP32: 32 bits, wrapping. *)
Definition u32 (z : Z) : Z := z mod 2 ^ 32.

(** [int] and [long] on the ESP32: 32 bits, two's complement. *)
Definition INT_MAX : Z := 2 ^ 31 - 1.
Definition INT_MIN : Z := - 2 ^ 31.
Definition s32 (z : Z) : Z := (z + 2 ^ 31) mod 2 ^ 32 - 2 ^ 31.

(** [uint8_t]. *)
Definition u8 (z : Z) : Z := z mod 2 ^ 8.

(* ===================================================================== *)
(** ** Floating point *)

(** binary64, the C++ [double]. *)
Module F64.
Definition prec : Z := 53.
Definition emax : Z := 1024.
Definition zero : spec_float := S754_zero false.
Definition of_Z (z : Z) : spec_float := binary_normalize prec emax z 0 false.
Definition round (x : spec_float) : spec_float :=
  match x with
  | S754_finite s m e => binary_round prec emax s m e
  | _ => x
  end.
Definition add := SFadd prec emax.
Definition sub := SFsub prec emax.
Definition mul := SFmul prec emax.
Definition div := SFdiv prec emax.
Definition ltb := SFltb.
Definition leb := SFleb.
Definition abs := SFabs.
(** A decimal literal [n / d] (for instance [3.3] as [33 / 10]): the
    double nearest to the quotient. *)
Definition lit (n d : Z) : spec_float := div (of_Z n) (of_Z d).
(** Conversion to an integer type truncates toward zero; NaN and the
    infinities have no integer part. *)
Definition trunc (x : spec_float) : option Z :=
  match x with
  | S754_zero _ => Some 0
  | S754_finite s m e =>
      Some (cond_Zopp s
              (match e with
               | Zneg p => Z.pos m / 2 ^ Z.pos p
               | _ => Z.pos m * 2 ^ e
               end))
  | _ => None
  end.
End F64.

(** binary32, the C++ [float]. *)
Module F32.
Definition prec : Z := 24.
Definition emax : Z := 128.
Definition zero : spec_float := S754_zero false.
Definition of_Z (z : Z) : spec_float := binary_normalize prec emax z 0 false.
Definition round (x : spec_float) : spec_float :=
  match x with
  | S754_finite s m e => binary_round prec emax s m e
  | _ => x
  end.
Definition add := SFadd prec emax.
Definition sub := SFsub prec emax.
Definition mul := SFmul prec emax.
Definition div := SFdiv prec emax.
Definition ltb := SFltb.
Definition leb := SFleb.
End F32.

(** The two C++ types share one carrier; the names keep the source's types
    readable.  [to_double] is the (exact) promotion of a [float], and
    [to_float] the rounding of a [double] on assignment to a [float]. *)
Definition float : Type := spec_float.
Definition double : Type := spec_float.
Definition to_double (x : float) : double := F64.round x.
Definition to_float (x : double) : float := F32.round x.

(** [(uint8_t) d]: the integer part of [d] in eight bits.  C++ defines the
    conversion only when the integer part fits the type; the model wraps
    (and yields 0 on NaN and the infinities). *)
Definition uint8_of_double (d : double) : Z :=
  match F64.trunc d with
  | Some z => u8 z
  | None => 0
  end.

(** [x >= 0] on floats: false on NaN, true on both zeros. *)
Definition nonneg (x : spec_float) : bool := SFleb (S754_zero false) x.

Definition is_nan (x : spec_float) : bool :=
  match x with
  | S754_nan => true
  | _ => false
  end.

(** A float that is a zero or finite with magnitude below [2 ^ k]: the
    binary digits of the mantissa and the exponent add up to at most [k]. *)
Definition mag_le (k : Z) (x : spec_float) : Prop :=
  match x with
  | S754_zero _ => True
  | S754_finite _ m e => Z.pos (digits2_pos m) + e <= k
  | _ => False
  end.

(** A float that is not NaN and carries the sign [s]. *)
Definition has_sign (s : bool) (x : spec_float) : Prop :=
  match x with
  | S754_zero s' | S754_infinity s' | S754_finite s' _ _ => s' = s
  | S754_nan => False
  end.

(* ===================================================================== *)
(** ** Arduino [String] operations used by the command dispatcher *)

(** C [isspace]: space, and the control characters 9 to 13. *)
Definition isspace (c : ascii) : bool :=
  let n := nat_of_ascii c in
  Nat.eqb n 32 || (Nat.leb 9 n && Nat.leb n 13).

Definition isdigit (c : ascii) : bool :=
  let n := nat_of_ascii c in Nat.leb 48 n && Nat.leb n 57.

Definition tolower (c : ascii) : ascii :=
  let n := nat_of_ascii c in
  if Nat.leb 65 n && Nat.leb n 90 then ascii_of_nat (n + 32) else c.

Fixpoint ltrim (s : string) : string :=
  match s with
  | String c s' => if isspace c then ltrim s' else s
  | EmptyString => EmptyString
  end.

Fixpoint string_rev_acc (s acc : string) : string :=
  match s with
  | String c s' => string_rev_acc s' (String c acc)
  | EmptyString => acc
  end.

Definition string_rev (s : string) : string := string_rev_acc s EmptyString.

(** [String::trim]: drops leading and trailing whitespace. *)
Definition trim (s : string) : string :=
  string_rev (ltrim (string_rev (ltrim s))).

(** [String::toLowerCase]. *)
Fixpoint toLowerCase (s : string) : string :=
  match s with
  | String c s' => String (tolower c) (toLowerCase s')
  | EmptyString => EmptyString
  end.

(** [s.startsWith(p)]. *)
Definition startsWith (s p : string) : bool := String.prefix p s.

(** [s.substring(from)]: the tail from index [from]; empty when [from] is at
    or past the end. *)
Fixpoint substring (from : nat) (s : string) : string :=
  match from, s with
  | O, _ => s
  | S n, String _ s' => substring n s'
  | S _, EmptyString => EmptyString
  end.

(** The digits [atol] reads: a run of decimal digits, stopping at the first
    other character. *)
Fixpoint atol_digits (acc : Z) (s : string) : Z :=
  match s with
  | String c s' =>
      if isdigit c
      then atol_digits (acc * 10 + (Z.of_nat (nat_of_ascii c) - 48)) s'
      else acc
  | EmptyString => acc
  end.

(** [String::toInt] is [atol] on the buffer: leading whitespace is skipped,
    an optional sign and the digits that follow are read, anything after
    them is ignored, and the result is 0 when no digit is there.  A value
    outside [long] saturates (newlib's [strtol]). *)
Definition toInt (s : string) : Z :=
  let clamp z := Z.max INT_MIN (Z.min INT_MAX z) in
  match ltrim s with
  | String "-" r => clamp (- atol_digits 0 r)
  | String "+" r => clamp (atol_digits 0 r)
  | r => clamp (atol_digits 0 r)
  end.

(* ===================================================================== *)
(** ** Configuration, globals and output events *)

Definition ADC_PIN : Z := 36.
Definition DAC_PIN : Z := 25.
Definition LED_PIN : Z := 2.
Definition MAX_SAMPLES : Z := 5000.
Definition DEFAULT_SAMPLE_RATE : Z := 100.
Definition HIGH : bool := true.
Definition LOW : bool := false.

(** The globals of the sketch. *)
Record State : Type := mkState {
  recording : bool;
  voltageBuffer : list float;
  sampleCount : Z;
  sampleRate : Z;
  lastSampleTime : Z;
  recordingStartTime : Z;
  recordingEndTime : Z;
  adcOffset : float;
  ADC_SAMPLES : Z
}.

Definition set_recording (b : bool) (st : State) : State :=
  mkState b (voltageBuffer st) (sampleCount st) (sampleRate st)
    (lastSampleTime st) (recordingStartTime st) (recordingEndTime st)
    (adcOffset st) (ADC_SAMPLES st).

Definition set_voltageBuffer (buf : list float) (st : State) : State :=
  mkState (recording st) buf (sampleCount st) (sampleRate st)
    (lastSampleTime st) (recordingStartTime st) (recordingEndTime st)
    (adcOffset st) (ADC_SAMPLES st).

Definition set_sampleCount (n : Z) (st : State) : State :=
  mkState (recording st) (voltageBuffer st) n (sampleRate st)
    (lastSampleTime st) (recordingStartTime st) (recordingEndTime st)
    (adcOffset st) (ADC_SAMPLES st).

Definition set_sampleRate (n : Z) (st : State) : State :=
  mkState (recording st) (voltageBuffer st) (sampleCount st) n
    (lastSampleTime st) (recordingStartTime st) (recordingEndTime st)
    (adcOffset st) (ADC_SAMPLES st).

Definition set_lastSampleTime (t : Z) (st : State) : State :=
  mkState (recording st) (voltageBuffer st) (sampleCount st) (sampleRate st)
    t (recordingStartTime st) (recordingEndTime st)
    (adcOffset st) (ADC_SAMPLES st).

Definition set_recordingStartTime (t : Z) (st : State) : State :=
  mkState (recording st) (voltageBuffer st) (sampleCount st) (sampleRate st)
    (lastSampleTime st) t (recordingEndTime st)
    (adcOffset st) (ADC_SAMPLES st).

Definition set_recordingEndTime (t : Z) (st : State) : State :=
  mkState (recording st) (voltageBuffer st) (sampleCount st) (sampleRate st)
    (lastSampleTime st) (recordingStartTime st) t
    (adcOffset st) (ADC_SAMPLES st).

Definition set_adcOffset (x : float) (st : State) : State :=
  mkState (recording st) (voltageBuffer st) (sampleCount st) (sampleRate st)
    (lastSampleTime st) (recordingStartTime st) (recordingEndTime st)
    x (ADC_SAMPLES st).

Definition set_ADC_SAMPLES (n : Z) (st : State) : State :=
  mkState (recording st) (voltageBuffer st) (sampleCount st) (sampleRate st)
    (lastSampleTime st) (recordingStartTime st) (recordingEndTime st)
    (adcOffset st) n.

(** The globals as their initialisers leave them; a global array starts
    zeroed. *)
Definition initial_state : State :=
  {| recording := false;
     voltageBuffer := replicate (Z.to_nat MAX_SAMPLES) F32.zero;
     sampleCount := 0;
     sampleRate := DEFAULT_SAMPLE_RATE;
     lastSampleTime := 0;
     recordingStartTime := 0;
     recordingEndTime := 0;
     adcOffset := F32.zero;
     ADC_SAMPLES := 64 |}.

(** [voltageBuffer[i]]. *)
Definition buffer_at (st : State) (i : Z) : float :=
  nth (Z.to_nat i) (voltageBuffer st) F32.zero.

(** An argument of [Serial.printf]; a [float] argument is passed as a
    [double]. *)
Inductive Arg : Type :=
  | AInt (z : Z)
  | ADouble (x : double)
  | AStr (s : string).

(** What the firmware does to the outside.  A format string is written
    without its final newline, and the help text without its blank lines. *)
Inductive Event : Type :=
  | Serial_println (s : string)
  | Serial_printf (fmt : string) (args : list Arg)
  | dac_output_voltage (code : Z)
  | digitalWrite (pin : Z) (level : bool).

(** The result of [esp_adc_cal_characterize]. *)
Inductive esp_adc_cal_value_t : Type :=
  | ESP_ADC_CAL_VAL_EFUSE_VREF
  | ESP_ADC_CAL_VAL_EFUSE_TP
  | ESP_ADC_CAL_VAL_DEFAULT_VREF.

(** Everything one pass of [loop()] reads from the outside.  A clock field
    is the value [millis()] returns at that call; an ADC field gives the raw
    code of the [i]-th [adc1_get_raw] of one oversampled reading. *)
Record LoopInput : Type := mkInput {
  (** the line [Serial.readStringUntil] returns, [None] when
      [Serial.available()] is 0 *)
  serial_line : option string;
  (** [millis()] inside [startRecording] or [stopRecording] run by a command *)
  cmd_millis : Z;
  (** raw codes for a reading taken by [read], [status] or [calibrate] *)
  cmd_adc : nat -> Z;
  (** [show]: whether a byte ever arrives at the [k]-th pause *)
  show_key : nat -> bool;
  (** [replay]: [millis()] before and after the loop, and whether
      [Serial.available()] is non-zero at the test of pass [i] *)
  replay_start_millis : Z;
  replay_end_millis : Z;
  replay_abort : nat -> bool;
  (** the sampling part of [loop()]: [millis()], the raw codes of its
      reading, and [millis()] inside the [stopRecording] of a full buffer *)
  tick_millis : Z;
  tick_adc : nat -> Z;
  tick_stop_millis : Z
}.

(** The outcome of a function that may wait for the operator: the globals,
    the output so far, and whether the function returned.  [show] waits for
    a key every 20 rows; with no key it never returns. *)
Record Step : Type := mkStep {
  next_state : State;
  output : list Event;
  returned : bool
}.

Definition ret (r : State * list Event) : Step := mkStep (fst r) (snd r) true.

(** Double literals of the source. *)
Definition d_1000 : double := F64.of_Z 1000.
Definition d_1024 : double := F64.of_Z 1024.
Definition d_255 : double := F64.of_Z 255.
Definition d_3_3 : double := F64.lit 33 10.
Definition d_0_2 : double := F64.lit 2 10.
Definition d_0_1 : double := F64.lit 1 10.
Definition d_0_0 : double := F64.zero.

(** Inputs used by the worked examples: a calibration curve of one
    millivolt per raw code, a pass with a typed line, and a pass with no
    line at a given clock value.  Every raw ADC code is 1500. *)
Definition example_curve (raw : Z) : Z := raw.

Definition typed (line : string) (now : Z) : LoopInput :=
  mkInput (Some line) now (fun _ => 1500) (fun _ => true)
    now (now + 200) (fun _ => false) now (fun _ => 1500) now.

Definition at_millis (now : Z) : LoopInput :=
  mkInput None now (fun _ => 1500) (fun _ => true)
    now now (fun _ => false) now (fun _ => 1500) now.

(** The session of the end-to-end scenario: rate 50, start, ten sampling
    passes 20 ms apart, stop. *)
Definition example_session : list LoopInput :=
  [typed "rate 50" 0; typed "start" 1000] ++
  map (fun k : nat => at_millis (1000 + 20 * Z.of_nat k)) (seq 1 10) ++
  [typed "stop" 1201].

(** A session that fills the buffer: one raw code per reading, 2000 Hz,
    start, and 5000 further passes. *)
Definition example_full_session : list LoopInput :=
  [typed "samples 1" 0; typed "rate 2000" 0; typed "start" 1000] ++
  repeat (at_millis 1001) 5000.

(** A session that records one sample of 4000 mV: one raw code per
    reading, 2000 Hz, a start whose own pass samples the raw code 4000, and
    stop. *)
Definition example_overrange_session : list LoopInput :=
  [typed "samples 1" 0; typed "rate 2000" 0;
   mkInput (Some "start") 1000 (fun _ => 4000) (fun _ => true)
     1000 1000 (fun _ => false) 1000 (fun _ => 4000) 1000;
   typed "stop" 1001].

(** A pass with a typed line after which the operator sends nothing more:
    [show] finds no key at its pauses. *)
Definition typed_then_silent (line : string) (now : Z) : LoopInput :=
  mkInput (Some line) now (fun _ => 1500) (fun _ => false)
    now (now + 200) (fun _ => false) now (fun _ => 1500) now.

(** A replay command during which a byte arrives at the test of pass 3. *)
Definition replay_with_key_at_3 (now : Z) : LoopInput :=
  mkInput (Some "replay") now (fun _ => 1500) (fun _ => true)
    now (now + 60) (fun k => Nat.eqb k 3) now (fun _ => 1500) now.

(** A session left recording: start at the default 100 Hz, and 45 sampling
    passes 10 ms apart. *)
Definition example_long_session : list LoopInput :=
  typed "start" 1000 ::
  map (fun k : nat => at_millis (1000 + 10 * Z.of_nat k)) (seq 1 45).

Section Firmware.

(** [esp_adc_cal_raw_to_voltage (raw, &adc_chars)]: the vendor's calibration
    curve, raw code to millivolts. *)
Variable esp_adc_cal_raw_to_voltage : Z -> Z.
(** What [esp_adc_cal_characterize] reported in [setupADC]. *)
Variable val_type : esp_adc_cal_value_t.
(** The [VERSION] macro, supplied by the build. *)
Variable VERSION : string.

(** The oversampling loop shared by [readVoltageHighPrecision] and
    [calibrateADCOffset]: [n] more passes, the next one being pass [i]. *)
Fixpoint adc_accumulate (raw : nat -> Z) (n i : nat) (total : Z) : Z :=
  match n with
  | O => total
  | S n' => adc_accumulate raw n' (S i) (u32 (total + raw i))
  end.

(** The calibrated, averaged reading in volts before any offset: the first
    five statements of both functions.  The division is the unsigned one of
    C++; the divisor is never 0 in a state the firmware reaches
    ([divisors_are_never_zero]). *)
Definition adc_volts (raw : nat -> Z) (st : State) : float :=
  let total := adc_accumulate raw (Z.to_nat (ADC_SAMPLES st)) O 0 in
  let average := total / u32 (ADC_SAMPLES st) in
  let voltage_mv := u32 (esp_adc_cal_raw_to_voltage average) in
  to_float (F64.div (F64.of_Z voltage_mv) d_1000).

Definition readVoltageHighPrecision (raw : nat -> Z) (st : State) : float :=
  let voltage := adc_volts raw st in
  let voltage := F32.sub voltage (adcOffset st) in
  if F32.ltb voltage (F32.of_Z 0) then to_float d_0_0 else voltage.

Definition calibrateADCOffset (raw : nat -> Z) (st : State)
  : State * list Event :=
  let st' := set_adcOffset (adc_volts raw st) st in
  (st',
   [Serial_println "Make sure the ADC pin is connected to GND during calibration.";
    Serial_printf "ADC offset calibrated: %.4f V" [ADouble (to_double (adcOffset st'))]]).

Definition startRecording (now : Z) (st : State) : State * list Event :=
  if recording st then (st, [Serial_println "Already recording!"])
  else
    let st := set_sampleCount 0 st in
    let st := set_recording true st in
    let st := set_lastSampleTime (u32 now) st in
    let st := set_recordingStartTime (lastSampleTime st) st in
    (st,
     [Serial_printf "Started recording at %d Hz..." [AInt (sampleRate st)];
      Serial_println "Type 'stop' to end recording."]).

Definition stopRecording (now : Z) (st : State) : State * list Event :=
  if negb (recording st) then (st, [Serial_println "Not currently recording."])
  else
    let st := set_recording false st in
    let st := set_recordingEndTime (u32 now) st in
    (st,
     [digitalWrite LED_PIN HIGH;
      Serial_printf "Recording stopped. Captured %d samples." [AInt (sampleCount st)];
      Serial_printf "Actual recording duration: %.2f seconds"
        [ADouble (F64.div (F64.of_Z (u32 (recordingEndTime st - recordingStartTime st))) d_1000)];
      Serial_println "Type 'show' to view data or 'replay' to replicate voltages."]).

(** One row of [printData]: [i], the sample, and
    [(float)i * 1000.0 / sampleRate] stored in a [float]. *)
Definition row_timeMs (st : State) (i : Z) : float :=
  to_float (F64.div (F64.mul (to_double (F32.of_Z i)) d_1000)
                    (F64.of_Z (sampleRate st))).

Definition data_row (st : State) (i : Z) : Event :=
  Serial_printf "%d,%.4f,%.1f"
    [AInt i; ADouble (to_double (buffer_at st i));
     ADouble (to_double (row_timeMs st i))].

(** The [for] loop of [printData]: [n] more rows, the next one being row
    [i]; [pause] counts the pauses taken so far.  The result says whether
    the loop ran to its end. *)
Fixpoint printData_loop (key : nat -> bool) (st : State) (n : nat) (i : Z)
  (pause : nat) : list Event * bool :=
  match n with
  | O => ([], true)
  | S n' =>
      if (Z.rem (i + 1) 20 =? 0) && (i <? sampleCount st - 1) then
        if key pause then
          let r := printData_loop key st n' (i + 1) (S pause) in
          (data_row st i :: Serial_println "--- Press any key to continue ---" :: fst r,
           snd r)
        else
          ([data_row st i; Serial_println "--- Press any key to continue ---"], false)
      else
        let r := printData_loop key st n' (i + 1) pause in
        (data_row st i :: fst r, snd r)
  end.

Definition printData (key : nat -> bool) (st : State) : Step :=
  if sampleCount st =? 0 then mkStep st [Serial_println "No data recorded!"] true
  else
    let r := printData_loop key st (Z.to_nat (sampleCount st)) 0 O in
    let head :=
      [Serial_printf "Printing %d recorded samples:" [AInt (sampleCount st)];
       Serial_println "Sample#,Voltage(V),Time(ms)";
       Serial_println "------------------------"] in
    if snd r then
      mkStep st
        (head ++ fst r ++
         [Serial_println "------------------------";
          Serial_printf "Total: %d samples" [AInt (sampleCount st)]])
        true
    else mkStep st (head ++ fst r) false.

(** The value replay writes to the DAC for a stored sample. *)
Definition replay_clamp (voltage : float) : float :=
  let voltage := if F64.ltb d_3_3 (to_double voltage) then to_float d_3_3 else voltage in
  if F32.ltb voltage (F32.of_Z 0) then F32.of_Z 0 else voltage.

Definition dacValue (voltage : float) : Z :=
  uint8_of_double (F64.div (F64.mul (to_double (replay_clamp voltage)) d_255) d_3_3).

(** The [for] loop of [replayVoltages]: [n] more samples, the next one being
    sample [i]; the loop ends early when a byte is waiting on the serial
    port. *)
Fixpoint replay_loop (abort : nat -> bool) (st : State) (n : nat) (i : Z)
  (lastPrintedVoltage : float) : list Event :=
  match n with
  | O => []
  | S n' =>
      if abort (Z.to_nat i) then []
      else
        let voltage := replay_clamp (buffer_at st i) in
        let code := dacValue (buffer_at st i) in
        let print :=
          (Z.rem i 50 =? 0)
          || F64.ltb d_0_1 (F64.abs (to_double (F32.sub voltage lastPrintedVoltage))) in
        dac_output_voltage code ::
        (if print
         then [Serial_printf "Sample %d: %.4fV -> DAC %d"
                 [AInt i; ADouble (to_double voltage); AInt code]]
         else []) ++
        replay_loop abort st n' (i + 1) (if print then voltage else lastPrintedVoltage)
  end.

(** [replaySec] and [expectedSec] of [replayVoltages]. *)
Definition replaySec (inp : LoopInput) : float :=
  to_float (F64.div (F64.of_Z (u32 (u32 (replay_end_millis inp) - u32 (replay_start_millis inp)))) d_1000).

Definition expectedSec (st : State) : float :=
  to_float
    (if recordingEndTime st >? recordingStartTime st
     then F64.div (F64.of_Z (u32 (recordingEndTime st - recordingStartTime st))) d_1000
     else to_double (F32.div (F32.of_Z (sampleCount st)) (F32.of_Z (sampleRate st)))).

(** [fabs(replaySec - expectedSec) > 0.2 * expectedSec]. *)
Definition timing_off (replay expected : float) : bool :=
  F64.ltb (F64.mul d_0_2 (to_double expected))
          (F64.abs (to_double (F32.sub replay expected))).

Definition timing_error : string :=
  "ERROR: Exceeded stable sample rate! Replay duration does not match expected duration. Lower your sample rate for reliable timing.".

Definition replayVoltages (inp : LoopInput) (st : State) : list Event :=
  if sampleCount st =? 0 then [Serial_println "No data to replay!"]
  else
    [Serial_printf "Replaying %d voltage samples..." [AInt (sampleCount st)];
     Serial_println "Note: ESP32 DAC has limited precision (8-bit, 0-3.3V range)";
     Serial_println "Type any key to stop replay."] ++
    replay_loop (replay_abort inp) st (Z.to_nat (sampleCount st)) 0 (F32.of_Z (-1)) ++
    [dac_output_voltage 0;
     Serial_println "Replay completed.";
     Serial_printf "Expected duration: %.3f s, Replay duration: %.3f s"
       [ADouble (to_double (expectedSec st)); ADouble (to_double (replaySec inp))]] ++
    (if sampleRate st >? 200
     then [Serial_println "WARNING: Replay rate is above safe value (200 Hz). Timing may be inaccurate!"]
     else []) ++
    (if timing_off (replaySec inp) (expectedSec st)
     then [Serial_println timing_error]
     else []).

(** The statistics loop of [printStatus]: [n] more samples from index [i];
    the result is [(minV, maxV, avgV)] before the final division. *)
Fixpoint status_loop (st : State) (n : nat) (i : Z) (acc : float * float * float)
  : float * float * float :=
  match n with
  | O => acc
  | S n' =>
      let '(minV, maxV, avgV) := acc in
      let x := buffer_at st i in
      let minV := if F32.ltb x minV then x else minV in
      let maxV := if F32.ltb maxV x then x else maxV in
      status_loop st n' (i + 1) (minV, maxV, F32.add avgV x)
  end.

Definition status_stats (st : State) : float * float * float :=
  let '(minV, maxV, avgV) :=
    status_loop st (Z.to_nat (sampleCount st)) 0
      (buffer_at st 0, buffer_at st 0, F32.of_Z 0) in
  (minV, maxV, F32.div avgV (F32.of_Z (sampleCount st))).

Definition rate_warning : string :=
  "WARNING: Sample rate is above safe value (200 Hz). Recording and replay timing may be inaccurate!".

Definition printStatus (raw : nat -> Z) (st : State) : list Event :=
  [Serial_println "=== System Status ===";
   Serial_printf "Recording: %s" [AStr (if recording st then "YES" else "NO")];
   Serial_printf "Samples in buffer: %d/%d" [AInt (sampleCount st); AInt MAX_SAMPLES];
   Serial_printf "Sample rate: %d Hz" [AInt (sampleRate st)]] ++
  (if sampleRate st >? 200 then [Serial_println rate_warning] else []) ++
  [Serial_printf "Memory usage: %.1f KB"
     [ADouble (F64.div (to_double (F32.of_Z (u32 (sampleCount st * 4)))) d_1024)];
   Serial_printf "Current voltage: %.4f V"
     [ADouble (to_double (readVoltageHighPrecision raw st))]] ++
  (if sampleCount st >? 0 then
     let '(minV, maxV, avgV) := status_stats st in
     [Serial_printf "Recorded range: %.4f - %.4f V (avg: %.4f V)"
        [ADouble (to_double minV); ADouble (to_double maxV); ADouble (to_double avgV)];
      Serial_printf "Actual recording duration: %.2f seconds"
        [ADouble (if recordingEndTime st >? recordingStartTime st
                  then F64.div (F64.of_Z (u32 (recordingEndTime st - recordingStartTime st))) d_1000
                  else d_0_0)]]
   else []).

Definition printHelp : list Event :=
  [Serial_println "=== Available Commands ===";
   Serial_println "start/begin   - Start voltage recording";
   Serial_println "stop          - Stop recording";
   Serial_println "show/print    - Display recorded data";
   Serial_println "replay        - Replicate recorded voltages on DAC pin";
   Serial_println "status        - Show system status";
   Serial_println "read          - Read current voltage";
   Serial_println "clear         - Clear sample buffer";
   Serial_println "calibrate     - Calibrate ADC offset (run with pin grounded)";
   Serial_println "rate <Hz>     - Set sample rate (1-10000 Hz)";
   Serial_println "samples <N>   - Set ADC samples per reading (1-1024)";
   Serial_println "help          - Show this help";
   Serial_println "Connections:";
   Serial_printf "Voltage input: GPIO%d (0-3.3V max!)" [AInt ADC_PIN];
   Serial_printf "Voltage output: GPIO%d (DAC)" [AInt DAC_PIN];
   Serial_printf "Max samples: %d (%.1f KB memory)"
     [AInt MAX_SAMPLES; ADouble (F64.div (to_double (F32.of_Z (u32 (MAX_SAMPLES * 4)))) d_1024)]].

Definition unknown_command : string :=
  "Unknown command. Type 'help' for available commands.".

(** [processSerialCommands]: one command line, if one is waiting. *)
Definition processSerialCommands (inp : LoopInput) (st : State) : Step :=
  match serial_line inp with
  | None => mkStep st [] true
  | Some line =>
      let command := toLowerCase (trim line) in
      if startsWith command "start" || startsWith command "begin" then
        ret (startRecording (cmd_millis inp) st)
      else if startsWith command "stop" then
        ret (stopRecording (cmd_millis inp) st)
      else if startsWith command "show" || startsWith command "print" then
        printData (show_key inp) st
      else if startsWith command "replay" || startsWith command "replicate" then
        mkStep st (replayVoltages inp st) true
      else if startsWith command "status" then
        mkStep st (printStatus (cmd_adc inp) st) true
      else if startsWith command "clear" then
        mkStep (set_sampleCount 0 st) [Serial_println "Buffer cleared."] true
      else if startsWith command "rate" then
        let newRate := toInt (substring 5 command) in
        if (newRate >? 0) && (newRate <=? 10000) then
          let st := set_sampleRate newRate st in
          mkStep st
            (Serial_printf "Sample rate set to %d Hz" [AInt (sampleRate st)] ::
             (if sampleRate st >? 200 then [Serial_println rate_warning] else []))
            true
        else mkStep st [Serial_println "Invalid sample rate (1-10000 Hz)"] true
      else if startsWith command "samples" then
        let newSamples := toInt (substring 7 command) in
        if (newSamples >=? 1) && (newSamples <=? 1024) then
          let st := set_ADC_SAMPLES newSamples st in
          mkStep st
            [Serial_printf "ADC samples per reading set to %d" [AInt (ADC_SAMPLES st)]]
            true
        else mkStep st [Serial_println "Invalid ADC samples (1-1024)"] true
      else if startsWith command "read" then
        mkStep st
          [Serial_printf "Current voltage: %.4f V"
             [ADouble (to_double (readVoltageHighPrecision (cmd_adc inp) st))]]
          true
      else if startsWith command "calibrate" then
        ret (calibrateADCOffset (cmd_adc inp) st)
      else if startsWith command "help" then
        mkStep st printHelp true
      else mkStep st [Serial_println unknown_command] true
  end.

(** [(1000 / sampleRate)] as [loop()] compares it with the elapsed
    milliseconds: an [int] quotient, converted to [unsigned long].  The rate
    is never 0 in a state the firmware reaches ([divisors_are_never_zero]). *)
Definition sample_period_ms (st : State) : Z := u32 (Z.quot 1000 (sampleRate st)).

(** The sampling part of [loop()]: everything after the call of
    [processSerialCommands]. *)
Definition loop_sample (inp : LoopInput) (st : State) : State * list Event :=
  if recording st && (sampleCount st <? MAX_SAMPLES) then
    let currentTime := u32 (tick_millis inp) in
    let st := if sampleCount st =? 0 then set_recordingStartTime currentTime st else st in
    if u32 (currentTime - lastSampleTime st) >=? sample_period_ms st then
      let st := set_voltageBuffer
                  (<[Z.to_nat (sampleCount st) := readVoltageHighPrecision (tick_adc inp) st]>
                     (voltageBuffer st)) st in
      let st := set_sampleCount (s32 (sampleCount st + 1)) st in
      let st := set_lastSampleTime currentTime st in
      let led := [digitalWrite LED_PIN (if Z.rem (sampleCount st) 100 <? 50 then HIGH else LOW)] in
      let progress :=
        if Z.rem (sampleCount st) 100 =? 0
        then [Serial_printf "Recorded %d samples..." [AInt (sampleCount st)]]
        else [] in
      if sampleCount st >=? MAX_SAMPLES then
        let r := stopRecording (tick_stop_millis inp) st in
        (fst r, led ++ progress ++ Serial_println "Buffer full! Stopping recording." :: snd r)
      else (st, led ++ progress)
    else (st, [])
  else (st, []).

(** One pass of [loop()].  When a command does not return, neither does
    the pass. *)
Definition loop (inp : LoopInput) (st : State) : Step :=
  let r := processSerialCommands inp st in
  if returned r then
    let t := loop_sample inp (next_state r) in
    mkStep (fst t) (output r ++ snd t) true
  else r.

Definition setupADC : list Event :=
  [Serial_println
     match val_type with
     | ESP_ADC_CAL_VAL_EFUSE_VREF => "ADC: Using eFuse Vref"
     | ESP_ADC_CAL_VAL_EFUSE_TP => "ADC: Using eFuse Two Point"
     | ESP_ADC_CAL_VAL_DEFAULT_VREF => "ADC: Using Default Vref"
     end].

Definition setupDAC : list Event :=
  [dac_output_voltage 0; Serial_println "DAC initialized for voltage replication"].

(** [setup()]: [raw] gives the raw codes of the calibration reading. *)
Definition setup (raw : nat -> Z) : State * list Event :=
  let c := calibrateADCOffset raw initial_state in
  (fst c,
   [digitalWrite LED_PIN LOW;
    Serial_println "=== ESP32 Simple Voltage Recorder ===";
    Serial_printf "Version: %s" [AStr VERSION];
    Serial_println "Initializing..."] ++
   setupADC ++ setupDAC ++
   [Serial_println "Auto-calibrating ADC offset."] ++
   snd c ++
   [Serial_println "Setup complete!"] ++
   printHelp ++
   [digitalWrite LED_PIN HIGH]).

(** Passes of [loop()] in sequence, one per input; a pass that does not
    return ends the run. *)
Fixpoint run (inps : list LoopInput) (st : State) : Step :=
  match inps with
  | [] => mkStep st [] true
  | inp :: rest =>
      let r := loop inp st in
      if returned r then
        let r' := run rest (next_state r) in
        mkStep (next_state r') (output r ++ output r') (returned r')
      else r
  end.

(** The states the firmware can be in: after [setup()], and after any pass
    of [loop()] from such a state. *)
Inductive reachable : State -> Prop :=
  | reachable_setup (raw : nat -> Z) : reachable (fst (setup raw))
  | reachable_loop (st : State) (inp : LoopInput) :
      reachable st -> reachable (next_state (loop inp st)).

(** The state after [setup()] and the passes of a session. *)
Definition after_session (raw : nat -> Z) (inps : list LoopInput) : State :=
  next_state (run inps (fst (setup raw))).

(** The index at which the first sample of a run of passes is stored, if
    one is: a pass stores a sample exactly when its sampling part changes
    [sampleCount], and it stores at the count it found. *)
Fixpoint first_store (inps : list LoopInput) (st : State) : option Z :=
  match inps with
  | [] => None
  | inp :: rest =>
      let c := processSerialCommands inp st in
      if returned c then
        let pre := next_state c in
        let post := fst (loop_sample inp pre) in
        if sampleCount post =? sampleCount pre then first_store rest post
        else Some (sampleCount pre)
      else None
  end.

(** An argument of [rate] or [samples] that holds no number: after the
    blanks and an optional sign there is no digit. *)
Definition no_number (s : string) : bool :=
  match ltrim s with
  | String c r =>
      if Ascii.eqb c "-" || Ascii.eqb c "+" then
        match r with
        | String d _ => negb (isdigit d)
        | EmptyString => true
        end
      else negb (isdigit c)
  | EmptyString => true
  end.

(** A string that is a decimal integer and nothing else: an optional sign,
    then one or more digits. *)
Fixpoint all_digits (s : string) : bool :=
  match s with
  | String c r => isdigit c && all_digits r
  | EmptyString => true
  end.

Definition integer_literal (s : string) : bool :=
  match s with
  | String c r =>
      if Ascii.eqb c "-" || Ascii.eqb c "+"
      then negb (String.eqb r "") && all_digits r
      else all_digits s
  | EmptyString => false
  end.

(** The decimal numeral of a non-negative integer, as an operator types it. *)
Definition decimal (z : Z) : string :=
  DecimalString.NilEmpty.string_of_uint (N.to_uint (Z.to_N z)).

(** The invariant of the globals. *)
Definition globals_ok (st : State) : Prop :=
  0 <= sampleCount st <= MAX_SAMPLES /\
  length (voltageBuffer st) = Z.to_nat MAX_SAMPLES /\
  1 <= sampleRate st <= 10000 /\
  1 <= ADC_SAMPLES st <= 1024.

(** The line an operator types to set the rate to [n]. *)
Definition rate_line (n : Z) : string := ("rate " ++ decimal n)%string.

(** The data rows among the output of [show]. *)
Definition is_data_row (e : Event) : bool :=
  match e with
  | Serial_printf fmt _ => String.eqb fmt "%d,%.4f,%.1f"
  | _ => false
  end.

Definition is_dac_write (e : Event) : bool :=
  match e with
  | dac_output_voltage _ => true
  | _ => false
  end.

(** The command words of the dispatcher, in the order it tests them. *)
Definition command_words : list string :=
  ["start"; "begin"; "stop"; "show"; "print"; "replay"; "replicate";
   "status"; "clear"; "rate"; "samples"; "read"; "calibrate"; "help"].

Definition known_command (command : string) : bool :=
  existsb (startsWith command) command_words.

(** A line of whitespace only. *)
Fixpoint all_space (s : string) : bool :=
  match s with
  | String c r => isspace c && all_space r
  | EmptyString => true
  end.

(** The same pass with another line waiting on the serial port. *)
Definition set_serial_line (l : option string) (inp : LoopInput) : LoopInput :=
  mkInput l (cmd_millis inp) (cmd_adc inp) (show_key inp)
    (replay_start_millis inp) (replay_end_millis inp) (replay_abort inp)
    (tick_millis inp) (tick_adc inp) (tick_stop_millis inp).

(** The pause prompts among the output of [show]. *)
Definition is_pause (e : Event) : bool :=
  match e with
  | Serial_println s => String.eqb s "--- Press any key to continue ---"
  | _ => false
  end.

(** A pass with no line waiting on the serial port. *)
Definition quiet (inp : LoopInput) : bool :=
  match serial_line inp with
  | None => true
  | Some _ => false
  end.

(** Passes that each come at least [period] milliseconds (on the wrapping
    32-bit clock) after the one before, the first one after [last]. *)
Fixpoint sampling_due (period last : Z) (inps : list LoopInput) : bool :=
  match inps with
  | [] => true
  | inp :: rest =>
      (period <=? u32 (u32 (tick_millis inp) - last))
      && sampling_due period (u32 (tick_millis inp)) rest
  end.

(** The sum of the raw codes [raw i], ..., [raw (i + n - 1)], without
    wrap-around. *)
Fixpoint raw_sum (raw : nat -> Z) (n i : nat) : Z :=
  match n with
  | O => 0
  | S n' => raw i + raw_sum raw n' (S i)
  end.

(** [x <= y] as C++ compares two floats; false when either is NaN. *)
Definition float_le (x y : float) : bool := F32.leb x y.

(** The order of the non-negative floats (zeros, positive finite numbers
    and [+inf]) as the lexicographic order of three integers: the class, the
    exponent and the mantissa. *)
Definition order_class (x : spec_float) : Z :=
  match x with
  | S754_zero _ => 0
  | S754_finite _ _ _ => 1
  | S754_infinity _ => 2
  | S754_nan => 3
  end.

Definition order_exp (x : spec_float) : Z :=
  match x with
  | S754_finite _ _ e => e
  | _ => 0
  end.

Definition order_man (x : spec_float) : Z :=
  match x with
  | S754_finite _ m _ => Z.pos m
  | _ => 0
  end.

Definition order_le (x y : spec_float) : Prop :=
  order_class x < order_class y \/
  (order_class x = order_class y /\
   (order_exp x < order_exp y \/
    (order_exp x = order_exp y /\ order_man x <= order_man y))).

Definition order_lt (x y : spec_float) : Prop :=
  order_class x < order_class y \/
  (order_class x = order_class y /\
   (order_exp x < order_exp y \/
    (order_exp x = order_exp y /\ order_man x < order_man y))).

(** A float that is a zero or finite: neither NaN nor an infinity. *)
Definition is_finite (x : spec_float) : bool :=
  match x with
  | S754_zero _ | S754_finite _ _ _ => true
  | _ => false
  end.

(** The value [atol] has read after the digits of [d], starting from
    [acc]. *)
Fixpoint uint_value (acc : Z) (d : Decimal.uint) : Z :=
  match d with
  | Decimal.Nil => acc
  | Decimal.D0 l => uint_value (acc * 10 + 0) l
  | Decimal.D1 l => uint_value (acc * 10 + 1) l
  | Decimal.D2 l => uint_value (acc * 10 + 2) l
  | Decimal.D3 l => uint_value (acc * 10 + 3) l
  | Decimal.D4 l => uint_value (acc * 10 + 4) l
  | Decimal.D5 l => uint_value (acc * 10 + 5) l
  | Decimal.D6 l => uint_value (acc * 10 + 6) l
  | Decimal.D7 l => uint_value (acc * 10 + 7) l
  | Decimal.D8 l => uint_value (acc * 10 + 8) l
  | Decimal.D9 l => uint_value (acc * 10 + 9) l
  end.

(** The decimal numeral of any integer, as an operator types it: a minus
    sign before the digits of a negative one. *)
Definition numeral (z : Z) : string :=
  if z <? 0 then String "-" (decimal (- z)) else decimal z.

(** The progress lines and the buffer-full line among the output of a
    recording. *)
Definition is_progress (e : Event) : bool :=
  match e with
  | Serial_printf fmt _ => String.eqb fmt "Recorded %d samples..."
  | _ => false
  end.

Definition is_buffer_full (e : Event) : bool :=
  match e with
  | Serial_println s => String.eqb s "Buffer full! Stopping recording."
  | _ => false
  end.

(* ===================================================================== *)
(** ** The command dispatcher picks its branch by prefix *)

Lemma prefix_inv (p s : string) :
  String.prefix p s = true -> exists r, s = (p ++ r)%string.
Proof.
  revert s; induction p as [|a p IH]; intros s H.
  - exists s; reflexivity.
  - destruct s as [|b s]; simpl in H; [discriminate|].
    destruct (ascii_dec a b) as [->|]; [|discriminate].
    destruct (IH _ H) as [r ->]. exists r; reflexivity.
Qed.

Lemma startsWith_inv (s p : string) :
  startsWith s p = true -> exists r, s = (p ++ r)%string.
Proof. apply prefix_inv. Qed.

Lemma startsWith_app (p r : string) : startsWith (p ++ r) p = true.
Proof.
  unfold startsWith; induction p as [|a p IH]; simpl.
  - destruct r; reflexivity.
  - destruct (ascii_dec a a); [exact IH | congruence].
Qed.

(** Decides every prefix test of the goal whose subject starts with known
    characters. *)
Ltac prefix_tests :=
  repeat match goal with
         | |- context [startsWith ?s ?p] =>
             let b := eval vm_compute in (startsWith s p) in
             change (startsWith s p) with b
         end;
  cbn [orb andb].

(** Opens the dispatcher on a waiting line whose command has the prefix of
    hypothesis [H]. *)
Ltac dispatch Hline H :=
  unfold processSerialCommands; rewrite Hline; cbv zeta;
  let rest := fresh "rest" in
  let E := fresh "E" in
  destruct (startsWith_inv _ _ H) as [rest E]; rewrite E; clear E;
  rewrite ?startsWith_app;
  prefix_tests.

Lemma s32_small (z : Z) : INT_MIN <= z <= INT_MAX -> s32 z = z.
Proof.
  unfold s32, INT_MIN, INT_MAX; intros H.
  rewrite Z.mod_small; lia.
Qed.

Lemma u32_range (z : Z) : 0 <= u32 z < 2 ^ 32.
Proof. unfold u32; apply Z.mod_pos_bound; lia. Qed.

Lemma u32_small (z : Z) : 0 <= z < 2 ^ 32 -> u32 z = z.
Proof. unfold u32; intros; apply Z.mod_small; lia. Qed.

(* ===================================================================== *)
(** ** Commands *)

(** C10. The [clear] command, whatever the state (recording or idle), sets
    [sampleCount] to 0, prints one line and returns; the recording flag,
    the sample rate, the calibration offset, the oversample count, the
    timestamps and the buffer contents keep their values. *)
Theorem clear_sets_count_only (inp : LoopInput) (st : State) (line : string) :
  serial_line inp = Some line ->
  startsWith (toLowerCase (trim line)) "clear" = true ->
  let r := processSerialCommands inp st in
  returned r = true /\
  output r = [Serial_println "Buffer cleared."] /\
  sampleCount (next_state r) = 0 /\
  recording (next_state r) = recording st /\
  sampleRate (next_state r) = sampleRate st /\
  adcOffset (next_state r) = adcOffset st /\
  ADC_SAMPLES (next_state r) = ADC_SAMPLES st /\
  recordingStartTime (next_state r) = recordingStartTime st /\
  recordingEndTime (next_state r) = recordingEndTime st /\
  lastSampleTime (next_state r) = lastSampleTime st /\
  voltageBuffer (next_state r) = voltageBuffer st.
Proof.
  intros Hline H r; subst r.
  dispatch Hline H.
  cbn. repeat split; reflexivity.
Qed.

(** C4. A precondition violation prints one line and does nothing else:
    [stop] while idle, [start] while recording, and [replay] or [show] with
    an empty buffer each return with every global unchanged and exactly one
    serial line as output; in particular [replay] with an empty buffer writes
    nothing to the DAC. *)
Theorem precondition_violations_are_noops
  (inp : LoopInput) (st : State) (line : string) :
  serial_line inp = Some line ->
  let command := toLowerCase (trim line) in
  let r := processSerialCommands inp st in
  (startsWith command "stop" = true -> recording st = false ->
   r = mkStep st [Serial_println "Not currently recording."] true) /\
  (startsWith command "start" || startsWith command "begin" = true ->
   recording st = true ->
   r = mkStep st [Serial_println "Already recording!"] true) /\
  (startsWith command "replay" || startsWith command "replicate" = true ->
   sampleCount st = 0 ->
   r = mkStep st [Serial_println "No data to replay!"] true /\
   List.filter is_dac_write (output r) = []) /\
  (startsWith command "show" || startsWith command "print" = true ->
   sampleCount st = 0 ->
   r = mkStep st [Serial_println "No data recorded!"] true).
Proof.
  intros Hline command r; subst command r.
  split; [|split; [|split]].
  - intros H Hrec. dispatch Hline H.
    unfold stopRecording, ret. rewrite Hrec. reflexivity.
  - intros H Hrec.
    unfold processSerialCommands; rewrite Hline; cbv zeta. rewrite H.
    unfold startRecording, ret. rewrite Hrec. reflexivity.
  - intros H Hcount.
    assert (E : processSerialCommands inp st =
                mkStep st [Serial_println "No data to replay!"] true).
    { apply orb_true_iff in H as [H|H]; dispatch Hline H;
        unfold replayVoltages; rewrite Hcount; reflexivity. }
    rewrite E. split; reflexivity.
  - intros H Hcount.
    apply orb_true_iff in H as [H|H]; dispatch Hline H;
      unfold printData; rewrite Hcount; reflexivity.
Qed.

(* ===================================================================== *)
(** ** Facts about rounding in [SpecFloat]

    Stated for any format with [0 < prec < emax]; used below for binary32
    and binary64. *)

Section RoundingFacts.

Variables prec emax : Z.
Hypothesis Hprec : 0 < prec.
Hypothesis Hemax : prec < emax.

Local Abbreviation fexp := (SpecFloat.fexp prec emax).
Local Abbreviation emin := (SpecFloat.emin prec emax).

Lemma digits2_pos_log2 (m : positive) :
  Z.pos (digits2_pos m) = Z.log2 (Z.pos m) + 1.
Proof.
  induction m as [m IH|m IH|]; cbn [digits2_pos].
  - rewrite Pos2Z.inj_succ, IH.
    change (Z.pos m~1) with (2 * Z.pos m + 1).
    rewrite Z.log2_succ_double by lia. lia.
  - rewrite Pos2Z.inj_succ, IH.
    change (Z.pos m~0) with (2 * Z.pos m).
    rewrite Z.log2_double by lia. lia.
  - reflexivity.
Qed.

Lemma Zdigits2_nonneg (m : Z) : 0 <= Zdigits2 m.
Proof. destruct m; cbn; lia. Qed.

Lemma Zdigits2_upper (m : Z) : 0 <= m -> m < 2 ^ Zdigits2 m.
Proof.
  intros Hm. destruct m as [|p|p]; [cbn; lia | | lia].
  cbn [Zdigits2]. rewrite digits2_pos_log2.
  apply Z.log2_spec. lia.
Qed.

Lemma Zdigits2_lower (m : Z) : 0 < m -> 2 ^ (Zdigits2 m - 1) <= m.
Proof.
  intros Hm. destruct m as [|p|p]; [lia | | lia].
  cbn [Zdigits2]. rewrite digits2_pos_log2.
  replace (Z.log2 (Z.pos p) + 1 - 1) with (Z.log2 (Z.pos p)) by lia.
  apply Z.log2_spec. lia.
Qed.

Lemma Zdigits2_le (m k : Z) : 0 <= m -> 0 <= k -> m < 2 ^ k -> Zdigits2 m <= k.
Proof.
  intros Hm Hk Hlt. destruct m as [|p|p]; [cbn; lia | | lia].
  cbn [Zdigits2]. rewrite digits2_pos_log2.
  assert (Z.log2 (Z.pos p) < k) by (apply Z.log2_lt_pow2; lia). lia.
Qed.

Lemma shr_1_m (r : shr_record) : 0 <= shr_m r -> shr_m (shr_1 r) = shr_m r / 2.
Proof.
  destruct r as [m b s]; cbn [shr_m]. intros Hm.
  destruct m as [|[p|p|]|p]; cbn [shr_1 shr_m]; try lia.
  - reflexivity.
  - change (Z.pos p~1) with (2 * Z.pos p + 1).
    symmetry. rewrite Z.mul_comm, Z.div_add_l by lia. 
    rewrite (Z.div_small 1 2) by lia. lia.
  - change (Z.pos p~0) with (2 * Z.pos p).
    rewrite Z.mul_comm, Z.div_mul by lia. reflexivity.
  - reflexivity.
Qed.

Lemma iter_shr_1_m (p : positive) (r : shr_record) :
  0 <= shr_m r ->
  shr_m (SpecFloat.iter_pos shr_1 p r) = shr_m r / 2 ^ Z.pos p.
Proof.
  revert r; induction p as [p IH|p IH|]; intros r Hr; cbn [SpecFloat.iter_pos].
  - assert (Hq : 0 < 2 ^ Z.pos p) by (apply Z.pow_pos_nonneg; lia).
    assert (E : 2 ^ Z.pos p~1 = 2 * (2 ^ Z.pos p * 2 ^ Z.pos p)).
    { rewrite Pos2Z.inj_xI, Z.pow_add_r, Z.pow_twice_r by lia. lia. }
    assert (H1 : 0 <= shr_m (shr_1 r)) by (rewrite shr_1_m by lia; apply Z.div_pos; lia).
    assert (H2 : 0 <= shr_m (SpecFloat.iter_pos shr_1 p (shr_1 r)))
      by (rewrite IH by lia; apply Z.div_pos; lia).
    rewrite IH, IH, shr_1_m by lia.
    rewrite !Z.div_div by lia. rewrite E. reflexivity.
  - assert (Hq : 0 < 2 ^ Z.pos p) by (apply Z.pow_pos_nonneg; lia).
    assert (E : 2 ^ Z.pos p~0 = 2 ^ Z.pos p * 2 ^ Z.pos p).
    { change (Z.pos p~0) with (2 * Z.pos p). rewrite Z.pow_twice_r. reflexivity. }
    assert (H2 : 0 <= shr_m (SpecFloat.iter_pos shr_1 p r))
      by (rewrite IH by lia; apply Z.div_pos; lia).
    rewrite IH, IH by lia.
    rewrite !Z.div_div by lia. rewrite E. reflexivity.
  - rewrite shr_1_m by lia. reflexivity.
Qed.

Lemma shr_record_of_loc_m (m : Z) (l : location) : shr_m (shr_record_of_loc m l) = m.
Proof. destruct l as [|[]]; reflexivity. Qed.

(** A right shift to the format's exponent: the exponent becomes the larger
    of the old one and [fexp], and the mantissa is divided accordingly. *)
Lemma shr_fexp_spec (m e : Z) (l : location) :
  0 <= m ->
  let e' := Z.max e (fexp (Zdigits2 m + e)) in
  snd (shr_fexp prec emax m e l) = e' /\
  shr_m (fst (shr_fexp prec emax m e l)) = m / 2 ^ (e' - e).
Proof.
  intros Hm e'. unfold shr_fexp, shr.
  destruct (fexp (Zdigits2 m + e) - e) as [|p|p] eqn:E; cbn [fst snd].
  - subst e'. rewrite Z.max_l by lia. rewrite Z.sub_diag, Z.div_1_r.
    split; [reflexivity | apply shr_record_of_loc_m].
  - subst e'. rewrite Z.max_r by lia.
    split; [lia|].
    rewrite iter_shr_1_m by (rewrite shr_record_of_loc_m; lia).
    rewrite shr_record_of_loc_m. f_equal. f_equal. lia.
  - subst e'. rewrite Z.max_l by lia. rewrite Z.sub_diag, Z.div_1_r.
    split; [reflexivity | apply shr_record_of_loc_m].
Qed.

Lemma round_nearest_even_bounds (m : Z) (l : location) :
  m <= round_nearest_even m l <= m + 1.
Proof.
  unfold round_nearest_even. destruct l as [|[]]; try lia.
  destruct (Z.even m); lia.
Qed.

Lemma fexp_mono (a b : Z) : a <= b -> fexp a <= fexp b.
Proof. unfold SpecFloat.fexp. lia. Qed.

Lemma fexp_ge_emin (a : Z) : emin <= fexp a.
Proof. unfold SpecFloat.fexp. lia. Qed.

Lemma emin_le : emin <= emax - prec.
Proof. unfold SpecFloat.emin. lia. Qed.

Lemma div_pow2_digits (m n : Z) :
  0 <= m -> 0 <= n -> 0 < m / 2 ^ n -> Zdigits2 (m / 2 ^ n) + n <= Zdigits2 m.
Proof.
  intros Hm Hn Hq.
  assert (Hp : 0 < 2 ^ n) by (apply Z.pow_pos_nonneg; lia).
  pose proof (Zdigits2_lower _ Hq) as Hlo.
  pose proof (Zdigits2_upper m Hm) as Hup.
  pose proof (Zdigits2_nonneg (m / 2 ^ n)) as Hd.
  assert (Hd1 : 1 <= Zdigits2 (m / 2 ^ n)).
  { destruct (m / 2 ^ n) as [|q|q]; cbn; lia. }
  assert (Hmul : 2 ^ n * (m / 2 ^ n) <= m) by (apply Z.mul_div_le; lia).
  assert (Hlt : 2 ^ (Zdigits2 (m / 2 ^ n) - 1 + n) < 2 ^ Zdigits2 m).
  { rewrite Z.pow_add_r by lia. nia. }
  apply Z.pow_lt_mono_r_iff in Hlt; [lia | lia | apply Zdigits2_nonneg].
Qed.

Lemma div_pow2_upper (m n : Z) :
  0 <= m -> 0 <= n -> m / 2 ^ n < 2 ^ Z.max 0 (Zdigits2 m - n).
Proof.
  intros Hm Hn.
  assert (Hp : 0 < 2 ^ n) by (apply Z.pow_pos_nonneg; lia).
  pose proof (Zdigits2_upper m Hm) as Hup.
  destruct (Z.le_gt_cases n (Zdigits2 m)) as [Hle|Hgt].
  - rewrite Z.max_r by lia.
    apply Z.div_lt_upper_bound; [lia|].
    rewrite <- Z.pow_add_r by lia.
    replace (n + (Zdigits2 m - n)) with (Zdigits2 m) by lia. exact Hup.
  - rewrite Z.max_l by lia.
    rewrite Z.div_small; [cbn; lia|].
    split; [lia|]. apply Z.lt_le_trans with (2 ^ Zdigits2 m); [exact Hup|].
    apply Z.pow_le_mono_r; lia.
Qed.

(** What rounding does to class, sign, exponent and magnitude: the result
    is never NaN and keeps the sign; when the exponent and the magnitude
    leave room it is a zero or finite, and its magnitude exceeds that of the
    operand by at most one binary digit. *)
Lemma binary_round_aux_spec (sx : bool) (mx ex : Z) (lx : location) :
  0 <= mx ->
  has_sign sx (binary_round_aux prec emax sx mx ex lx) /\
  (ex <= emax - prec -> Zdigits2 mx + ex + 1 <= emax ->
   mag_le (Z.max (Zdigits2 mx + ex) emin + 1) (binary_round_aux prec emax sx mx ex lx)).
Proof.
  intros Hmx. unfold binary_round_aux.
  destruct (shr_fexp_spec mx ex lx Hmx) as [He1 Hm1].
  destruct (shr_fexp prec emax mx ex lx) as [r1 e1]. cbn [fst snd] in He1, Hm1.
  rewrite <- He1 in Hm1.
  set (m2 := round_nearest_even (shr_m r1) (loc_of_shr_record r1)).
  pose proof (round_nearest_even_bounds (shr_m r1) (loc_of_shr_record r1)) as Hm2.
  fold m2 in Hm2.
  assert (Hp1 : 0 < 2 ^ (e1 - ex)) by (apply Z.pow_pos_nonneg; lia).
  assert (Hm1pos : 0 <= shr_m r1) by (rewrite Hm1; apply Z.div_pos; lia).
  assert (Hm2pos : 0 <= m2) by lia.
  destruct (shr_fexp_spec m2 e1 loc_Exact Hm2pos) as [He3 Hm3].
  destruct (shr_fexp prec emax m2 e1 loc_Exact) as [r3 e3]. cbn [fst snd] in He3, Hm3.
  rewrite <- He3 in Hm3.
  assert (Hp3 : 0 < 2 ^ (e3 - e1)) by (apply Z.pow_pos_nonneg; lia).
  assert (Hm3pos : 0 <= shr_m r3) by (rewrite Hm3; apply Z.div_pos; lia).
  (* digits of the rounded mantissa *)
  pose proof (Zdigits2_nonneg mx) as Hdx.
  assert (Hup1 : shr_m r1 < 2 ^ Z.max 0 (Zdigits2 mx - (e1 - ex))).
  { rewrite Hm1. apply div_pow2_upper; lia. }
  assert (Hd2 : Zdigits2 m2 <= Z.max 0 (Zdigits2 mx - (e1 - ex)) + 1).
  { apply Zdigits2_le; [lia | lia |].
    rewrite Z.pow_add_r by lia. lia. }
  pose proof (fexp_ge_emin (Zdigits2 mx + ex)) as Hge1.
  pose proof (emin_le) as Hemin.
  split.
  - destruct (shr_m r3) as [|p|p]; [reflexivity | | lia].
    destruct (e3 <=? emax - prec); reflexivity.
  - intros Hex Hmag.
    destruct (shr_m r3) as [|p|p] eqn:E3; [exact I | | lia].
    assert (Hd3 : Zdigits2 (Z.pos p) + (e3 - e1) <= Zdigits2 m2).
    { rewrite Hm3. apply div_pow2_digits; [lia | lia |].
      rewrite <- Hm3. lia. }
    cbn [Zdigits2] in Hd3.
    assert (Hfe : e3 <= emax - prec).
    { subst e3 e1. unfold SpecFloat.fexp in *. lia. }
    apply Z.leb_le in Hfe. rewrite Hfe. cbn [mag_le].
    subst e3 e1. unfold SpecFloat.fexp in *. lia.
Qed.

Lemma mag_le_mono (k k' : Z) (x : spec_float) : k <= k' -> mag_le k x -> mag_le k' x.
Proof. destruct x; cbn; lia. Qed.

Lemma digits2_pos_shift (m d : positive) :
  Z.pos (digits2_pos (Pos.iter xO m d)) = Z.pos (digits2_pos m) + Z.pos d.
Proof.
  induction d as [|d IH] using Pos.peano_ind.
  - cbn [Pos.iter digits2_pos]. lia.
  - rewrite Pos.iter_succ. cbn [digits2_pos]. lia.
Qed.

(** Rounding a mantissa and exponent to the format. *)
Lemma binary_round_spec (sx : bool) (m : positive) (e : Z) :
  has_sign sx (binary_round prec emax sx m e) /\
  (Z.pos (digits2_pos m) + e + 1 <= emax ->
   mag_le (Z.max (Z.pos (digits2_pos m) + e) emin + 1) (binary_round prec emax sx m e)).
Proof.
  unfold binary_round, shl_align.
  pose proof emin_le as Hemin.
  destruct (fexp (Z.pos (digits2_pos m) + e) - e) as [|d|d] eqn:E.
  - destruct (binary_round_aux_spec sx (Z.pos m) e loc_Exact ltac:(lia)) as [Hs Hm].
    split; [exact Hs|]. intros Hmag. apply Hm; cbn [Zdigits2]; [|lia].
    unfold SpecFloat.fexp in E. lia.
  - destruct (binary_round_aux_spec sx (Z.pos m) e loc_Exact ltac:(lia)) as [Hs Hm].
    split; [exact Hs|]. intros Hmag. apply Hm; cbn [Zdigits2]; [|lia].
    unfold SpecFloat.fexp in E. lia.
  - set (e' := fexp (Z.pos (digits2_pos m) + e)) in *.
    destruct (binary_round_aux_spec sx (Z.pos (Pos.iter xO m d)) e' loc_Exact ltac:(lia))
      as [Hs Hm].
    split; [exact Hs|]. intros Hmag.
    cbn [Zdigits2] in Hm. rewrite digits2_pos_shift in Hm.
    replace (Z.pos (digits2_pos m) + Z.pos d + e') with (Z.pos (digits2_pos m) + e) in Hm by lia.
    apply Hm; [|lia].
    subst e'. unfold SpecFloat.fexp in *. lia.
Qed.

(** An integer converted to the format. *)
Lemma binary_normalize_spec (z k : Z) :
  0 <= z ->
  has_sign false (binary_normalize prec emax z 0 false) /\
  (z < 2 ^ k -> 0 <= k -> k + 1 <= emax ->
   mag_le (Z.max k emin + 1) (binary_normalize prec emax z 0 false)).
Proof.
  intros Hz. destruct z as [|p|p]; cbn [binary_normalize]; [split; [reflexivity|intros; exact I] | | lia].
  destruct (binary_round_spec false p 0) as [Hs Hm].
  split; [exact Hs|]. intros Hlt Hk Hmax.
  assert (Hd : Zdigits2 (Z.pos p) <= k) by (apply Zdigits2_le; lia).
  cbn [Zdigits2] in Hd.
  eapply mag_le_mono; [|apply Hm; lia]. lia.
Qed.

(** The quotient of two finite floats. *)
Lemma SFdiv_finite_spec (sx sy : bool) (m1 m2 : positive) (e1 e2 : Z) :
  let x := S754_finite sx m1 e1 in
  let y := S754_finite sy m2 e2 in
  let N := Z.pos (digits2_pos m1) + e1 - (Z.pos (digits2_pos m2) + e2) in
  has_sign (xorb sx sy) (SFdiv prec emax x y) /\
  (N + 2 <= emax -> mag_le (Z.max (N + 1) emin + 1) (SFdiv prec emax x y)).
Proof.
  intros x y N. subst x y. cbn [SFdiv]. unfold SFdiv_core_binary.
  cbn [Zdigits2]. fold N.
  set (d1 := Z.pos (digits2_pos m1)) in *.
  set (d2 := Z.pos (digits2_pos m2)) in *.
  set (e' := Z.min (fexp N) (e1 - e2)).
  set (s := e1 - e2 - e').
  set (m' := match s with Z.pos _ => Z.shiftl (Z.pos m1) s | 0 => Z.pos m1 | Z.neg _ => 0 end).
  assert (Hs : 0 <= s) by (subst s e'; lia).
  assert (Hm' : m' = Z.pos m1 * 2 ^ s).
  { subst m'. destruct s as [|p|p]; [cbn; lia | apply Z.shiftl_mul_pow2; lia | lia]. }
  assert (Hq : fst (Z.div_eucl m' (Z.pos m2)) = m' / Z.pos m2) by reflexivity.
  destruct (Z.div_eucl m' (Z.pos m2)) as [q r]. cbn [fst] in Hq.
  assert (Hps : 0 < 2 ^ s) by (apply Z.pow_pos_nonneg; lia).
  assert (Hqpos : 0 <= q) by (rewrite Hq; apply Z.div_pos; lia).
  destruct (binary_round_aux_spec (xorb sx sy) q e' (new_location (Z.pos m2) r) Hqpos)
    as [Hsign Hmag].
  split; [exact Hsign|]. intros HN.
  pose proof emin_le as Hemin.
  (* digits of the quotient *)
  pose proof (Zdigits2_upper (Z.pos m1) ltac:(lia)) as Hu1. cbn [Zdigits2] in Hu1. fold d1 in Hu1.
  pose proof (Zdigits2_lower (Z.pos m2) ltac:(lia)) as Hl2. cbn [Zdigits2] in Hl2. fold d2 in Hl2.
  assert (Hd2 : 1 <= d2) by (subst d2; lia).
  assert (Hd1 : 1 <= d1) by (subst d1; lia).
  assert (Hdq : Zdigits2 q <= Z.max 0 (d1 + s - d2 + 1)).
  { apply Zdigits2_le; [lia | lia |].
    rewrite Hq, Hm'.
    assert (Hp2 : 0 < 2 ^ (d2 - 1)) by (apply Z.pow_pos_nonneg; lia).
    destruct (Z.le_gt_cases 0 (d1 + s - d2 + 1)) as [Hge|Hlt].
    - rewrite Z.max_r by lia.
      apply Z.div_lt_upper_bound; [lia|].
      apply Z.lt_le_trans with (2 ^ d1 * 2 ^ s); [nia|].
      apply Z.le_trans with (2 ^ (d2 - 1) * 2 ^ (d1 + s - d2 + 1)); [|nia].
      rewrite <- !Z.pow_add_r by lia.
      apply Z.pow_le_mono_r; lia.
    - rewrite Z.max_l by lia.
      rewrite Z.div_small; [cbn; lia|].
      split; [lia|].
      apply Z.lt_le_trans with (2 ^ d1 * 2 ^ s); [nia|].
      apply Z.le_trans with (2 ^ (d2 - 1)); [|lia].
      rewrite <- Z.pow_add_r by lia.
      apply Z.pow_le_mono_r; lia. }
  eapply mag_le_mono; [|apply Hmag].
  - subst e' s N. unfold SpecFloat.fexp in *. lia.
  - subst e' N. unfold SpecFloat.fexp in *. lia.
  - subst e' s N. unfold SpecFloat.fexp in *. lia.
Qed.

Lemma binary_normalize_not_nan (z e : Z) :
  is_nan (binary_normalize prec emax z e false) = false.
Proof.
  destruct z as [|p|p]; cbn [binary_normalize]; [reflexivity| |].
  - destruct (binary_round_spec false p e) as [Hs _].
    destruct (binary_round prec emax false p e); [reflexivity..|destruct Hs|reflexivity].
  - destruct (binary_round_spec true p e) as [Hs _].
    destruct (binary_round prec emax true p e); [reflexivity..|destruct Hs|reflexivity].
Qed.

(** A difference is NaN only if an operand is, or both are infinite. *)
Lemma SFsub_not_nan (x y : spec_float) :
  is_nan x = false -> is_nan y = false ->
  (exists k, mag_le k x) \/ (exists k, mag_le k y) ->
  is_nan (SFsub prec emax x y) = false.
Proof.
  intros Hx Hy Hfin.
  destruct x as [sx|sx| |sx mx ex], y as [sy|sy| |sy my ey];
    try discriminate; cbn [SFsub];
    try (destruct sx, sy; reflexivity); try reflexivity.
  - destruct Hfin as [[k []]|[k []]].
  - apply binary_normalize_not_nan.
Qed.

Lemma has_sign_nonneg (x : spec_float) : has_sign false x -> nonneg x = true.
Proof. destruct x as [s|s| |s m e]; cbn; intros H; subst; try reflexivity; destruct H. Qed.

Lemma nonneg_cases (x : spec_float) :
  nonneg x = true ->
  (exists s, x = S754_zero s) \/ x = S754_infinity false \/
  (exists m e, x = S754_finite false m e).
Proof.
  destruct x as [s|[]| |[] m e]; cbn; intros H; try discriminate.
  - left; eauto.
  - right; left; reflexivity.
  - right; right; eauto.
Qed.

(** A sum of two non-negative floats is non-negative. *)
Lemma SFadd_nonneg (x y : spec_float) :
  nonneg x = true -> nonneg y = true -> nonneg (SFadd prec emax x y) = true.
Proof.
  intros Hx Hy.
  destruct (nonneg_cases x Hx) as [[sx ->]|[->|(mx & ex & ->)]];
    destruct (nonneg_cases y Hy) as [[sy ->]|[->|(my & ey & ->)]];
    cbn [SFadd]; try reflexivity; try (destruct sx; reflexivity);
    try (destruct sx, sy; reflexivity).
  cbn [cond_Zopp].
  destruct (binary_round_spec false
              (fst (shl_align mx ex (Z.min ex ey)) + fst (shl_align my ey (Z.min ex ey)))
              (Z.min ex ey)) as [Hs _].
  apply has_sign_nonneg. exact Hs.
Qed.

(** A non-negative float divided by a positive finite one is non-negative. *)
Lemma SFdiv_nonneg (x : spec_float) (m : positive) (e : Z) :
  nonneg x = true -> nonneg (SFdiv prec emax x (S754_finite false m e)) = true.
Proof.
  intros Hx.
  destruct (nonneg_cases x Hx) as [[sx ->]|[->|(mx & ex & ->)]].
  - cbn [SFdiv]. destruct sx; reflexivity.
  - reflexivity.
  - apply has_sign_nonneg.
    exact (proj1 (SFdiv_finite_spec false false mx m ex e)).
Qed.

Lemma div_pow2_digits_eq (m n : Z) :
  0 <= m -> 0 <= n -> 0 < m / 2 ^ n -> Zdigits2 (m / 2 ^ n) + n = Zdigits2 m.
Proof.
  intros Hm Hn Hq.
  pose proof (div_pow2_digits m n Hm Hn Hq) as Hle.
  assert (Hp : 0 < 2 ^ n) by (apply Z.pow_pos_nonneg; lia).
  pose proof (Zdigits2_upper (m / 2 ^ n) ltac:(lia)) as Hup.
  pose proof (Zdigits2_nonneg (m / 2 ^ n)) as Hd.
  pose proof (Z.mul_succ_div_gt m (2 ^ n) Hp) as Hgt.
  assert (Hlt : m < 2 ^ (Zdigits2 (m / 2 ^ n) + n)).
  { rewrite Z.pow_add_r by lia. nia. }
  assert (Hk : 0 <= Zdigits2 (m / 2 ^ n) + n) by lia.
  pose proof (Zdigits2_le m _ Hm Hk Hlt). lia.
Qed.

Lemma Zdigits2_mono (a b : Z) : 0 <= a <= b -> Zdigits2 a <= Zdigits2 b.
Proof.
  intros H. apply Zdigits2_le; [lia | apply Zdigits2_nonneg |].
  pose proof (Zdigits2_upper b ltac:(lia)). lia.
Qed.

(** Rounding an operand whose exponent does not exceed the format's yields
    a float of the format: a finite result has a canonical mantissa and a
    bounded exponent. *)
Lemma binary_round_aux_valid (sx : bool) (mx ex : Z) (lx : location) :
  0 <= mx -> ex <= fexp (Zdigits2 mx + ex) ->
  valid_binary prec emax (binary_round_aux prec emax sx mx ex lx) = true.
Proof.
  intros Hmx Hal. unfold binary_round_aux.
  destruct (shr_fexp_spec mx ex lx Hmx) as [He1 Hm1].
  destruct (shr_fexp prec emax mx ex lx) as [r1 e1]. cbn [fst snd] in He1, Hm1.
  rewrite <- He1 in Hm1.
  set (m2 := round_nearest_even (shr_m r1) (loc_of_shr_record r1)).
  pose proof (round_nearest_even_bounds (shr_m r1) (loc_of_shr_record r1)) as Hm2.
  fold m2 in Hm2.
  assert (Hp1 : 0 < 2 ^ (e1 - ex)) by (apply Z.pow_pos_nonneg; lia).
  assert (Hm1pos : 0 <= shr_m r1) by (rewrite Hm1; apply Z.div_pos; lia).
  assert (Hm2pos : 0 <= m2) by lia.
  destruct (shr_fexp_spec m2 e1 loc_Exact Hm2pos) as [He3 Hm3].
  destruct (shr_fexp prec emax m2 e1 loc_Exact) as [r3 e3]. cbn [fst snd] in He3, Hm3.
  rewrite <- He3 in Hm3.
  assert (He1' : e1 = fexp (Zdigits2 mx + ex)) by lia.
  (* the exponent after the first shift is already the format's *)
  assert (Hal2 : e1 <= fexp (Zdigits2 m2 + e1)).
  { destruct (Z.eq_dec (shr_m r1) 0) as [Hz|Hnz].
    - assert (Hsmall : mx < 2 ^ (e1 - ex)).
      { destruct (Z.lt_ge_cases mx (2 ^ (e1 - ex))) as [H|H]; [exact H|].
        exfalso. assert (1 <= mx / 2 ^ (e1 - ex)); [|lia].
        apply Z.div_le_lower_bound; lia. }
      assert (Hd : Zdigits2 mx <= e1 - ex) by (apply Zdigits2_le; lia).
      pose proof (fexp_ge_emin (Zdigits2 m2 + e1)).
      unfold SpecFloat.fexp in *. lia.
    - assert (Hd1 : Zdigits2 (shr_m r1) + (e1 - ex) = Zdigits2 mx).
      { rewrite Hm1. apply div_pow2_digits_eq; [lia | lia |]. rewrite <- Hm1. lia. }
      pose proof (Zdigits2_mono (shr_m r1) m2 ltac:(lia)) as Hmono.
      apply Z.le_trans with (fexp (Zdigits2 (shr_m r1) + e1)).
      + replace (Zdigits2 (shr_m r1) + e1) with (Zdigits2 mx + ex) by lia. lia.
      + apply fexp_mono. lia. }
  assert (He3' : e3 = fexp (Zdigits2 m2 + e1)) by lia.
  assert (Hp3 : 0 < 2 ^ (e3 - e1)) by (apply Z.pow_pos_nonneg; lia).
  destruct (shr_m r3) as [|p|p] eqn:E3; [reflexivity | | reflexivity].
  destruct (e3 <=? emax - prec) eqn:Hb; [|reflexivity].
  cbn [valid_binary]. unfold bounded, canonical_mantissa. rewrite Hb, andb_true_r.
  apply Z.eqb_eq.
  assert (Hd3 : Zdigits2 (Z.pos p) + (e3 - e1) = Zdigits2 m2).
  { rewrite Hm3. apply div_pow2_digits_eq; [lia | lia |]. rewrite <- Hm3. lia. }
  cbn [Zdigits2] in Hd3.
  replace (Z.pos (digits2_pos p) + e3) with (Zdigits2 m2 + e1) by lia. lia.
Qed.

(** A quotient is a float of the format, whatever the operands. *)
Lemma SFdiv_valid (x y : spec_float) : valid_binary prec emax (SFdiv prec emax x y) = true.
Proof.
  destruct x as [sx|sx| |sx m1 e1], y as [sy|sy| |sy m2 e2]; try reflexivity.
  cbn [SFdiv]. unfold SFdiv_core_binary. cbn [Zdigits2].
  set (d1 := Z.pos (digits2_pos m1)).
  set (d2 := Z.pos (digits2_pos m2)).
  set (N := d1 + e1 - (d2 + e2)).
  set (e' := Z.min (fexp N) (e1 - e2)).
  set (s := e1 - e2 - e').
  set (m' := match s with Z.pos _ => Z.shiftl (Z.pos m1) s | 0 => Z.pos m1 | Z.neg _ => 0 end).
  assert (Hs : 0 <= s) by (subst s e'; lia).
  assert (Hm' : m' = Z.pos m1 * 2 ^ s).
  { subst m'. destruct s as [|p|p]; [cbn; lia | apply Z.shiftl_mul_pow2; lia | lia]. }
  assert (Hq : fst (Z.div_eucl m' (Z.pos m2)) = m' / Z.pos m2) by reflexivity.
  destruct (Z.div_eucl m' (Z.pos m2)) as [q r]. cbn [fst] in Hq.
  assert (Hps : 0 < 2 ^ s) by (apply Z.pow_pos_nonneg; lia).
  assert (Hqpos : 0 <= q) by (rewrite Hq; apply Z.div_pos; lia).
  apply binary_round_aux_valid; [exact Hqpos|].
  pose proof (Zdigits2_lower (Z.pos m1) ltac:(lia)) as Hl1. cbn [Zdigits2] in Hl1. fold d1 in Hl1.
  pose proof (Zdigits2_upper (Z.pos m2) ltac:(lia)) as Hu2. cbn [Zdigits2] in Hu2. fold d2 in Hu2.
  assert (Hd1 : 1 <= d1) by (subst d1; lia).
  assert (Hd2 : 1 <= d2) by (subst d2; lia).
  assert (Hlow : 2 ^ (d1 + s - 1) <= m').
  { rewrite Hm'. replace (d1 + s - 1) with (d1 - 1 + s) by lia.
    rewrite Z.pow_add_r by lia. nia. }
  pose proof (Zdigits2_nonneg q) as Hdq0.
  pose proof (Zdigits2_upper q Hqpos) as Huq.
  pose proof (Z.mul_succ_div_gt m' (Z.pos m2) ltac:(lia)) as Hgt. rewrite <- Hq in Hgt.
  (* the quotient has at least [d1 + s - d2] digits *)
  assert (Hdq : d1 + s - d2 <= Zdigits2 q).
  { assert (Hlt : 2 ^ (d1 + s - 1) < 2 ^ (Zdigits2 q + d2)).
    { rewrite (Z.pow_add_r 2 (Zdigits2 q) d2) by lia.
      assert (0 < 2 ^ Zdigits2 q) by (apply Z.pow_pos_nonneg; lia).
      nia. }
    apply Z.pow_lt_mono_r_iff in Hlt; lia. }
  destruct (Z.eq_dec q 0) as [Hz|Hnz].
  - rewrite Hz in Hdq. cbn [Zdigits2] in Hdq. rewrite Hz. cbn [Zdigits2].
    assert (e' <= emin); [|unfold SpecFloat.fexp; lia].
    assert (N <= e') by (subst N s; lia).
    subst e'. unfold SpecFloat.fexp in *. lia.
  - apply Z.le_trans with (fexp N); [subst e'; lia|].
    apply fexp_mono. subst N s. lia.
Qed.

End RoundingFacts.

(* ===================================================================== *)
(** ** Exact conversions *)

Section Exactness.

Variables prec emax : Z.
Hypothesis Hprec : 0 < prec.
Hypothesis Hemax : prec < emax.

Local Abbreviation fexp := (SpecFloat.fexp prec emax).

(** Rounding a mantissa that is already canonical changes nothing. *)
Lemma binary_round_aux_exact (sx : bool) (p : positive) (ex : Z) :
  fexp (Z.pos (digits2_pos p) + ex) = ex -> ex <= emax - prec ->
  binary_round_aux prec emax sx (Z.pos p) ex loc_Exact = S754_finite sx p ex.
Proof.
  intros Hc Hb. unfold binary_round_aux, shr_fexp. cbn [Zdigits2].
  rewrite Hc, Z.sub_diag. cbn [shr shr_record_of_loc shr_m loc_of_shr_record round_nearest_even].
  cbn [Zdigits2]. rewrite Hc, Z.sub_diag. cbn [shr shr_record_of_loc shr_m].
  apply Z.leb_le in Hb. rewrite Hb. reflexivity.
Qed.

Lemma iter_pos_swap {A : Type} (f : A -> A) (p : positive) (x : A) :
  SpecFloat.iter_pos f p (f x) = f (SpecFloat.iter_pos f p x).
Proof.
  revert x; induction p as [p IH|p IH|]; intros x; cbn [SpecFloat.iter_pos].
  - rewrite !IH. reflexivity.
  - rewrite !IH. reflexivity.
  - reflexivity.
Qed.

Lemma iter_pos_succ {A : Type} (f : A -> A) (p : positive) (x : A) :
  SpecFloat.iter_pos f (Pos.succ p) x = f (SpecFloat.iter_pos f p x).
Proof.
  revert x; induction p as [p IH|p IH|]; intros x.
  - change (Pos.succ p~1) with (xO (Pos.succ p)). cbn [SpecFloat.iter_pos].
    rewrite !IH, !iter_pos_swap. reflexivity.
  - change (Pos.succ p~0) with (xI p). cbn [SpecFloat.iter_pos].
    rewrite !iter_pos_swap. reflexivity.
  - reflexivity.
Qed.

(** Shifting left by [d] and then right by [d] gives the mantissa back,
    with nothing lost. *)
Lemma shr_shl (m d : positive) :
  SpecFloat.iter_pos shr_1 d (Build_shr_record (Z.pos (Pos.iter xO m d)) false false)
  = Build_shr_record (Z.pos m) false false.
Proof.
  revert m; induction d as [|d IH] using Pos.peano_ind; intros m.
  - reflexivity.
  - rewrite iter_pos_succ, Pos.iter_succ_r, IH. reflexivity.
Qed.

End Exactness.

Lemma F32_format : 0 < F32.prec /\ F32.prec < F32.emax.
Proof. unfold F32.prec, F32.emax; lia. Qed.

Lemma F64_format : 0 < F64.prec /\ F64.prec < F64.emax.
Proof. unfold F64.prec, F64.emax; lia. Qed.

(** Promoting a [float] to [double] and storing it back is exact. *)
Lemma to_float_to_double (x : spec_float) :
  valid_binary F32.prec F32.emax x = true -> to_float (to_double x) = x.
Proof.
  destruct x as [s|s| |s m e]; try reflexivity.
  cbn [valid_binary]. unfold bounded, canonical_mantissa. intros H.
  apply andb_true_iff in H as [Hc Hb]. apply Z.eqb_eq in Hc. apply Z.leb_le in Hb.
  destruct F64_format as [Hp64 He64].
  set (D := Z.pos (digits2_pos m)) in *.
  assert (HD : 1 <= D) by (subst D; lia).
  unfold to_double, F64.round, binary_round, shl_align.
  fold D.
  destruct (SpecFloat.fexp F64.prec F64.emax (D + e) - e) as [|d|d] eqn:Ed;
    try (exfalso; unfold SpecFloat.fexp, SpecFloat.emin, F64.prec, F64.emax,
           F32.prec, F32.emax in *; lia).
  set (e64 := SpecFloat.fexp F64.prec F64.emax (D + e)) in *.
  assert (Hshift : Z.pos (digits2_pos (Pos.iter xO m d)) + e64 = D + e).
  { rewrite (digits2_pos_shift m d). fold D. lia. }
  rewrite (binary_round_aux_exact F64.prec F64.emax s (Pos.iter xO m d) e64).
  2: { rewrite Hshift. reflexivity. }
  2: { subst e64. unfold SpecFloat.fexp, SpecFloat.emin, F64.prec, F64.emax,
         F32.prec, F32.emax in *. lia. }
  unfold to_float, F32.round, binary_round, shl_align.
  rewrite Hshift, Hc.
  replace (e - e64) with (Z.pos d) by lia.
  unfold binary_round_aux, shr_fexp. cbn [Zdigits2].
  rewrite Hshift, Hc.
  replace (e - e64) with (Z.pos d) by lia.
  cbn [shr shr_record_of_loc]. rewrite shr_shl.
  cbn [shr_m loc_of_shr_record round_nearest_even Zdigits2].
  replace (e64 + Z.pos d) with e by lia.
  fold D. rewrite Hc, Z.sub_diag. cbn [shr shr_record_of_loc shr_m].
  apply Z.leb_le in Hb. rewrite Hb. reflexivity.
Qed.

(* ===================================================================== *)
(** ** Differences and the order of non-negative floats *)

Section Differences.

Variables prec emax : Z.
Hypothesis Hprec : 0 < prec.
Hypothesis Hemax : prec < emax.

Local Abbreviation emin := (SpecFloat.emin prec emax).

Lemma shl_align_upper (m : positive) (e ez k : Z) :
  ez <= e -> Z.pos (digits2_pos m) + e <= k ->
  Z.pos (fst (shl_align m e ez)) < 2 ^ (k - ez).
Proof.
  intros He Hk. unfold shl_align.
  destruct (ez - e) as [|d|d] eqn:E; cbn [fst].
  - pose proof (Zdigits2_upper (Z.pos m) ltac:(lia)) as Hu. cbn [Zdigits2] in Hu.
    eapply Z.lt_le_trans; [exact Hu|]. apply Z.pow_le_mono_r; lia.
  - lia.
  - pose proof (Zdigits2_upper (Z.pos (Pos.iter xO m d)) ltac:(lia)) as Hu.
    cbn [Zdigits2] in Hu. rewrite digits2_pos_shift in Hu.
    eapply Z.lt_le_trans; [exact Hu|]. apply Z.pow_le_mono_r; lia.
Qed.

(** The difference of two non-negative numbers below [2 ^ k] is finite and
    below [2 ^ (k + 1)] in magnitude. *)
Lemma SFsub_nonneg_mag (x y : spec_float) (k : Z) :
  has_sign false x -> has_sign false y -> mag_le k x -> mag_le k y ->
  k + 1 <= emax ->
  mag_le (Z.max k emin + 1) (SFsub prec emax x y).
Proof.
  intros Hsx Hsy Hx Hy Hk.
  destruct x as [sx|sx| |sx mx ex], y as [sy|sy| |sy my ey];
    cbn in Hsx, Hsy, Hx, Hy; try contradiction; subst; cbn [SFsub].
  - cbn. exact I.
  - cbn [mag_le]. lia.
  - cbn [mag_le]. lia.
  - cbn [cond_Zopp].
    set (ez := Z.min ex ey).
    pose proof (shl_align_upper mx ex ez k ltac:(lia) Hx) as Ha.
    pose proof (shl_align_upper my ey ez k ltac:(lia) Hy) as Hb.
    set (a := fst (shl_align mx ex ez)) in *.
    set (b := fst (shl_align my ey ez)) in *.
    assert (Hpos : 0 < k - ez).
    { pose proof (Pos2Z.is_pos (digits2_pos mx)). lia. }
    destruct (Z.pos a - Z.pos b) as [|p|p] eqn:E; cbn [binary_normalize].
    + exact I.
    + destruct (binary_round_spec prec emax Hprec Hemax false p ez) as [_ Hm].
      assert (Hd : Zdigits2 (Z.pos p) <= k - ez) by (apply Zdigits2_le; lia).
      cbn [Zdigits2] in Hd.
      eapply mag_le_mono; [|apply Hm; lia]. lia.
    + destruct (binary_round_spec prec emax Hprec Hemax true p ez) as [_ Hm].
      assert (Hd : Zdigits2 (Z.pos p) <= k - ez) by (apply Zdigits2_le; lia).
      cbn [Zdigits2] in Hd.
      eapply mag_le_mono; [|apply Hm; lia]. lia.
Qed.

End Differences.

Lemma SFcompare_nonneg (x y : spec_float) :
  nonneg x = true -> nonneg y = true ->
  SFcompare x y =
  Some match order_class x ?= order_class y with
       | Eq => match order_exp x ?= order_exp y with
               | Eq => order_man x ?= order_man y
               | c => c
               end
       | c => c
       end.
Proof.
  intros Hx Hy.
  destruct (nonneg_cases x Hx) as [[sx ->]|[->|(mx & ex & ->)]];
    destruct (nonneg_cases y Hy) as [[sy ->]|[->|(my & ey & ->)]];
    reflexivity.
Qed.

Lemma SFleb_order (x y : spec_float) :
  nonneg x = true -> nonneg y = true -> (SFleb x y = true <-> order_le x y).
Proof.
  intros Hx Hy. unfold SFleb, order_le. rewrite (SFcompare_nonneg x y Hx Hy).
  destruct (Z.compare_spec (order_class x) (order_class y));
    destruct (Z.compare_spec (order_exp x) (order_exp y));
    destruct (Z.compare_spec (order_man x) (order_man y));
    split; intros; try reflexivity; try discriminate; lia.
Qed.

Lemma SFltb_order (x y : spec_float) :
  nonneg x = true -> nonneg y = true -> (SFltb x y = true <-> order_lt x y).
Proof.
  intros Hx Hy. unfold SFltb, order_lt. rewrite (SFcompare_nonneg x y Hx Hy).
  destruct (Z.compare_spec (order_class x) (order_class y));
    destruct (Z.compare_spec (order_exp x) (order_exp y));
    destruct (Z.compare_spec (order_man x) (order_man y));
    split; intros; try reflexivity; try discriminate; lia.
Qed.

Lemma SFltb_false_order (x y : spec_float) :
  nonneg x = true -> nonneg y = true -> SFltb x y = false -> order_le y x.
Proof.
  intros Hx Hy H.
  assert (Hn : ~ order_lt x y).
  { intros Hlt. apply (SFltb_order x y Hx Hy) in Hlt. congruence. }
  unfold order_lt, order_le in *. lia.
Qed.

(* ===================================================================== *)
(** ** What a command and a sampling pass can change *)

(** Reduces the field accesses of the goal. *)
Ltac state_simpl :=
  cbn [next_state output returned fst snd
       recording voltageBuffer sampleCount sampleRate lastSampleTime
       recordingStartTime recordingEndTime adcOffset ADC_SAMPLES
       set_recording set_voltageBuffer set_sampleCount set_sampleRate
       set_lastSampleTime set_recordingStartTime set_recordingEndTime
       set_adcOffset set_ADC_SAMPLES].

(** Splits on every conditional of the goal. *)
Ltac split_ifs :=
  repeat match goal with
         | |- context [if ?b then _ else _] => destruct b eqn:?
         end.

(** Turns the boolean tests among the hypotheses into propositions. *)
Ltac bool_hyps :=
  repeat match goal with
         | H : andb _ _ = true |- _ => apply andb_true_iff in H; destruct H
         | H : (_ >? _) = true |- _ => apply Z.gtb_lt in H
         | H : (_ >=? _) = true |- _ => apply Z.geb_le in H
         | H : (_ <=? _) = true |- _ => apply Z.leb_le in H
         | H : (_ <? _) = true |- _ => apply Z.ltb_lt in H
         | H : (_ =? _) = true |- _ => apply Z.eqb_eq in H
         end.

(** A command leaves the buffer alone; it keeps the count or zeroes it,
    keeps the rate or sets one within 1..10000, keeps the oversample count
    or sets one within 1..1024, and keeps the offset or recalibrates it. *)
Lemma command_effect (inp : LoopInput) (st : State) :
  let st' := next_state (processSerialCommands inp st) in
  voltageBuffer st' = voltageBuffer st /\
  (sampleCount st' = sampleCount st \/ sampleCount st' = 0) /\
  (sampleRate st' = sampleRate st \/ 1 <= sampleRate st' <= 10000) /\
  (ADC_SAMPLES st' = ADC_SAMPLES st \/ 1 <= ADC_SAMPLES st' <= 1024) /\
  (adcOffset st' = adcOffset st \/ adcOffset st' = adc_volts (cmd_adc inp) st).
Proof.
  unfold processSerialCommands, printData, startRecording, stopRecording,
    calibrateADCOffset, ret.
  destruct (serial_line inp) as [line|]; cbv zeta.
  2: { cbn; tauto. }
  split_ifs; state_simpl; repeat split; try tauto; bool_hyps; right; lia.
Qed.

Lemma command_keeps_zero_count (inp : LoopInput) (st : State) :
  sampleCount st = 0 ->
  sampleCount (next_state (processSerialCommands inp st)) = 0.
Proof.
  intros H. destruct (command_effect inp st) as (_ & [E|E] & _); lia.
Qed.

(** The sampling pass either stores nothing, or stores one reading at index
    [sampleCount] and counts it. *)
Lemma loop_sample_effect (inp : LoopInput) (st : State) :
  let post := fst (loop_sample inp st) in
  (sampleCount post = sampleCount st /\
   voltageBuffer post = voltageBuffer st /\
   recording post = recording st /\
   recordingEndTime post = recordingEndTime st) \/
  (recording st = true /\ sampleCount st < MAX_SAMPLES /\
   u32 (u32 (tick_millis inp) - lastSampleTime st) >= sample_period_ms st /\
   sampleCount post = s32 (sampleCount st + 1) /\
   voltageBuffer post =
     <[Z.to_nat (sampleCount st) := readVoltageHighPrecision (tick_adc inp) st]>
       (voltageBuffer st) /\
   (s32 (sampleCount st + 1) < MAX_SAMPLES -> recording post = true) /\
   (s32 (sampleCount st + 1) >= MAX_SAMPLES ->
    recording post = false /\ recordingEndTime post = u32 (tick_stop_millis inp))).
Proof.
  unfold loop_sample.
  destruct (recording st) eqn:Hrec; cbn [andb]; [|left; cbn; tauto].
  destruct (sampleCount st <? MAX_SAMPLES) eqn:Hroom; [|left; cbn; tauto].
  apply Z.ltb_lt in Hroom. cbv zeta.
  set (st1 := if sampleCount st =? 0 then _ else st).
  assert (E1 : sampleCount st1 = sampleCount st /\ lastSampleTime st1 = lastSampleTime st /\
               sample_period_ms st1 = sample_period_ms st /\
               voltageBuffer st1 = voltageBuffer st /\ recording st1 = recording st /\
               recordingEndTime st1 = recordingEndTime st /\
               readVoltageHighPrecision (tick_adc inp) st1 =
               readVoltageHighPrecision (tick_adc inp) st).
  { subst st1; destruct (sampleCount st =? 0); cbn; repeat split; reflexivity. }
  destruct E1 as (Ec & El & Ep & Eb & Er & Ee & Ev).
  rewrite El, Ep.
  destruct (u32 (u32 (tick_millis inp) - lastSampleTime st) >=? sample_period_ms st) eqn:Hdue.
  2: { left. cbn [fst]. rewrite Ec, Eb, Er, Ee. tauto. }
  right. apply Z.geb_le in Hdue.
  cbn [sampleCount set_lastSampleTime set_sampleCount set_voltageBuffer].
  rewrite Ec, Ev, Eb.
  destruct (s32 (sampleCount st + 1) >=? MAX_SAMPLES) eqn:Hfull.
  - apply Z.geb_le in Hfull.
    unfold stopRecording. cbn [recording set_lastSampleTime set_sampleCount set_voltageBuffer].
    rewrite Er, Hrec. cbn.
    repeat split; try lia; try reflexivity.
  - rewrite Z.geb_leb in Hfull; apply Z.leb_gt in Hfull.
    cbn. rewrite Er, Hrec.
    repeat split; try lia; try reflexivity.
Qed.

(** A sampling pass that finds the firmware recording, with room in the
    buffer and the sample due: what it leaves in each global. *)
Lemma loop_sample_due (inp : LoopInput) (st : State) :
  recording st = true ->
  0 <= sampleCount st < MAX_SAMPLES ->
  sample_period_ms st <= u32 (u32 (tick_millis inp) - lastSampleTime st) ->
  let post := fst (loop_sample inp st) in
  sampleCount post = sampleCount st + 1 /\
  voltageBuffer post =
    <[Z.to_nat (sampleCount st) := readVoltageHighPrecision (tick_adc inp) st]>
      (voltageBuffer st) /\
  lastSampleTime post = u32 (tick_millis inp) /\
  recordingStartTime post =
    (if sampleCount st =? 0 then u32 (tick_millis inp) else recordingStartTime st) /\
  recording post = (sampleCount st + 1 <? MAX_SAMPLES) /\
  sampleRate post = sampleRate st /\
  ADC_SAMPLES post = ADC_SAMPLES st /\
  adcOffset post = adcOffset st.
Proof.
  intros Hrec Hc Hdue. unfold loop_sample.
  rewrite Hrec. cbn [andb].
  destruct (sampleCount st <? MAX_SAMPLES) eqn:Hroom; [|apply Z.ltb_ge in Hroom; lia].
  cbv zeta.
  set (st1 := if sampleCount st =? 0 then _ else st).
  assert (E1 : sampleCount st1 = sampleCount st /\ lastSampleTime st1 = lastSampleTime st /\
               sample_period_ms st1 = sample_period_ms st /\
               voltageBuffer st1 = voltageBuffer st /\ recording st1 = true /\
               sampleRate st1 = sampleRate st /\ ADC_SAMPLES st1 = ADC_SAMPLES st /\
               adcOffset st1 = adcOffset st /\
               recordingStartTime st1 =
                 (if sampleCount st =? 0 then u32 (tick_millis inp) else recordingStartTime st) /\
               readVoltageHighPrecision (tick_adc inp) st1 =
               readVoltageHighPrecision (tick_adc inp) st).
  { subst st1; destruct (sampleCount st =? 0); cbn; rewrite Hrec; repeat split; reflexivity. }
  destruct E1 as (Ec & El & Ep & Eb & Er & Erate & Eadc & Eoff & Estart & Ev).
  rewrite El, Ep.
  destruct (u32 (u32 (tick_millis inp) - lastSampleTime st) >=? sample_period_ms st) eqn:Hd.
  2: { rewrite Z.geb_leb in Hd. apply Z.leb_gt in Hd. lia. }
  cbn [sampleCount set_lastSampleTime set_sampleCount set_voltageBuffer].
  rewrite Ec, Ev, Eb.
  assert (Es : s32 (sampleCount st + 1) = sampleCount st + 1).
  { apply s32_small. unfold INT_MIN, INT_MAX, MAX_SAMPLES in *. lia. }
  rewrite Es.
  destruct (sampleCount st + 1 >=? MAX_SAMPLES) eqn:Hfull.
  - apply Z.geb_le in Hfull.
    assert (Hlt : (sampleCount st + 1 <? MAX_SAMPLES) = false) by (apply Z.ltb_ge; lia).
    rewrite Hlt.
    unfold stopRecording. cbn [recording set_lastSampleTime set_sampleCount set_voltageBuffer].
    rewrite Er. cbn.
    rewrite Estart, Erate, Eadc, Eoff. repeat split; reflexivity.
  - rewrite Z.geb_leb in Hfull; apply Z.leb_gt in Hfull.
    assert (Hlt : (sampleCount st + 1 <? MAX_SAMPLES) = true) by (apply Z.ltb_lt; lia).
    rewrite Hlt. cbn.
    rewrite Estart, Erate, Eadc, Eoff, Er. repeat split; reflexivity.
Qed.

(* ===================================================================== *)
(** ** The buffer never overflows *)

Lemma command_preserves_globals_ok (inp : LoopInput) (st : State) :
  globals_ok st -> globals_ok (next_state (processSerialCommands inp st)).
Proof.
  intros (Hc & Hl & Hr & Ha).
  destruct (command_effect inp st) as (Eb & Ec & Er & Ea & _).
  unfold globals_ok. rewrite Eb.
  repeat split; try assumption; destruct Ec, Er, Ea; unfold MAX_SAMPLES in *; lia.
Qed.

Lemma loop_sample_preserves_globals_ok (inp : LoopInput) (st : State) :
  globals_ok st -> globals_ok (fst (loop_sample inp st)).
Proof.
  intros (Hc & Hl & Hr & Ha).
  assert (Hconst : sampleRate (fst (loop_sample inp st)) = sampleRate st /\
                   ADC_SAMPLES (fst (loop_sample inp st)) = ADC_SAMPLES st).
  { unfold loop_sample, stopRecording. split_ifs; state_simpl; split; reflexivity. }
  destruct Hconst as [Er Ea].
  unfold globals_ok. rewrite Er, Ea.
  destruct (loop_sample_effect inp st) as [(Ec & Eb & _) | (_ & Hroom & _ & Ec & Eb & _)].
  - rewrite Ec, Eb. tauto.
  - rewrite Ec, Eb, length_insert.
    rewrite s32_small by (unfold INT_MIN, INT_MAX, MAX_SAMPLES in *; lia).
    repeat split; try assumption; lia.
Qed.

Lemma loop_preserves_globals_ok (inp : LoopInput) (st : State) :
  globals_ok st -> globals_ok (next_state (loop inp st)).
Proof.
  intros H. unfold loop.
  pose proof (command_preserves_globals_ok inp st H) as H1.
  destruct (returned (processSerialCommands inp st)); [|exact H1].
  state_simpl. apply loop_sample_preserves_globals_ok, H1.
Qed.

Lemma setup_globals_ok (raw : nat -> Z) : globals_ok (fst (setup raw)).
Proof.
  unfold setup, calibrateADCOffset; state_simpl.
  unfold globals_ok, initial_state; state_simpl.
  rewrite length_replicate. unfold MAX_SAMPLES, DEFAULT_SAMPLE_RATE. lia.
Qed.

Lemma reachable_globals_ok (st : State) : reachable st -> globals_ok st.
Proof.
  induction 1 as [raw | st inp _ IH].
  - apply setup_globals_ok.
  - apply loop_preserves_globals_ok, IH.
Qed.

Lemma run_reachable (inps : list LoopInput) (st : State) :
  reachable st -> reachable (next_state (run inps st)).
Proof.
  revert st; induction inps as [|inp rest IH]; intros st H; cbn [run].
  - exact H.
  - pose proof (reachable_loop st inp H) as H1.
    destruct (returned (loop inp st)); [|exact H1].
    state_simpl. apply IH, H1.
Qed.

(** C1. In every state the firmware can reach (by [setup()] and any
    sequence of passes of [loop()], whatever commands and clock values they
    bring), [0 <= sampleCount <= MAX_SAMPLES = 5000] and the buffer has
    [MAX_SAMPLES] cells, so a store at index [sampleCount < MAX_SAMPLES] is
    within it.  With [sampleCount = MAX_SAMPLES] the sampling part of a pass
    stores nothing and changes nothing; and a sampling pass that brings
    [sampleCount] up to [MAX_SAMPLES] began while recording and ends idle,
    with [recordingEndTime] set to the clock value [stopRecording] read. *)
Theorem buffer_never_overflows (st : State) :
  reachable st ->
  0 <= sampleCount st <= MAX_SAMPLES /\
  MAX_SAMPLES = 5000 /\
  length (voltageBuffer st) = Z.to_nat MAX_SAMPLES /\
  (forall inp, sampleCount st = MAX_SAMPLES -> loop_sample inp st = (st, [])) /\
  (forall inp,
     sampleCount st < MAX_SAMPLES ->
     sampleCount (fst (loop_sample inp st)) = MAX_SAMPLES ->
     recording st = true /\
     recording (fst (loop_sample inp st)) = false /\
     recordingEndTime (fst (loop_sample inp st)) = u32 (tick_stop_millis inp)).
Proof.
  intros Hreach.
  destruct (reachable_globals_ok st Hreach) as (Hc & Hl & _).
  split; [exact Hc|]. split; [reflexivity|]. split; [exact Hl|]. split.
  - intros inp Hfull. unfold loop_sample.
    rewrite Hfull, Z.ltb_irrefl, andb_false_r. reflexivity.
  - intros inp Hroom Hpost.
    destruct (loop_sample_effect inp st) as [(Ec & _) | (Hrec & _ & _ & Ec & _ & _ & Hstop)].
    + lia.
    + rewrite Hpost in Ec. split; [exact Hrec|]. apply Hstop. lia.
Qed.

(* ===================================================================== *)
(** ** Starting a recording *)

Lemma first_store_from_zero (inps : list LoopInput) (st : State) :
  sampleCount st = 0 ->
  first_store inps st = None \/ first_store inps st = Some 0.
Proof.
  revert st; induction inps as [|inp rest IH]; intros st Hz; cbn [first_store].
  - left; reflexivity.
  - cbv zeta.
    destruct (returned (processSerialCommands inp st)); [|left; reflexivity].
    pose proof (command_keeps_zero_count inp st Hz) as Hpre.
    destruct (sampleCount (fst (loop_sample inp _)) =? _) eqn:E.
    + apply IH. apply Z.eqb_eq in E. lia.
    + right. rewrite Hpre. reflexivity.
Qed.

Lemma start_command_idle (inp : LoopInput) (st : State) (line : string) :
  serial_line inp = Some line ->
  startsWith (toLowerCase (trim line)) "start"
  || startsWith (toLowerCase (trim line)) "begin" = true ->
  recording st = false ->
  processSerialCommands inp st =
    mkStep
      (set_recordingStartTime (u32 (cmd_millis inp))
         (set_lastSampleTime (u32 (cmd_millis inp))
            (set_recording true (set_sampleCount 0 st))))
      [Serial_printf "Started recording at %d Hz..." [AInt (sampleRate st)];
       Serial_println "Type 'stop' to end recording."]
      true.
Proof.
  intros Hline H Hrec.
  unfold processSerialCommands; rewrite Hline; cbv zeta. rewrite H.
  unfold startRecording, ret. rewrite Hrec. reflexivity.
Qed.

(** C5. A [start] (or [begin]) command received while idle sets
    [sampleCount] to 0 whatever it was, sets the recording flag and stores
    the clock value it read as [recordingStartTime]; the buffer is not
    touched by the command.  From there the first sample that is stored, in
    the same pass or any later one, goes to index 0: a sampling pass on the
    started state either stores nothing or stores its reading in cell 0 and
    counts 1. *)
Theorem start_resets_count (inp : LoopInput) (st : State) (line : string) :
  serial_line inp = Some line ->
  startsWith (toLowerCase (trim line)) "start"
  || startsWith (toLowerCase (trim line)) "begin" = true ->
  recording st = false ->
  let st1 := next_state (processSerialCommands inp st) in
  sampleCount st1 = 0 /\
  recording st1 = true /\
  recordingStartTime st1 = u32 (cmd_millis inp) /\
  voltageBuffer st1 = voltageBuffer st /\
  (forall inps,
     first_store (inp :: inps) st = None \/ first_store (inp :: inps) st = Some 0) /\
  (forall inp',
     let post := fst (loop_sample inp' st1) in
     (sampleCount post = 0 /\ voltageBuffer post = voltageBuffer st1) \/
     (sampleCount post = 1 /\
      voltageBuffer post =
        <[0%nat := readVoltageHighPrecision (tick_adc inp') st1]> (voltageBuffer st1))).
Proof.
  intros Hline H Hrec st1; subst st1.
  rewrite (start_command_idle inp st line Hline H Hrec). state_simpl.
  split; [reflexivity|]. split; [reflexivity|]. split; [reflexivity|].
  split; [reflexivity|]. split.
  - intros inps. cbn [first_store]. cbv zeta.
    rewrite (start_command_idle inp st line Hline H Hrec). state_simpl.
    match goal with |- context [loop_sample inp ?s] => set (st1 := s) end.
    assert (Hz : sampleCount st1 = 0) by reflexivity.
    destruct (sampleCount (fst (loop_sample inp st1)) =? 0) eqn:E.
    + apply first_store_from_zero. apply Z.eqb_eq in E. exact E.
    + right. reflexivity.
  - intros inp'. cbv zeta.
    match goal with |- context [loop_sample inp' ?s] => set (st1 := s) end.
    assert (Hz : sampleCount st1 = 0) by reflexivity.
    destruct (loop_sample_effect inp' st1) as [(Ec & Eb & _) | (_ & _ & _ & Ec & Eb & _)].
    + left. rewrite Ec, Eb. split; [exact Hz | reflexivity].
    + right. rewrite Ec, Eb, Hz. split; reflexivity.
Qed.

(* ===================================================================== *)
(** ** The sampling period *)

Lemma sample_period_ms_floor (st : State) :
  1 <= sampleRate st <= 10000 ->
  sample_period_ms st = 1000 / sampleRate st.
Proof.
  intros H. unfold sample_period_ms.
  rewrite Z.quot_div_nonneg by lia.
  apply u32_small.
  split; [apply Z.div_pos; lia|].
  apply Z.le_lt_trans with 1000; [|lia].
  apply Z.div_le_upper_bound; nia.
Qed.

(** C7. The threshold the sampling pass compares the elapsed milliseconds
    with is the truncated quotient [1000 / sampleRate]: for a rate within
    1..10000 it is the floor of the exact quotient (so [period * rate <=
    1000 < (period + 1) * rate]), and it is 0 for every rate above 1000.  A
    pass that finds the firmware recording with room in the buffer stores a
    sample exactly when the elapsed time has reached that threshold; with a
    rate above 1000 it therefore stores one on every pass, whatever the
    clock says. *)
Theorem sample_period_truncates (inp : LoopInput) (st : State) :
  1 <= sampleRate st <= 10000 ->
  sample_period_ms st = 1000 / sampleRate st /\
  sample_period_ms st * sampleRate st <= 1000 < (sample_period_ms st + 1) * sampleRate st /\
  (1000 < sampleRate st -> sample_period_ms st = 0) /\
  (recording st = true -> 0 <= sampleCount st < MAX_SAMPLES ->
   let elapsed := u32 (u32 (tick_millis inp) - lastSampleTime st) in
   let post := fst (loop_sample inp st) in
   (sample_period_ms st <= elapsed ->
    sampleCount post = sampleCount st + 1 /\
    voltageBuffer post =
      <[Z.to_nat (sampleCount st) := readVoltageHighPrecision (tick_adc inp) st]>
        (voltageBuffer st)) /\
   (elapsed < sample_period_ms st ->
    sampleCount post = sampleCount st /\ voltageBuffer post = voltageBuffer st) /\
   (1000 < sampleRate st -> sampleCount post = sampleCount st + 1)).
Proof.
  intros Hrate.
  pose proof (sample_period_ms_floor st Hrate) as Ep.
  assert (Hzero : 1000 < sampleRate st -> sample_period_ms st = 0).
  { intros Hbig. rewrite Ep. apply Z.div_small. lia. }
  split; [exact Ep|]. split.
  { rewrite Ep.
    pose proof (Z.mul_div_le 1000 (sampleRate st)).
    pose proof (Z.mul_succ_div_gt 1000 (sampleRate st)).
    lia. }
  split; [exact Hzero|].
  intros Hrec Hroom elapsed post.
  assert (Hs : s32 (sampleCount st + 1) = sampleCount st + 1).
  { apply s32_small. unfold INT_MIN, INT_MAX, MAX_SAMPLES in *. lia. }
  assert (Hdue : sample_period_ms st <= elapsed ->
                 sampleCount post = sampleCount st + 1 /\
                 voltageBuffer post =
                   <[Z.to_nat (sampleCount st) := readVoltageHighPrecision (tick_adc inp) st]>
                     (voltageBuffer st)).
  { intros Hle. subst post elapsed.
    destruct (loop_sample_effect inp st) as [E | (_ & _ & _ & Ec & Eb & _)].
    - exfalso. revert E. unfold loop_sample.
      rewrite Hrec. cbn [andb].
      destruct (sampleCount st <? MAX_SAMPLES) eqn:Hlt; [|apply Z.ltb_ge in Hlt; lia].
      cbv zeta.
      assert (El : forall b : bool,
                 lastSampleTime (if b then set_recordingStartTime (u32 (tick_millis inp)) st else st)
                 = lastSampleTime st) by (intros []; reflexivity).
      assert (Eq : forall b : bool,
                 sample_period_ms (if b then set_recordingStartTime (u32 (tick_millis inp)) st else st)
                 = sample_period_ms st) by (intros []; reflexivity).
      assert (Ecnt : forall b : bool,
                 sampleCount (if b then set_recordingStartTime (u32 (tick_millis inp)) st else st)
                 = sampleCount st) by (intros []; reflexivity).
      rewrite El, Eq.
      destruct (_ >=? _) eqn:Hge; [|rewrite Z.geb_leb in Hge; apply Z.leb_gt in Hge; lia].
      state_simpl. rewrite Ecnt, Hs.
      destruct (sampleCount st + 1 >=? MAX_SAMPLES);
        unfold stopRecording; state_simpl; try rewrite Hs;
        split_ifs; state_simpl; lia.
    - rewrite Ec, Eb, Hs. split; reflexivity. }
  split; [exact Hdue|]. split.
  - intros Hlt. subst post elapsed.
    destruct (loop_sample_effect inp st) as [(Ec & Eb & _) | (_ & _ & Hge & _)].
    + split; assumption.
    + lia.
  - intros Hbig. apply Hdue. rewrite (Hzero Hbig). subst elapsed.
    apply u32_range.
Qed.

(* ===================================================================== *)
(** ** The [rate] command *)

Lemma no_number_toInt (s : string) : no_number s = true -> toInt s = 0.
Proof.
  unfold no_number, toInt.
  destruct (ltrim s) as [|c r]; [reflexivity|].
  destruct (Ascii.eqb c "-") eqn:Em; [apply Ascii.eqb_eq in Em; subst c|].
  { cbn [orb]. destruct r as [|d r]; [reflexivity|].
    intros Hd. apply negb_true_iff in Hd. cbn [atol_digits]. rewrite Hd. reflexivity. }
  destruct (Ascii.eqb c "+") eqn:Ep; [apply Ascii.eqb_eq in Ep; subst c|].
  { cbn [orb]. destruct r as [|d r]; [reflexivity|].
    intros Hd. apply negb_true_iff in Hd. cbn [atol_digits]. rewrite Hd. reflexivity. }
  cbn [orb]. intros Hd. apply negb_true_iff in Hd.
  assert (E : atol_digits 0 (String c r) = 0) by (cbn [atol_digits]; rewrite Hd; reflexivity).
  destruct c as [[] [] [] [] [] [] [] []]; try discriminate; rewrite E; reflexivity.
Qed.

(** Typing [rate N] for any [N] of 1..10000 is read back as [N]: checked on
    each of the 10000 numerals. *)
Lemma rate_line_parses (n : Z) :
  1 <= n <= 10000 ->
  startsWith (toLowerCase (trim (rate_line n))) "rate" = true /\
  toInt (substring 5 (toLowerCase (trim (rate_line n)))) = n.
Proof.
  intros Hn.
  assert (Hall : forallb
                   (fun k : nat =>
                      let n := Z.of_nat k in
                      startsWith (toLowerCase (trim (rate_line n))) "rate"
                      && (toInt (substring 5 (toLowerCase (trim (rate_line n)))) =? n))
                   (seq 1 (Z.to_nat 10000)) = true) by (vm_compute; reflexivity).
  rewrite forallb_forall in Hall.
  specialize (Hall (Z.to_nat n)).
  rewrite Z2Nat.id in Hall by lia.
  assert (Hin : In (Z.to_nat n) (seq 1 (Z.to_nat 10000))) by (apply in_seq; lia).
  apply Hall in Hin. apply andb_true_iff in Hin as [H1 H2].
  split; [exact H1 | apply Z.eqb_eq, H2].
Qed.

Lemma rate_command_step (inp : LoopInput) (st : State) (line : string) :
  serial_line inp = Some line ->
  startsWith (toLowerCase (trim line)) "rate" = true ->
  let n := toInt (substring 5 (toLowerCase (trim line))) in
  processSerialCommands inp st =
    if (n >? 0) && (n <=? 10000) then
      mkStep (set_sampleRate n st)
        (Serial_printf "Sample rate set to %d Hz" [AInt n] ::
         (if n >? 200 then [Serial_println rate_warning] else []))
        true
    else mkStep st [Serial_println "Invalid sample rate (1-10000 Hz)"] true.
Proof.
  intros Hline H n; subst n.
  unfold processSerialCommands; rewrite Hline; cbv zeta.
  destruct (startsWith_inv _ _ H) as [rest E]; rewrite E; clear E.
  rewrite ?startsWith_app. prefix_tests. reflexivity.
Qed.

(** C3 (amended). For a [rate] command, let [N] be what [String::toInt]
    reads from the argument: blanks and an optional sign are skipped, the
    digits that follow are read, whatever comes after them is ignored, and
    an argument with no digit there reads as 0.  When [1 <= N <= 10000] the
    rate becomes [N] and nothing else changes, the confirmation line is
    printed, followed by the warning exactly when [N > 200], and [status]
    then reports [N]; otherwise (in particular for an argument that holds no
    number) every global keeps its value and the one line printed is the
    rejection.  Every [N] of 1..10000 typed as [rate N] is read as [N]. *)
Theorem rate_command (inp : LoopInput) (st : State) (line : string) :
  serial_line inp = Some line ->
  startsWith (toLowerCase (trim line)) "rate" = true ->
  let arg := substring 5 (toLowerCase (trim line)) in
  let N := toInt arg in
  let r := processSerialCommands inp st in
  returned r = true /\
  (1 <= N <= 10000 ->
   next_state r = set_sampleRate N st /\
   sampleRate (next_state r) = N /\
   output r =
     Serial_printf "Sample rate set to %d Hz" [AInt N] ::
     (if 200 <? N then [Serial_println rate_warning] else []) /\
   (forall raw, In (Serial_printf "Sample rate: %d Hz" [AInt N])
                  (printStatus raw (next_state r)))) /\
  (~ 1 <= N <= 10000 ->
   next_state r = st /\
   output r = [Serial_println "Invalid sample rate (1-10000 Hz)"]) /\
  (no_number arg = true ->
   next_state r = st /\
   output r = [Serial_println "Invalid sample rate (1-10000 Hz)"]) /\
  (forall n inp', 1 <= n <= 10000 -> serial_line inp' = Some (rate_line n) ->
   sampleRate (next_state (processSerialCommands inp' st)) = n).
Proof.
  intros Hline H arg N r.
  assert (Hstep := rate_command_step inp st line Hline H).
  cbv zeta in Hstep. fold arg N r in Hstep.
  assert (Hbad : ~ 1 <= N <= 10000 ->
                 next_state r = st /\
                 output r = [Serial_println "Invalid sample rate (1-10000 Hz)"]).
  { intros Hout. rewrite Hstep.
    destruct ((N >? 0) && (N <=? 10000)) eqn:E; [bool_hyps; lia|].
    split; reflexivity. }
  split; [rewrite Hstep; destruct ((N >? 0) && (N <=? 10000)); reflexivity|].
  split; [|split; [exact Hbad|split]].
  - intros Hin. rewrite Hstep.
    assert (E : (N >? 0) && (N <=? 10000) = true).
    { apply andb_true_iff; split; [apply Z.gtb_lt | apply Z.leb_le]; lia. }
    rewrite E. state_simpl.
    split; [reflexivity|]. split; [reflexivity|]. split.
    + rewrite Z.gtb_ltb. reflexivity.
    + intros raw. unfold printStatus. state_simpl.
      apply in_or_app; left. cbn. tauto.
  - intros Hno. apply Hbad. subst N.
    rewrite (no_number_toInt arg Hno). lia.
  - intros n inp' Hn Hline'.
    destruct (rate_line_parses n Hn) as [Hp Hv].
    rewrite (rate_command_step inp' st (rate_line n) Hline' Hp). cbv zeta.
    rewrite Hv.
    assert (E : (n >? 0) && (n <=? 10000) = true).
    { apply andb_true_iff; split; [apply Z.gtb_lt | apply Z.leb_le]; lia. }
    rewrite E. reflexivity.
Qed.

(* ===================================================================== *)
(** ** [show] *)

Lemma printData_loop_rows (key : nat -> bool) (st : State) (n : nat) (i : Z) (p : nat) :
  exists m : nat,
    (m <= n)%nat /\
    (snd (printData_loop key st n i p) = true -> m = n) /\
    List.filter is_data_row (fst (printData_loop key st n i p)) =
      map (fun k : nat => data_row st (i + Z.of_nat k)) (seq 0 m).
Proof.
  revert i p; induction n as [|n IH]; intros i p; cbn [printData_loop].
  - exists O. split; [lia|]. split; reflexivity.
  - destruct ((Z.rem (i + 1) 20 =? 0) && (i <? sampleCount st - 1)).
    + destruct (key p).
      * destruct (IH (i + 1) (S p)) as (m & Hm & Hall & Hrows).
        exists (S m). cbn [fst snd]. split; [lia|]. split; [intros H; rewrite Hall; auto|].
        cbn [List.filter is_data_row data_row]. cbn -[data_row seq map].
        rewrite Hrows. cbn [seq map]. rewrite Z.add_0_r. f_equal.
        rewrite <- seq_shift, map_map. apply map_ext. intros k. f_equal. lia.
      * exists 1%nat. cbn [fst snd]. split; [lia|]. split; [discriminate|].
        cbn. rewrite Z.add_0_r. reflexivity.
    + destruct (IH (i + 1) p) as (m & Hm & Hall & Hrows).
      exists (S m). cbn [fst snd]. split; [lia|]. split; [intros H; rewrite Hall; auto|].
      cbn -[data_row seq map].
      rewrite Hrows. cbn [seq map]. rewrite Z.add_0_r. f_equal.
      rewrite <- seq_shift, map_map. apply map_ext. intros k. f_equal. lia.
Qed.

Lemma printData_loop_keys (key : nat -> bool) (st : State) (n : nat) (i : Z) (p : nat) :
  (forall k, key k = true) -> snd (printData_loop key st n i p) = true.
Proof.
  intros Hkey. revert i p; induction n as [|n IH]; intros i p; cbn [printData_loop].
  - reflexivity.
  - destruct (_ && _); [rewrite Hkey|]; cbn [snd]; apply IH.
Qed.

Lemma printData_loop_short (key : nat -> bool) (st : State) (n : nat) (i : Z) (p : nat) :
  0 <= i -> i + Z.of_nat n = sampleCount st -> sampleCount st <= 20 ->
  snd (printData_loop key st n i p) = true.
Proof.
  revert i p; induction n as [|n IH]; intros i p Hi Hsum Hshort; cbn [printData_loop].
  - reflexivity.
  - assert (E : (Z.rem (i + 1) 20 =? 0) && (i <? sampleCount st - 1) = false).
    { apply andb_false_iff.
      destruct (Z.eq_dec (i + 1) 20) as [E20|N20].
      - right. apply Z.ltb_ge. lia.
      - left. apply Z.eqb_neq. rewrite Z.rem_small by lia. lia. }
    rewrite E. cbn [snd]. apply IH; lia.
Qed.

Lemma show_command_step (inp : LoopInput) (st : State) (line : string) :
  serial_line inp = Some line ->
  startsWith (toLowerCase (trim line)) "show"
  || startsWith (toLowerCase (trim line)) "print" = true ->
  processSerialCommands inp st = printData (show_key inp) st.
Proof.
  intros Hline H.
  apply orb_true_iff in H as [H|H]; dispatch Hline H; reflexivity.
Qed.

Lemma timeMs_at_50 (k : nat) :
  (k < 10)%nat ->
  to_float (F64.div (F64.mul (to_double (F32.of_Z (Z.of_nat k))) d_1000) (F64.of_Z 50))
  = F32.of_Z (20 * Z.of_nat k).
Proof.
  intros Hk.
  do 10 (destruct k as [|k]; [vm_compute; reflexivity|]).
  lia.
Qed.

(** C9. With [sampleCount > 0] the [show] (or [print]) command leaves the
    globals alone and prints data rows for an initial run of the indices
    [0, 1, ...], never past [sampleCount - 1]; it prints all of
    [0 .. sampleCount - 1], in order and once each, and returns, when a key
    arrives at every pause (the command waits for one after every 20th row)
    or when there are at most 20 samples.  Row [i] is
    [i, voltageBuffer[i], timeMs] with [timeMs] the float
    [(float)i * 1000.0 / sampleRate]; with 10 samples at 50 Hz the rows 0..9
    carry the times 0, 20, 40, ..., 180. *)
Theorem show_prints_rows (inp : LoopInput) (st : State) (line : string) :
  serial_line inp = Some line ->
  startsWith (toLowerCase (trim line)) "show"
  || startsWith (toLowerCase (trim line)) "print" = true ->
  0 < sampleCount st ->
  let r := processSerialCommands inp st in
  let rows := List.filter is_data_row (output r) in
  let row (k : nat) :=
    Serial_printf "%d,%.4f,%.1f"
      [AInt (Z.of_nat k);
       ADouble (to_double (buffer_at st (Z.of_nat k)));
       ADouble (to_double
                  (to_float (F64.div (F64.mul (to_double (F32.of_Z (Z.of_nat k))) d_1000)
                                     (F64.of_Z (sampleRate st)))))] in
  next_state r = st /\
  (exists m : nat, (m <= Z.to_nat (sampleCount st))%nat /\ rows = map row (seq 0 m)) /\
  ((forall k, show_key inp k = true) \/ sampleCount st <= 20 ->
   returned r = true /\ rows = map row (seq 0 (Z.to_nat (sampleCount st)))) /\
  (sampleCount st = 10 -> sampleRate st = 50 ->
   rows =
     map (fun k : Z =>
            Serial_printf "%d,%.4f,%.1f"
              [AInt k; ADouble (to_double (buffer_at st k));
               ADouble (to_double (F32.of_Z (20 * k)))])
         [0; 1; 2; 3; 4; 5; 6; 7; 8; 9]).
Proof.
  intros Hline H Hpos r rows row.
  assert (Hstep := show_command_step inp st line Hline H). fold r in Hstep.
  assert (Hnz : (sampleCount st =? 0) = false) by (apply Z.eqb_neq; lia).
  destruct (printData_loop_rows (show_key inp) st (Z.to_nat (sampleCount st)) 0 O)
    as (m & Hm & Hall & Hrows).
  assert (Erows : rows = map row (seq 0 m)).
  { subst rows. rewrite Hstep. unfold printData. rewrite Hnz. cbv zeta.
    destruct (snd (printData_loop _ _ _ _ _)); cbn [output];
      rewrite !List.filter_app, Hrows; cbn [List.filter is_data_row String.eqb];
      cbn -[data_row seq map]; rewrite ?app_nil_r; reflexivity. }
  assert (Hret : snd (printData_loop (show_key inp) st (Z.to_nat (sampleCount st)) 0 O) = true ->
                 returned r = true /\ rows = map row (seq 0 (Z.to_nat (sampleCount st)))).
  { intros Hdone. split.
    - rewrite Hstep. unfold printData. rewrite Hnz, Hdone. reflexivity.
    - rewrite Erows, (Hall Hdone). reflexivity. }
  split.
  { rewrite Hstep. unfold printData. rewrite Hnz. cbv zeta.
    destruct (snd _); reflexivity. }
  split; [exists m; split; assumption|]. split.
  - intros [Hkeys | Hshort]; apply Hret.
    + apply printData_loop_keys, Hkeys.
    + apply printData_loop_short; lia.
  - intros Hten Hrate.
    assert (Hshort : sampleCount st <= 20) by lia.
    assert (Hsum : 0 + Z.of_nat (Z.to_nat (sampleCount st)) = sampleCount st) by lia.
    destruct (Hret (printData_loop_short (show_key inp) st _ 0 O (Z.le_refl 0) Hsum Hshort))
      as [_ E].
    rewrite E, Hten. subst row. cbv beta. rewrite Hrate.
    change [0; 1; 2; 3; 4; 5; 6; 7; 8; 9] with (map Z.of_nat (seq 0 (Z.to_nat 10))).
    rewrite map_map. apply map_ext_in. intros k Hk. apply in_seq in Hk.
    rewrite timeMs_at_50 by lia. reflexivity.
Qed.

(* ===================================================================== *)
(** ** [replay] *)

(** The loop writes to the DAC and prints progress lines with [printf]; it
    prints no plain line. *)
Lemma replay_loop_no_println (abort : nat -> bool) (st : State) (n : nat) (i : Z)
  (last : float) (s : string) :
  ~ In (Serial_println s) (replay_loop abort st n i last).
Proof.
  revert i last; induction n as [|n IH]; intros i last; cbn [replay_loop].
  - intros [].
  - destruct (abort (Z.to_nat i)); [intros []|]. cbv zeta.
    intros [E | Hin]; [discriminate|].
    apply in_app_or in Hin as [Hin | Hin].
    + destruct (_ || _); [destruct Hin as [E|[]]; discriminate | destruct Hin].
    + exact (IH _ _ Hin).
Qed.

(** The DAC codes the loop writes are those of the samples [i, i+1, ...],
    in order, up to the pass at which it is interrupted. *)
Lemma replay_loop_dac (abort : nat -> bool) (st : State) (n : nat) (i : Z) (last : float) :
  exists m : nat,
    (m <= n)%nat /\
    ((forall k, abort k = false) -> m = n) /\
    List.filter is_dac_write (replay_loop abort st n i last) =
      map (fun k : nat => dac_output_voltage (dacValue (buffer_at st (i + Z.of_nat k))))
          (seq 0 m).
Proof.
  revert i last; induction n as [|n IH]; intros i last; cbn [replay_loop].
  - exists O. split; [lia|]. split; reflexivity.
  - destruct (abort (Z.to_nat i)) eqn:Ea.
    + exists O. split; [lia|]. split; [|reflexivity].
      intros Hno. rewrite Hno in Ea. discriminate.
    + cbv zeta.
      match goal with
      | |- context [replay_loop abort st n (i + 1) ?l] =>
          destruct (IH (i + 1) l) as (m & Hm & Hall & Hcodes)
      end.
      exists (S m). split; [lia|]. split; [intros Hno; rewrite (Hall Hno); reflexivity|].
      cbn [List.filter is_dac_write]. rewrite List.filter_app, Hcodes.
      assert (Hp : forall (b : bool) (e : Event),
                 is_dac_write e = false ->
                 List.filter is_dac_write (if b then [e] else []) = []).
      { intros [] e He; cbn; [rewrite He|]; reflexivity. }
      rewrite Hp by reflexivity. cbn [app seq map]. rewrite Z.add_0_r. f_equal.
      rewrite <- seq_shift, map_map. apply map_ext. intros k. do 3 f_equal. lia.
Qed.

(** C6. A replay of a non-empty buffer, run to the end or interrupted,
    reports as expected duration the recorded span
    [(recordingEndTime - recordingStartTime) / 1000.0] seconds when
    [recordingEndTime > recordingStartTime], and otherwise the [float]
    quotient [(float)sampleCount / sampleRate] seconds (which the
    conditional operator passes through [double] unchanged), next to the
    measured duration [(replayEnd - replayStart) / 1000.0]; both are stored
    as [float].  The error line is printed exactly when
    [fabs(replaySec - expectedSec) > 0.2 * expectedSec] holds in the
    program's arithmetic (the difference in [float], the product and the
    comparison in [double]). *)
Theorem replay_reports_expected_duration (inp : LoopInput) (st : State) :
  sampleCount st <> 0 ->
  let out := replayVoltages inp st in
  let actual := replaySec inp in
  let expected := expectedSec st in
  In (Serial_printf "Expected duration: %.3f s, Replay duration: %.3f s"
        [ADouble (to_double expected); ADouble (to_double actual)]) out /\
  actual =
    to_float (F64.div (F64.of_Z (u32 (u32 (replay_end_millis inp) - u32 (replay_start_millis inp))))
                      (F64.of_Z 1000)) /\
  (recordingEndTime st > recordingStartTime st ->
   expected =
     to_float (F64.div (F64.of_Z (u32 (recordingEndTime st - recordingStartTime st)))
                       (F64.of_Z 1000))) /\
  (recordingEndTime st <= recordingStartTime st ->
   expected = F32.div (F32.of_Z (sampleCount st)) (F32.of_Z (sampleRate st))) /\
  (In (Serial_println timing_error) out <->
   F64.ltb (F64.mul (F64.lit 2 10) (to_double expected))
           (F64.abs (to_double (F32.sub actual expected))) = true).
Proof.
  intros Hnz out actual expected.
  assert (Hc : (sampleCount st =? 0) = false) by (apply Z.eqb_neq; exact Hnz).
  split.
  { subst out. unfold replayVoltages. rewrite Hc.
    apply in_or_app; right. apply in_or_app; right.
    apply in_or_app; left. cbn. tauto. }
  split; [reflexivity|]. split.
  { intros Hgt. subst expected. unfold expectedSec.
    destruct (recordingEndTime st >? recordingStartTime st) eqn:E; [reflexivity|].
    rewrite Z.gtb_ltb in E. apply Z.ltb_ge in E. lia. }
  split.
  { intros Hle. subst expected. unfold expectedSec.
    destruct (recordingEndTime st >? recordingStartTime st) eqn:E.
    - apply Z.gtb_lt in E. lia.
    - apply to_float_to_double.
      destruct F32_format as [Hp He]. apply SFdiv_valid; assumption. }
  change (F64.ltb (F64.mul (F64.lit 2 10) (to_double expected))
            (F64.abs (to_double (F32.sub actual expected))))
    with (timing_off actual expected).
  subst out. unfold replayVoltages. rewrite Hc.
  fold actual expected.
  split.
  - intros Hin.
    apply in_app_or in Hin as [Hin | Hin].
    { cbn in Hin. destruct Hin as [E|[E|[E|[]]]]; discriminate. }
    apply in_app_or in Hin as [Hin | Hin].
    { exfalso. exact (replay_loop_no_println _ _ _ _ _ _ Hin). }
    apply in_app_or in Hin as [Hin | Hin].
    { cbn in Hin. destruct Hin as [E|[E|[E|[]]]]; discriminate. }
    apply in_app_or in Hin as [Hin | Hin].
    { destruct (sampleRate st >? 200); [destruct Hin as [E|[]]; discriminate | destruct Hin]. }
    destruct (timing_off actual expected); [reflexivity | destruct Hin].
  - intros Hoff. rewrite Hoff.
    do 4 (apply in_or_app; right). left. reflexivity.
Qed.

(** C2 (the code at the failing input). A full-scale sample does not reach
    the full-scale code: [3.3] stored in a [float] is below the [double]
    3.3 it is divided by, so the quotient stays below 255 and is truncated
    to 254.  This holds for a stored 4.0 V, for every stored value above
    3.3 V (all are clamped to the same [float]), for the clamp value
    itself, and for what a replay writes.  Every code is within 0..255. *)
Lemma replay_full_scale_is_254 :
  dacValue (F32.of_Z 4) = 254 /\
  (forall v : float, F64.ltb d_3_3 (to_double v) = true -> dacValue v = 254) /\
  dacValue (to_float d_3_3) = 254 /\
  F64.ltb (to_double (to_float d_3_3)) d_3_3 = true /\
  (forall v : float, 0 <= dacValue v <= 255) /\
  forall inp st,
    sampleCount st = 1 -> buffer_at st 0 = F32.of_Z 4 -> replay_abort inp O = false ->
    List.filter is_dac_write (replayVoltages inp st) =
      [dac_output_voltage 254; dac_output_voltage 0].
Proof.
  split; [vm_compute; reflexivity|].
  split.
  { intros v Hv. unfold dacValue, replay_clamp. rewrite Hv. vm_compute. reflexivity. }
  split; [vm_compute; reflexivity|].
  split; [vm_compute; reflexivity|].
  split.
  { intros v. unfold dacValue, uint8_of_double, u8.
    destruct (F64.trunc _) as [z|]; [|lia].
    pose proof (Z.mod_pos_bound z (2 ^ 8) ltac:(lia)). lia. }
  intros inp st Hc Hb Ha.
  unfold replayVoltages. rewrite Hc.
  change (1 =? 0) with false. change (Z.to_nat 1) with 1%nat. cbv iota.
  cbn [replay_loop]. change (Z.to_nat 0) with O. rewrite Ha. cbv zeta. rewrite Hb.
  change (dacValue (F32.of_Z 4)) with 254.
  rewrite !List.filter_app.
  destruct (_ || _), (sampleRate st >? 200), (timing_off _ _); reflexivity.
Qed.

(* ===================================================================== *)
(** ** Readings are never negative *)

Lemma d_1000_value : d_1000 = S754_finite false 8796093022208000 (-43).
Proof. vm_compute. reflexivity. Qed.

(** The calibrated reading before the offset is a zero or a positive finite
    [float], below [2 ^ 26] volts: the millivolt value fits 32 bits. *)
Lemma adc_volts_finite (raw : nat -> Z) (st : State) :
  has_sign false (adc_volts raw st) /\ mag_le 26 (adc_volts raw st).
Proof.
  unfold adc_volts. cbv zeta.
  set (mv := u32 _).
  assert (Hmv : 0 <= mv < 2 ^ 32) by apply u32_range.
  destruct F64_format as [Hp64 He64]. destruct F32_format as [Hp32 He32].
  destruct (binary_normalize_spec F64.prec F64.emax Hp64 He64 mv 32 (proj1 Hmv)) as [Hs Hm].
  specialize (Hm (proj2 Hmv)).
  change (binary_normalize F64.prec F64.emax mv 0 false) with (F64.of_Z mv) in Hs, Hm.
  unfold F64.emax, F64.prec, SpecFloat.emin in Hm.
  specialize (Hm ltac:(lia) ltac:(lia)).
  rewrite d_1000_value.
  destruct (F64.of_Z mv) as [s|s| |s m e]; cbn in Hs; try subst s;
    try (destruct Hm; fail); try (destruct Hs; fail).
  - cbn. split; [reflexivity | exact I].
  - cbn [mag_le] in Hm.
    destruct (SFdiv_finite_spec F64.prec F64.emax Hp64 He64
                false false m 8796093022208000 e (-43)) as [Hqs Hqm].
    cbv zeta in Hqm.
    change (SFdiv F64.prec F64.emax) with F64.div in Hqs, Hqm.
    change (Z.pos (digits2_pos 8796093022208000)) with 53 in Hqm.
    unfold F64.emax, F64.prec, SpecFloat.emin in Hqm.
    specialize (Hqm ltac:(lia)).
    destruct (F64.div _ _) as [s|s| |s m' e']; cbn in Hqs; try subst s;
      try (destruct Hqm; fail); try (destruct Hqs; fail).
    + cbn. split; [reflexivity | exact I].
    + cbn [mag_le] in Hqm. unfold to_float, F32.round.
      destruct (binary_round_spec F32.prec F32.emax Hp32 He32 false m' e') as [Hrs Hrm].
      split; [exact Hrs|].
      unfold F32.emax, F32.prec, SpecFloat.emin in Hrm.
      eapply mag_le_mono; [|apply Hrm]; lia.
Qed.

Lemma adc_volts_not_nan (raw : nat -> Z) (st : State) :
  is_nan (adc_volts raw st) = false.
Proof.
  destruct (adc_volts_finite raw st) as [Hs _].
  destruct (adc_volts raw st); [reflexivity.. | destruct Hs | reflexivity].
Qed.

Lemma not_below_zero_nonneg (v : spec_float) :
  is_nan v = false -> SFltb v (S754_zero false) = false -> nonneg v = true.
Proof.
  destruct v as [s|[]| |[] m e]; cbn; intros; try reflexivity; discriminate.
Qed.

(** [readVoltageHighPrecision] never returns a negative value or NaN when
    the calibration offset is a number. *)
Lemma readVoltage_nonneg (raw : nat -> Z) (st : State) :
  is_nan (adcOffset st) = false ->
  nonneg (readVoltageHighPrecision raw st) = true.
Proof.
  intros Hoff. unfold readVoltageHighPrecision. cbv zeta.
  destruct F32_format as [Hp32 He32].
  assert (Hv : is_nan (F32.sub (adc_volts raw st) (adcOffset st)) = false).
  { apply SFsub_not_nan; try assumption.
    - apply adc_volts_not_nan.
    - left. exists 26. apply adc_volts_finite. }
  destruct (F32.ltb _ _) eqn:E; [reflexivity|].
  apply not_below_zero_nonneg; assumption.
Qed.

Lemma loop_sample_keeps_offset (inp : LoopInput) (st : State) :
  adcOffset (fst (loop_sample inp st)) = adcOffset st.
Proof.
  unfold loop_sample, stopRecording. split_ifs; reflexivity.
Qed.

Lemma reachable_readings_ok (st : State) :
  reachable st ->
  is_nan (adcOffset st) = false /\
  Forall (fun x => nonneg x = true) (voltageBuffer st).
Proof.
  induction 1 as [raw | st inp _ [IHo IHb]].
  - unfold setup, calibrateADCOffset; state_simpl. split.
    + apply adc_volts_not_nan.
    + unfold initial_state; state_simpl. apply Forall_replicate. reflexivity.
  - assert (Hcmd : is_nan (adcOffset (next_state (processSerialCommands inp st))) = false /\
                   Forall (fun x => nonneg x = true)
                     (voltageBuffer (next_state (processSerialCommands inp st)))).
    { destruct (command_effect inp st) as (Eb & _ & _ & _ & Eo).
      rewrite Eb. split; [|exact IHb].
      destruct Eo as [-> | ->]; [exact IHo | apply adc_volts_not_nan]. }
    unfold loop. destruct (returned (processSerialCommands inp st)); [|exact Hcmd].
    state_simpl. destruct Hcmd as [Ho Hb].
    set (pre := next_state (processSerialCommands inp st)) in *.
    rewrite loop_sample_keeps_offset. split; [exact Ho|].
    destruct (loop_sample_effect inp pre) as [(_ & Eb & _) | (_ & _ & _ & _ & Eb & _)];
      rewrite Eb; [exact Hb|].
    apply Forall_insert; [exact Hb|]. apply readVoltage_nonneg, Ho.
Qed.

Lemma buffer_at_nonneg (st : State) (i : Z) :
  Forall (fun x => nonneg x = true) (voltageBuffer st) ->
  nonneg (buffer_at st i) = true.
Proof.
  intros Hb. unfold buffer_at.
  destruct (Nat.lt_ge_cases (Z.to_nat i) (length (voltageBuffer st))) as [Hlt|Hge].
  - rewrite List.Forall_forall in Hb. apply Hb. apply nth_In. exact Hlt.
  - rewrite nth_overflow by exact Hge. reflexivity.
Qed.

Lemma status_loop_nonneg (st : State) (n : nat) (i : Z) (a b c : float) :
  Forall (fun x => nonneg x = true) (voltageBuffer st) ->
  nonneg a = true -> nonneg b = true -> nonneg c = true ->
  let '(minV, maxV, avgV) := status_loop st n i (a, b, c) in
  nonneg minV = true /\ nonneg maxV = true /\ nonneg avgV = true.
Proof.
  intros Hb. revert i a b c; induction n as [|n IH]; intros i a b c Ha Hb' Hc;
    cbn [status_loop].
  - tauto.
  - cbv zeta. pose proof (buffer_at_nonneg st i Hb) as Hx.
    destruct F32_format as [Hp32 He32].
    apply IH.
    + destruct (F32.ltb _ _); assumption.
    + destruct (F32.ltb _ _); assumption.
    + apply SFadd_nonneg; assumption.
Qed.

(** A sample count within the buffer converts to a positive finite [float]:
    checked on each of the 5000 counts. *)
Lemma count_to_float (c : Z) :
  1 <= c <= MAX_SAMPLES ->
  exists m e, F32.of_Z c = S754_finite false m e.
Proof.
  intros Hc.
  assert (Hall : forallb
                   (fun k : nat =>
                      match F32.of_Z (Z.of_nat k) with
                      | S754_finite false _ _ => true
                      | _ => false
                      end)
                   (seq 1 (Z.to_nat MAX_SAMPLES)) = true) by (vm_compute; reflexivity).
  rewrite forallb_forall in Hall.
  specialize (Hall (Z.to_nat c)).
  rewrite Z2Nat.id in Hall by lia.
  assert (Hin : In (Z.to_nat c) (seq 1 (Z.to_nat MAX_SAMPLES))).
  { apply in_seq. unfold MAX_SAMPLES in *. lia. }
  apply Hall in Hin.
  destruct (F32.of_Z c) as [| | |[] m e]; try discriminate. eauto.
Qed.

(** C8. [readVoltageHighPrecision] returns a value [>= 0], whatever the raw
    ADC codes, the oversample count (of 1..1024, as the [samples] command
    admits) and the calibration offset, provided the offset is a number
    (not NaN); in every reachable state the oversample count is in that
    range and the offset is a number, since it is 0 or a calibrated
    reading.  Consequently in every
    reachable state a reading is [>= 0], every cell of the buffer (hence
    every sample of the valid prefix) is [>= 0], and with [sampleCount > 0]
    the minimum, maximum and average that [status] reports are [>= 0]. *)
Theorem readings_are_nonnegative (st : State) :
  reachable st ->
  (forall raw st', 1 <= ADC_SAMPLES st' <= 1024 -> is_nan (adcOffset st') = false ->
                   nonneg (readVoltageHighPrecision raw st') = true) /\
  1 <= ADC_SAMPLES st <= 1024 /\
  is_nan (adcOffset st) = false /\
  (forall raw, nonneg (readVoltageHighPrecision raw st) = true) /\
  (forall i, nonneg (buffer_at st i) = true) /\
  (0 < sampleCount st ->
   let '(minV, maxV, avgV) := status_stats st in
   nonneg minV = true /\ nonneg maxV = true /\ nonneg avgV = true).
Proof.
  intros Hreach.
  destruct (reachable_readings_ok st Hreach) as [Ho Hb].
  destruct (reachable_globals_ok st Hreach) as (Hc & _ & _ & Hs).
  split; [intros raw st' _; apply readVoltage_nonneg|].
  split; [exact Hs|].
  split; [exact Ho|].
  split; [intros raw; apply readVoltage_nonneg, Ho|].
  split; [intros i; apply buffer_at_nonneg, Hb|].
  intros Hpos. unfold status_stats.
  pose proof (status_loop_nonneg st (Z.to_nat (sampleCount st)) 0
                (buffer_at st 0) (buffer_at st 0) (F32.of_Z 0) Hb
                (buffer_at_nonneg st 0 Hb) (buffer_at_nonneg st 0 Hb) eq_refl) as Hloop.
  destruct (status_loop _ _ _ _) as [[minV maxV] avgV].
  destruct Hloop as (Hmin & Hmax & Havg).
  split; [exact Hmin|]. split; [exact Hmax|].
  destruct (count_to_float (sampleCount st) ltac:(lia)) as (m & e & ->).
  destruct F32_format as [Hp32 He32].
  apply SFdiv_nonneg; assumption.
Qed.

(* ===================================================================== *)
(** ** Further properties of the commands *)

(** The [samples] command: with [N] what [String::toInt] reads from the
    argument, [1 <= N <= 1024] sets the oversample count to [N] and prints
    the confirmation; any other [N] leaves every global unchanged and prints
    the rejection. *)
Theorem samples_command (inp : LoopInput) (st : State) (line : string) :
  serial_line inp = Some line ->
  startsWith (toLowerCase (trim line)) "samples" = true ->
  let N := toInt (substring 7 (toLowerCase (trim line))) in
  let r := processSerialCommands inp st in
  returned r = true /\
  (1 <= N <= 1024 ->
   next_state r = set_ADC_SAMPLES N st /\
   output r = [Serial_printf "ADC samples per reading set to %d" [AInt N]]) /\
  (~ 1 <= N <= 1024 ->
   next_state r = st /\
   output r = [Serial_println "Invalid ADC samples (1-1024)"]).
Proof.
  intros Hline H N r.
  assert (Hstep : r =
            if (N >=? 1) && (N <=? 1024) then
              mkStep (set_ADC_SAMPLES N st)
                [Serial_printf "ADC samples per reading set to %d" [AInt N]] true
            else mkStep st [Serial_println "Invalid ADC samples (1-1024)"] true).
  { subst r N. dispatch Hline H. reflexivity. }
  rewrite Hstep.
  destruct ((N >=? 1) && (N <=? 1024)) eqn:E.
  - bool_hyps. split; [reflexivity|]. split; [intros _; split; reflexivity | lia].
  - split; [reflexivity|]. split; [|intros _; split; reflexivity].
    intros Hin. exfalso.
    assert (E' : (N >=? 1) && (N <=? 1024) = true).
    { apply andb_true_iff; split; [apply Z.geb_le | apply Z.leb_le]; lia. }
    congruence.
Qed.

(** The [stop] command received while recording clears the recording flag
    and stores the clock value as [recordingEndTime]; the count, the buffer,
    the rate, the start time and the calibration keep their values, and the
    LED is switched on before the three report lines. *)
Theorem stop_command_recording (inp : LoopInput) (st : State) (line : string) :
  serial_line inp = Some line ->
  startsWith (toLowerCase (trim line)) "stop" = true ->
  recording st = true ->
  let r := processSerialCommands inp st in
  next_state r = set_recordingEndTime (u32 (cmd_millis inp)) (set_recording false st) /\
  output r =
    [digitalWrite LED_PIN HIGH;
     Serial_printf "Recording stopped. Captured %d samples." [AInt (sampleCount st)];
     Serial_printf "Actual recording duration: %.2f seconds"
       [ADouble (F64.div (F64.of_Z (u32 (u32 (cmd_millis inp) - recordingStartTime st)))
                         (F64.of_Z 1000))];
     Serial_println "Type 'show' to view data or 'replay' to replicate voltages."].
Proof.
  intros Hline H Hrec r; subst r.
  dispatch Hline H.
  unfold stopRecording, ret. rewrite Hrec. split; reflexivity.
Qed.

(** In every reachable state the sample rate is within 1..10000 and the
    oversample count within 1..1024, so neither [1000 / sampleRate] in
    [loop()] nor [total / ADC_SAMPLES] in a reading divides by zero. *)
Theorem divisors_are_never_zero (st : State) :
  reachable st ->
  1 <= sampleRate st <= 10000 /\
  1 <= ADC_SAMPLES st <= 1024 /\
  sampleRate st <> 0 /\
  u32 (ADC_SAMPLES st) <> 0.
Proof.
  intros Hreach.
  destruct (reachable_globals_ok st Hreach) as (_ & _ & Hr & Hs).
  split; [exact Hr|]. split; [exact Hs|]. split; [lia|].
  rewrite u32_small; lia.
Qed.

(** A replay of a non-empty buffer writes to the DAC the codes of the
    samples [0, 1, ...] in order, stopping early only when a byte arrives on
    the serial port, and never reading past [sampleCount - 1]; its last
    write sets the DAC back to 0. *)
Theorem replay_writes_samples_in_order (inp : LoopInput) (st : State) :
  sampleCount st <> 0 ->
  let writes := List.filter is_dac_write (replayVoltages inp st) in
  let code (k : nat) := dac_output_voltage (dacValue (buffer_at st (Z.of_nat k))) in
  (exists m : nat,
     (m <= Z.to_nat (sampleCount st))%nat /\
     writes = map code (seq 0 m) ++ [dac_output_voltage 0]) /\
  ((forall k, replay_abort inp k = false) ->
   writes = map code (seq 0 (Z.to_nat (sampleCount st))) ++ [dac_output_voltage 0]).
Proof.
  intros Hnz writes code.
  assert (Hc : (sampleCount st =? 0) = false) by (apply Z.eqb_neq; exact Hnz).
  destruct (replay_loop_dac (replay_abort inp) st (Z.to_nat (sampleCount st)) 0 (F32.of_Z (-1)))
    as (m & Hm & Hall & Hcodes).
  assert (E : writes = map code (seq 0 m) ++ [dac_output_voltage 0]).
  { subst writes. unfold replayVoltages. rewrite Hc.
    rewrite !List.filter_app, Hcodes.
    destruct (sampleRate st >? 200), (timing_off _ _); cbn [List.filter is_dac_write app];
      rewrite ?app_nil_r; reflexivity. }
  split.
  - exists m. split; assumption.
  - intros Hno. rewrite E, (Hall Hno). reflexivity.
Qed.

Lemma SFsub_self (prec emax : Z) (x : spec_float) :
  has_sign false x -> (exists k, mag_le k x) ->
  SFsub prec emax x x = S754_zero false.
Proof.
  intros Hs [k Hm].
  destruct x as [s|s| |s m e]; cbn in Hs, Hm; try subst s; try contradiction.
  - reflexivity.
  - cbn [SFsub]. rewrite Z.sub_diag. reflexivity.
Qed.

(** A reading taken right after a calibration, from the same raw codes, is
    exactly 0 V: the offset is the reading itself. *)
Theorem calibrate_then_read_is_zero (raw : nat -> Z) (st : State) :
  readVoltageHighPrecision raw (fst (calibrateADCOffset raw st)) = S754_zero false.
Proof.
  unfold calibrateADCOffset, readVoltageHighPrecision. state_simpl. cbv zeta.
  change (adc_volts raw (set_adcOffset (adc_volts raw st) st)) with (adc_volts raw st).
  destruct (adc_volts_finite raw st) as [Hs Hm].
  unfold F32.sub. rewrite SFsub_self; [reflexivity | exact Hs | exists 26; exact Hm].
Qed.

(* ===================================================================== *)
(** ** What the dispatcher and a pass never do *)

Lemma ltrim_all_space (s : string) : all_space s = true -> ltrim s = "".
Proof.
  induction s as [|c s IH]; cbn; [reflexivity|].
  intros H. apply andb_true_iff in H as [Hc Hs]. rewrite Hc. exact (IH Hs).
Qed.

Lemma trim_all_space (s : string) : all_space s = true -> trim s = "".
Proof. intros H. unfold trim. rewrite (ltrim_all_space s H). reflexivity. Qed.

(** A line that, trimmed and lower-cased, begins with none of the fourteen
    command words prints the unknown-command line and changes no global; an
    empty line and a line of whitespace only are such lines. *)
Theorem unknown_command_is_ignored (inp : LoopInput) (st : State) (line : string) :
  serial_line inp = Some line ->
  (known_command (toLowerCase (trim line)) = false ->
   processSerialCommands inp st = mkStep st [Serial_println unknown_command] true) /\
  (all_space line = true ->
   known_command (toLowerCase (trim line)) = false /\
   processSerialCommands inp st = mkStep st [Serial_println unknown_command] true).
Proof.
  intros Hline.
  assert (Hunknown : known_command (toLowerCase (trim line)) = false ->
            processSerialCommands inp st = mkStep st [Serial_println unknown_command] true).
  { intros H. unfold processSerialCommands. rewrite Hline. cbv zeta.
    unfold known_command, command_words in H. cbn [existsb] in H.
    repeat match type of H with
           | orb _ _ = false => apply orb_false_iff in H; destruct H as [?H H]
           end.
    repeat match goal with
           | E : startsWith _ _ = false |- _ => rewrite E; clear E
           end.
    reflexivity. }
  split; [exact Hunknown|].
  intros Hblank.
  assert (H : known_command (toLowerCase (trim line)) = false).
  { rewrite (trim_all_space line Hblank). reflexivity. }
  split; [exact H | exact (Hunknown H)].
Qed.

(** When [show] did not run to its end, a key was missing at a pause, and a
    pause comes only after a row [j] with [j + 1] a multiple of 20 that is
    not the last row. *)
Lemma printData_loop_waits (key : nat -> bool) (st : State) (n : nat) (i : Z) (p : nat) :
  snd (printData_loop key st n i p) = false ->
  (exists k, key k = false) /\
  exists j, i <= j /\ Z.rem (j + 1) 20 = 0 /\ j < sampleCount st - 1.
Proof.
  revert i p; induction n as [|n IH]; intros i p; cbn [printData_loop].
  - cbn. discriminate.
  - destruct ((Z.rem (i + 1) 20 =? 0) && (i <? sampleCount st - 1)) eqn:Hc.
    + apply andb_true_iff in Hc as [Hr Hi].
      apply Z.eqb_eq in Hr. apply Z.ltb_lt in Hi.
      destruct (key p) eqn:Hk.
      * cbn [snd]. intros H. destruct (IH _ _ H) as [Hkey (j & Hj & Hrem & Hlt)].
        split; [exact Hkey|]. exists j. split; [lia|]. split; assumption.
      * intros _. split; [exists p; exact Hk|].
        exists i. split; [lia|]. split; assumption.
    + cbn [snd]. intros H. destruct (IH _ _ H) as [Hkey (j & Hj & Hrem & Hlt)].
      split; [exact Hkey|]. exists j. split; [lia|]. split; assumption.
Qed.

(** A pass of [loop()] fails to return only inside [show]: the line is a
    [show] or [print] command, more than 20 samples are stored, and no key
    arrived at one of the pauses.  Every other command, and [show] with at
    most 20 samples, returns. *)
Theorem only_show_waits (inp : LoopInput) (st : State) :
  returned (loop inp st) = false ->
  exists line,
    serial_line inp = Some line /\
    startsWith (toLowerCase (trim line)) "show"
    || startsWith (toLowerCase (trim line)) "print" = true /\
    20 < sampleCount st /\
    exists k, show_key inp k = false.
Proof.
  unfold loop.
  destruct (returned (processSerialCommands inp st)) eqn:R; [cbn; discriminate|].
  intros _. unfold processSerialCommands in R.
  destruct (serial_line inp) as [line|]; [|discriminate].
  exists line. split; [reflexivity|]. cbv zeta in R.
  repeat match type of R with
         | context [if ?b then _ else _] => destruct b eqn:?; try discriminate R
         end.
  split; [reflexivity|].
  unfold printData in R.
  destruct (sampleCount st =? 0); [discriminate|].
  cbv zeta in R.
  destruct (snd (printData_loop (show_key inp) st (Z.to_nat (sampleCount st)) 0 0)) eqn:Hs;
    [discriminate|].
  destruct (printData_loop_waits _ _ _ _ _ Hs) as [Hkey (j & Hj & Hrem & Hlt)].
  split; [|exact Hkey].
  rewrite Z.rem_mod_nonneg in Hrem by lia.
  assert (20 <= j + 1); [|lia].
  pose proof (Z.div_mod (j + 1) 20 ltac:(lia)) as Hdm.
  rewrite Hrem in Hdm. lia.
Qed.

Lemma printData_loop_no_dac (key : nat -> bool) (st : State) (n : nat) (i : Z) (p : nat) :
  List.filter is_dac_write (fst (printData_loop key st n i p)) = [].
Proof.
  revert i p; induction n as [|n IH]; intros i p; cbn [printData_loop]; [reflexivity|].
  destruct ((Z.rem (i + 1) 20 =? 0) && (i <? sampleCount st - 1)).
  - destruct (key p); cbn; [apply IH | reflexivity].
  - cbn. apply IH.
Qed.

Lemma printData_no_dac (key : nat -> bool) (st : State) :
  List.filter is_dac_write (output (printData key st)) = [].
Proof.
  unfold printData. destruct (sampleCount st =? 0); [reflexivity|]. cbv zeta.
  destruct (snd (printData_loop key st (Z.to_nat (sampleCount st)) 0 0)); cbn [output];
    rewrite !List.filter_app, printData_loop_no_dac; reflexivity.
Qed.

Lemma printStatus_no_dac (raw : nat -> Z) (st : State) :
  List.filter is_dac_write (printStatus raw st) = [].
Proof.
  unfold printStatus. destruct (status_stats st) as [[minV maxV] avgV].
  destruct (sampleRate st >? 200), (sampleCount st >? 0); reflexivity.
Qed.

Lemma loop_sample_no_dac (inp : LoopInput) (st : State) :
  List.filter is_dac_write (snd (loop_sample inp st)) = [].
Proof.
  unfold loop_sample, stopRecording. split_ifs; reflexivity.
Qed.

(** The DAC is driven by nothing but a replay: [setup()] writes the code 0
    once, and a pass of [loop()] whose output holds a DAC write ran a
    [replay] (or [replicate]) command on a non-empty buffer.  Recording,
    [show], [status] and every other command leave the DAC alone. *)
Theorem dac_written_only_by_replay :
  (forall raw, List.filter is_dac_write (snd (setup raw)) = [dac_output_voltage 0]) /\
  (forall inp st,
     List.filter is_dac_write (output (loop inp st)) <> [] ->
     exists line,
       serial_line inp = Some line /\
       startsWith (toLowerCase (trim line)) "replay"
       || startsWith (toLowerCase (trim line)) "replicate" = true /\
       sampleCount st <> 0).
Proof.
  split.
  - intros raw. unfold setup, setupADC. destruct val_type; reflexivity.
  - intros inp st.
    assert (Hloop : List.filter is_dac_write (output (loop inp st)) =
                    List.filter is_dac_write (output (processSerialCommands inp st))).
    { unfold loop. destruct (returned (processSerialCommands inp st)); [|reflexivity].
      cbn [output]. rewrite List.filter_app, loop_sample_no_dac, app_nil_r. reflexivity. }
    rewrite Hloop. clear Hloop.
    unfold processSerialCommands.
    destruct (serial_line inp) as [line|]; [|intros H; exfalso; apply H; reflexivity].
    intros H. exists line. split; [reflexivity|]. revert H. cbv zeta.
    destruct (startsWith (toLowerCase (trim line)) "start"
              || startsWith (toLowerCase (trim line)) "begin").
    { unfold startRecording, ret. destruct (recording st); intros H; exfalso; apply H; reflexivity. }
    destruct (startsWith (toLowerCase (trim line)) "stop").
    { unfold stopRecording, ret. destruct (recording st); intros H; exfalso; apply H; reflexivity. }
    destruct (startsWith (toLowerCase (trim line)) "show"
              || startsWith (toLowerCase (trim line)) "print").
    { rewrite printData_no_dac. intros H; exfalso; apply H; reflexivity. }
    destruct (startsWith (toLowerCase (trim line)) "replay"
              || startsWith (toLowerCase (trim line)) "replicate").
    { intros H. split; [reflexivity|]. intros Hz. apply H.
      cbn [output]. unfold replayVoltages. rewrite Hz. reflexivity. }
    destruct (startsWith (toLowerCase (trim line)) "status").
    { cbn [output]. rewrite printStatus_no_dac. intros H; exfalso; apply H; reflexivity. }
    split_ifs; intros H; exfalso; apply H; reflexivity.
Qed.

(** What a command can do to the recording flag: keep it, clear it, or set
    it together with a zero count. *)
Lemma command_recording (inp : LoopInput) (st : State) :
  let st' := next_state (processSerialCommands inp st) in
  recording st' = false \/
  (recording st' = recording st /\
   (sampleCount st' = sampleCount st \/ sampleCount st' = 0)) \/
  sampleCount st' = 0.
Proof.
  unfold processSerialCommands, printData, startRecording, stopRecording,
    calibrateADCOffset, ret.
  destruct (serial_line inp) as [line|]; cbv zeta.
  2: { cbn; tauto. }
  split_ifs; state_simpl; tauto.
Qed.

Lemma reachable_recording_room (st : State) :
  reachable st -> recording st = true -> sampleCount st < MAX_SAMPLES.
Proof.
  induction 1 as [raw | st inp Hreach IH].
  - unfold setup, calibrateADCOffset; state_simpl. cbn. discriminate.
  - pose proof (reachable_globals_ok st Hreach) as Hok.
    pose proof (command_preserves_globals_ok inp st Hok) as Hok1.
    assert (Hcmd : recording (next_state (processSerialCommands inp st)) = true ->
                   sampleCount (next_state (processSerialCommands inp st)) < MAX_SAMPLES).
    { intros Hr. destruct (command_recording inp st) as [E | [[E [Ec|Ec]] | Ec]];
        unfold MAX_SAMPLES in *; try congruence; try lia.
      rewrite Ec. apply IH. congruence. }
    unfold loop. destruct (returned (processSerialCommands inp st)); [|exact Hcmd].
    state_simpl.
    set (pre := next_state (processSerialCommands inp st)) in *.
    destruct (loop_sample_effect inp pre)
      as [(Ec & _ & Er & _) | (_ & Hroom & _ & Ec & _ & Hgo & Hfull)].
    + rewrite Ec, Er. exact Hcmd.
    + intros Hr. rewrite Ec.
      destruct (Z_lt_ge_dec (s32 (sampleCount pre + 1)) MAX_SAMPLES) as [Hlt|Hge];
        [exact Hlt|].
      destruct (Hfull Hge) as [Hf _]. congruence.
Qed.

(** In every reachable state, recording implies room in the buffer: the
    flag is cleared by the very pass that stores the last cell.  So while
    recording, a pass whose sample is due always stores it, and the test
    [sampleCount < MAX_SAMPLES] of [loop()] never fails. *)
Theorem recording_implies_room (st : State) :
  reachable st ->
  recording st = true ->
  sampleCount st < MAX_SAMPLES /\
  (recording st && (sampleCount st <? MAX_SAMPLES) = true) /\
  forall inp,
    sample_period_ms st <= u32 (u32 (tick_millis inp) - lastSampleTime st) ->
    sampleCount (fst (loop_sample inp st)) = sampleCount st + 1.
Proof.
  intros Hreach Hrec.
  pose proof (reachable_recording_room st Hreach Hrec) as Hroom.
  pose proof (reachable_globals_ok st Hreach) as (Hc & _).
  split; [exact Hroom|]. split.
  - rewrite Hrec. apply Z.ltb_lt. exact Hroom.
  - intros inp Hdue.
    destruct (loop_sample_due inp st Hrec ltac:(lia) Hdue) as (Ec & _). exact Ec.
Qed.

(* ===================================================================== *)
(** ** Recording: oversampling and the order of the stored samples *)

Lemma buffer_at_insert (st : State) (c i : Z) (x : float) (buf : list float) :
  0 <= c -> 0 <= i -> (Z.to_nat c < length buf)%nat ->
  nth (Z.to_nat i) (<[Z.to_nat c := x]> buf) F32.zero =
  if i =? c then x else nth (Z.to_nat i) buf F32.zero.
Proof.
  intros Hc Hi Hlen. rewrite !nth_lookup.
  destruct (i =? c) eqn:E.
  - apply Z.eqb_eq in E. subst i. rewrite list_lookup_insert_eq by exact Hlen. reflexivity.
  - apply Z.eqb_neq in E. rewrite list_lookup_insert_ne by lia. reflexivity.
Qed.

(** A reading depends on the globals through the oversample count and the
    calibration offset only. *)
Lemma readVoltage_ext (raw : nat -> Z) (st st' : State) :
  ADC_SAMPLES st' = ADC_SAMPLES st -> adcOffset st' = adcOffset st ->
  readVoltageHighPrecision raw st' = readVoltageHighPrecision raw st.
Proof.
  intros Ea Eo. unfold readVoltageHighPrecision, adc_volts. rewrite Ea, Eo. reflexivity.
Qed.

(** A pass of [loop()] changes at most one cell of the buffer: the one at
    the write index [sampleCount] (as the pass's command left it), which
    receives the reading of this pass and is counted.  No command and no
    sampling pass touches any other cell, so a stored sample stays until the
    write index comes back to it. *)
Theorem pass_changes_one_cell (inp : LoopInput) (st : State) :
  reachable st ->
  let pre := next_state (processSerialCommands inp st) in
  let post := next_state (loop inp st) in
  voltageBuffer pre = voltageBuffer st /\
  (forall i, 0 <= i -> i <> sampleCount pre -> buffer_at post i = buffer_at st i) /\
  (sampleCount post = sampleCount pre /\ voltageBuffer post = voltageBuffer st \/
   sampleCount post = sampleCount pre + 1 /\
   buffer_at post (sampleCount pre) = readVoltageHighPrecision (tick_adc inp) pre).
Proof.
  intros Hreach pre post.
  pose proof (reachable_globals_ok st Hreach) as Hok.
  pose proof (command_preserves_globals_ok inp st Hok) as (Hc & Hl & _).
  destruct (command_effect inp st) as (Eb & _).
  fold pre in Hc, Hl, Eb.
  split; [exact Eb|].
  assert (Hpost : post = pre \/ post = fst (loop_sample inp pre)).
  { subst post pre. unfold loop.
    destruct (returned (processSerialCommands inp st)); [right|left]; reflexivity. }
  destruct Hpost as [E|E].
  { rewrite E. split; [intros i _ _; unfold buffer_at; rewrite Eb; reflexivity|].
    left. split; [reflexivity | exact Eb]. }
  rewrite E.
  destruct (loop_sample_effect inp pre)
    as [(Ec & Ebuf & _) | (_ & Hroom & _ & Ec & Ebuf & _)].
  - split; [intros i _ _; unfold buffer_at; rewrite Ebuf, Eb; reflexivity|].
    left. split; [exact Ec | rewrite Ebuf; exact Eb].
  - rewrite s32_small in Ec by (unfold INT_MIN, INT_MAX, MAX_SAMPLES in *; lia).
    assert (Hlen : (Z.to_nat (sampleCount pre) < length (voltageBuffer pre))%nat).
    { rewrite Hl. unfold MAX_SAMPLES in *. lia. }
    split.
    + intros i Hi Hne. unfold buffer_at. rewrite Ebuf.
      rewrite (buffer_at_insert pre) by (exact Hlen || lia).
      destruct (i =? sampleCount pre) eqn:Hi'; [apply Z.eqb_eq in Hi'; contradiction|].
      rewrite Eb. reflexivity.
    + right. split; [exact Ec|]. unfold buffer_at. rewrite Ebuf.
      rewrite (buffer_at_insert pre) by (exact Hlen || lia).
      rewrite Z.eqb_refl. reflexivity.
Qed.

Lemma raw_sum_bounds (raw : nat -> Z) (lo hi : Z) (n i : nat) :
  (forall j, (i <= j < i + n)%nat -> lo <= raw j <= hi) ->
  Z.of_nat n * lo <= raw_sum raw n i <= Z.of_nat n * hi.
Proof.
  revert i; induction n as [|n IH]; intros i H; cbn [raw_sum]; [lia|].
  specialize (IH (S i) ltac:(intros j Hj; apply H; lia)).
  specialize (H i ltac:(lia)). lia.
Qed.

(** The 32-bit accumulator does not wrap while the codes are 12-bit and the
    sum stays below [2 ^ 32]. *)
Lemma adc_accumulate_sum (raw : nat -> Z) (n i : nat) (total : Z) :
  (forall j, (i <= j < i + n)%nat -> 0 <= raw j <= 4095) ->
  0 <= total -> total + Z.of_nat n * 4095 < 2 ^ 32 ->
  adc_accumulate raw n i total = total + raw_sum raw n i.
Proof.
  revert i total; induction n as [|n IH]; intros i total H Ht Hb;
    cbn [adc_accumulate raw_sum]; [lia|].
  pose proof (H i ltac:(lia)) as Hi.
  rewrite u32_small by lia.
  rewrite IH; [lia | intros j Hj; apply H; lia | lia | lia].
Qed.

(** With 12-bit raw codes (0..4095, what [adc1_get_raw] delivers at
    [ADC_WIDTH_BIT_12]) and an oversample count of 1..1024, the 32-bit
    accumulator of a reading never wraps, and the average lies between the
    smallest and the largest code read; a steady input therefore reads as the
    calibrated value of its code, whatever the oversample count. *)
Theorem oversampled_average_in_range (raw : nat -> Z) (st : State) (lo hi : Z) :
  1 <= ADC_SAMPLES st <= 1024 ->
  0 <= lo -> hi <= 4095 ->
  (forall j, (j < Z.to_nat (ADC_SAMPLES st))%nat -> lo <= raw j <= hi) ->
  let total := adc_accumulate raw (Z.to_nat (ADC_SAMPLES st)) O 0 in
  let average := total / u32 (ADC_SAMPLES st) in
  total = raw_sum raw (Z.to_nat (ADC_SAMPLES st)) O /\
  lo <= average <= hi /\
  (lo = hi ->
   adc_volts raw st =
     to_float (F64.div (F64.of_Z (u32 (esp_adc_cal_raw_to_voltage lo))) d_1000)).
Proof.
  intros Hn Hlo Hhi Hraw total average.
  assert (Hsum : total = raw_sum raw (Z.to_nat (ADC_SAMPLES st)) O).
  { subst total. rewrite adc_accumulate_sum; [lia | | lia | lia].
    intros j Hj. specialize (Hraw j ltac:(lia)). lia. }
  pose proof (raw_sum_bounds raw lo hi (Z.to_nat (ADC_SAMPLES st)) O
                ltac:(intros j Hj; apply Hraw; lia)) as Hb.
  rewrite <- Hsum, Z2Nat.id in Hb by lia.
  assert (Havg : lo <= average <= hi).
  { subst average. rewrite u32_small by lia. split.
    - apply Z.div_le_lower_bound; lia.
    - apply Z.div_le_upper_bound; lia. }
  split; [exact Hsum|]. split; [exact Havg|].
  intros E. unfold adc_volts. cbv zeta. fold total. fold average.
  replace average with lo by lia. reflexivity.
Qed.

Lemma quiet_loop (inp : LoopInput) (st : State) :
  quiet inp = true ->
  loop inp st = mkStep (fst (loop_sample inp st)) (snd (loop_sample inp st)) true.
Proof.
  unfold quiet, loop, processSerialCommands.
  destruct (serial_line inp); [discriminate|]. reflexivity.
Qed.

Lemma sample_period_ms_ext (st st' : State) :
  sampleRate st' = sampleRate st -> sample_period_ms st' = sample_period_ms st.
Proof. unfold sample_period_ms. intros ->. reflexivity. Qed.

Lemma samples_in_order_aux (inps : list LoopInput) (st : State) :
  (inps <> [] -> recording st = true) ->
  0 <= sampleCount st ->
  sampleCount st + Z.of_nat (length inps) <= MAX_SAMPLES ->
  length (voltageBuffer st) = Z.to_nat MAX_SAMPLES ->
  forallb quiet inps = true ->
  sampling_due (sample_period_ms st) (lastSampleTime st) inps = true ->
  let r := run inps st in
  returned r = true /\
  sampleCount (next_state r) = sampleCount st + Z.of_nat (length inps) /\
  (forall (k : nat) inp, inps !! k = Some inp ->
     buffer_at (next_state r) (sampleCount st + Z.of_nat k) =
     readVoltageHighPrecision (tick_adc inp) st) /\
  (forall i, 0 <= i < sampleCount st -> buffer_at (next_state r) i = buffer_at st i) /\
  (inps <> [] ->
   recording (next_state r) = (sampleCount st + Z.of_nat (length inps) <? MAX_SAMPLES)) /\
  (forall inp rest, inps = inp :: rest -> sampleCount st = 0 ->
     recordingStartTime (next_state r) = u32 (tick_millis inp)) /\
  (inps <> [] -> sampleCount st <> 0 ->
   recordingStartTime (next_state r) = recordingStartTime st) /\
  sampleRate (next_state r) = sampleRate st /\
  ADC_SAMPLES (next_state r) = ADC_SAMPLES st /\
  adcOffset (next_state r) = adcOffset st.
Proof.
  revert st; induction inps as [|inp rest IH]; intros st Hrec Hc Hroom Hlen Hq Hdue.
  - cbn. repeat split; try lia; try congruence.
    intros k inp' Hk. rewrite lookup_nil in Hk. discriminate.
  - cbn [forallb] in Hq. apply andb_true_iff in Hq as [Hq Hqs].
    cbn [sampling_due] in Hdue. apply andb_true_iff in Hdue as [Hd Hds].
    apply Z.leb_le in Hd.
    cbn [length] in Hroom.
    specialize (Hrec ltac:(discriminate)).
    destruct (loop_sample_due inp st Hrec ltac:(unfold MAX_SAMPLES in *; lia) Hd)
      as (Ec & Eb & El & Es & Er & Erate & Eadc & Eoff).
    cbn [run]. rewrite (quiet_loop inp st Hq). cbn [returned next_state output length].
    set (st1 := fst (loop_sample inp st)) in *.
    assert (Hlen1 : length (voltageBuffer st1) = Z.to_nat MAX_SAMPLES).
    { rewrite Eb, length_insert. exact Hlen. }
    assert (Hrec1 : rest <> [] -> recording st1 = true).
    { intros Hne. rewrite Er. apply Z.ltb_lt.
      destruct rest; [congruence|]. cbn [length] in Hroom. lia. }
    rewrite <- (sample_period_ms_ext st st1 Erate), <- El in Hds.
    specialize (IH st1 Hrec1 ltac:(lia) ltac:(lia) Hlen1 Hqs Hds).
    cbv zeta in IH.
    destruct IH as (Ret & Cnt & Cells & Keep & Rec & Start0 & Start1 & Rate & Adc & Off).
    assert (Hcell : buffer_at st1 (sampleCount st) = readVoltageHighPrecision (tick_adc inp) st).
    { unfold buffer_at. rewrite Eb.
      rewrite (buffer_at_insert st) by (rewrite ?Hlen; unfold MAX_SAMPLES in *; lia).
      rewrite Z.eqb_refl. reflexivity. }
    assert (Hold : forall i, 0 <= i < sampleCount st -> buffer_at st1 i = buffer_at st i).
    { intros i Hi. unfold buffer_at. rewrite Eb.
      rewrite (buffer_at_insert st) by (rewrite ?Hlen; unfold MAX_SAMPLES in *; lia).
      destruct (i =? sampleCount st) eqn:E; [apply Z.eqb_eq in E; lia | reflexivity]. }
    split; [exact Ret|].
    split; [rewrite Cnt, Ec; lia|].
    split.
    { intros k inp' Hk. destruct k as [|k].
      - cbn in Hk. injection Hk as <-.
        rewrite Z.add_0_r, Keep by lia. exact Hcell.
      - cbn in Hk. specialize (Cells k inp' Hk).
        rewrite Ec in Cells.
        replace (sampleCount st + Z.of_nat (S k)) with (sampleCount st + 1 + Z.of_nat k) by lia.
        rewrite Cells. apply readVoltage_ext; assumption. }
    split; [intros i Hi; rewrite Keep by lia; apply Hold; exact Hi|].
    split.
    { intros _. destruct rest as [|inp2 rest].
      - cbn. rewrite Er. reflexivity.
      - rewrite (Rec ltac:(discriminate)), Ec. f_equal. cbn [length]. lia. }
    split.
    { intros inp0 rest0 E Hz. injection E as <- <-.
      destruct rest as [|inp2 rest].
      - cbn. rewrite Es. rewrite Hz. reflexivity.
      - rewrite (Start1 ltac:(discriminate) ltac:(lia)), Es, Hz. reflexivity. }
    split.
    { intros _ Hnz. apply Z.eqb_neq in Hnz.
      destruct rest as [|inp2 rest].
      - cbn. rewrite Es, Hnz. reflexivity.
      - rewrite (Start1 ltac:(discriminate) ltac:(lia)), Es, Hnz. reflexivity. }
    split; [congruence|]. split; congruence.
Qed.

(** Sampling passes, each due when it comes and none bringing a command,
    store their readings in the order of arrival in consecutive cells from
    the write index on, one per pass: the count grows by the number of
    passes, cell [sampleCount + k] holds the reading of pass [k], and the
    cells below are left as they were.  The session is still recording
    afterwards exactly when the buffer is not full.  When the first of the
    passes stores sample 0, it is the clock value of that pass, not that of
    the [start] command, which stays in [recordingStartTime]. *)
Theorem samples_are_stored_in_order (inps : list LoopInput) (st : State) :
  recording st = true ->
  0 <= sampleCount st ->
  sampleCount st + Z.of_nat (length inps) <= MAX_SAMPLES ->
  length (voltageBuffer st) = Z.to_nat MAX_SAMPLES ->
  forallb quiet inps = true ->
  sampling_due (sample_period_ms st) (lastSampleTime st) inps = true ->
  let r := run inps st in
  returned r = true /\
  sampleCount (next_state r) = sampleCount st + Z.of_nat (length inps) /\
  (forall (k : nat) inp, inps !! k = Some inp ->
     buffer_at (next_state r) (sampleCount st + Z.of_nat k) =
     readVoltageHighPrecision (tick_adc inp) st) /\
  (forall i, 0 <= i < sampleCount st -> buffer_at (next_state r) i = buffer_at st i) /\
  (inps <> [] ->
   recording (next_state r) = (sampleCount st + Z.of_nat (length inps) <? MAX_SAMPLES)) /\
  (forall inp rest, inps = inp :: rest -> sampleCount st = 0 ->
     recordingStartTime (next_state r) = u32 (tick_millis inp)).
Proof.
  intros Hrec Hc Hroom Hlen Hq Hdue.
  destruct (samples_in_order_aux inps st (fun _ => Hrec) Hc Hroom Hlen Hq Hdue)
    as (H1 & H2 & H3 & H4 & H5 & H6 & _).
  repeat (split; [assumption|]). assumption.
Qed.

(* ===================================================================== *)
(** ** The pauses of [show] and the interruption of [replay] *)

Lemma is_pause_row (st : State) (i : Z) : is_pause (data_row st i) = false.
Proof. reflexivity. Qed.

Lemma is_row_row (st : State) (i : Z) : is_data_row (data_row st i) = true.
Proof. reflexivity. Qed.

(** With a key at every pause, the loop from row [i] on pauses once for
    every multiple of 20 in [i + 1 .. sampleCount - 1]. *)
Lemma printData_loop_pauses (key : nat -> bool) (st : State) (n : nat) (i : Z) (p : nat) :
  (forall k, key k = true) ->
  0 <= i -> i + Z.of_nat n = sampleCount st ->
  length (List.filter is_pause (fst (printData_loop key st n i p))) =
  Z.to_nat ((sampleCount st - 1) / 20 - i / 20).
Proof.
  clear esp_adc_cal_raw_to_voltage val_type VERSION.
  intros Hkey. revert i p; induction n as [|n IH]; intros i p Hi Hsum;
    cbn [printData_loop].
  - cbn. Z.div_mod_to_equations. lia.
  - destruct ((Z.rem (i + 1) 20 =? 0) && (i <? sampleCount st - 1)) eqn:Hc.
    + apply andb_true_iff in Hc as [Hr Hlt].
      apply Z.eqb_eq in Hr. apply Z.ltb_lt in Hlt.
      rewrite Z.rem_mod_nonneg in Hr by lia.
      rewrite Hkey. cbn [fst List.filter]. rewrite is_pause_row.
      change (is_pause (Serial_println "--- Press any key to continue ---")) with true.
      cbn [length]. rewrite IH by lia.
      Z.div_mod_to_equations. lia.
    + cbn [fst List.filter]. rewrite is_pause_row. rewrite IH by lia.
      apply andb_false_iff in Hc as [Hr|Hlt].
      * apply Z.eqb_neq in Hr. rewrite Z.rem_mod_nonneg in Hr by lia.
        Z.div_mod_to_equations. lia.
      * apply Z.ltb_ge in Hlt. Z.div_mod_to_equations. lia.
Qed.

(** With keys at the pauses before pause [k] and none at pause [k], the
    loop from row [i] on prints the rows up to [20 * (k + 1) - 1] and stops
    there, behind the prompt. *)
Lemma printData_loop_blocks (key : nat -> bool) (st : State) (k n : nat) (i : Z) (p : nat) :
  (forall j, (j < k)%nat -> key j = true) -> key k = false ->
  20 * (Z.of_nat k + 1) < sampleCount st ->
  0 <= i -> i + Z.of_nat n = sampleCount st ->
  Z.of_nat p = i / 20 -> i < 20 * (Z.of_nat k + 1) ->
  let r := printData_loop key st n i p in
  snd r = false /\
  List.filter is_data_row (fst r) =
    map (fun j : nat => data_row st (i + Z.of_nat j))
        (seq 0 (Z.to_nat (20 * (Z.of_nat k + 1) - i))) /\
  length (List.filter is_pause (fst r)) = (k + 1 - p)%nat /\
  last (fst r) = Some (Serial_println "--- Press any key to continue ---").
Proof.
  clear esp_adc_cal_raw_to_voltage val_type VERSION.
  intros Hkeys Hno Hmany.
  revert i p; induction n as [|n IH]; intros i p Hi Hsum Hp Hlt; cbv zeta;
    cbn [printData_loop].
  - lia.
  - assert (Hrows : forall m : nat,
              Z.to_nat (20 * (Z.of_nat k + 1) - i) = S m ->
              m = Z.to_nat (20 * (Z.of_nat k + 1) - (i + 1))) by lia.
    destruct ((Z.rem (i + 1) 20 =? 0) && (i <? sampleCount st - 1)) eqn:Hc.
    + apply andb_true_iff in Hc as [Hr Hroom].
      apply Z.eqb_eq in Hr. apply Z.ltb_lt in Hroom.
      rewrite Z.rem_mod_nonneg in Hr by lia.
      assert (Hdiv : (i + 1) / 20 = i / 20 + 1 /\ i + 1 = 20 * (i / 20 + 1))
        by (Z.div_mod_to_equations; lia).
      destruct Hdiv as [Hdiv Hmul].
      destruct (Nat.eq_dec p k) as [->|Hne].
      * rewrite Hno. cbn [fst snd].
        split; [reflexivity|].
        replace (Z.to_nat (20 * (Z.of_nat k + 1) - i)) with 1%nat by lia.
        split; [cbn; rewrite Z.add_0_r; reflexivity|].
        split; [cbn; lia | reflexivity].
      * assert (Hpk : (p < k)%nat) by lia.
        rewrite (Hkeys p Hpk). cbn [fst snd].
        destruct (IH (i + 1) (S p) ltac:(lia) ltac:(lia) ltac:(lia) ltac:(lia))
          as (Hs & Hr' & Hl & Hlast).
        split; [exact Hs|].
        split; [|split].
        -- cbn [List.filter]. rewrite is_row_row.
           change (is_data_row (Serial_println "--- Press any key to continue ---")) with false.
           cbv iota. rewrite Hr'.
           destruct (Z.to_nat (20 * (Z.of_nat k + 1) - i)) as [|m] eqn:Em; [lia|].
           rewrite <- (Hrows m eq_refl).
           cbn [seq map]. rewrite Z.add_0_r. f_equal.
           rewrite <- seq_shift, map_map. apply map_ext. intros j. f_equal. lia.
        -- cbn [List.filter]. rewrite is_pause_row.
           change (is_pause (Serial_println "--- Press any key to continue ---")) with true.
           cbv iota. cbn [length]. rewrite Hl. lia.
        -- rewrite !last_cons, Hlast. reflexivity.
    + assert (Hnot : i + 1 < 20 * (Z.of_nat k + 1) /\ (i + 1) / 20 = i / 20).
      { apply andb_false_iff in Hc as [Hr|Hroom].
        - apply Z.eqb_neq in Hr. rewrite Z.rem_mod_nonneg in Hr by lia.
          Z.div_mod_to_equations. lia.
        - apply Z.ltb_ge in Hroom. lia. }
      destruct Hnot as [Hnext Hdiv].
      cbn [fst snd].
      destruct (IH (i + 1) p ltac:(lia) ltac:(lia) ltac:(lia) ltac:(lia))
        as (Hs & Hr' & Hl & Hlast).
      split; [exact Hs|].
      split; [|split].
      * cbn [List.filter]. rewrite is_row_row. rewrite Hr'.
        destruct (Z.to_nat (20 * (Z.of_nat k + 1) - i)) as [|m] eqn:Em; [lia|].
        rewrite <- (Hrows m eq_refl).
        cbn [seq map]. rewrite Z.add_0_r. f_equal.
        rewrite <- seq_shift, map_map. apply map_ext. intros j. f_equal. lia.
      * cbn [List.filter]. rewrite is_pause_row. exact Hl.
      * rewrite last_cons, Hlast. reflexivity.
Qed.

(** [show] on a non-empty buffer pauses after every 20th row except the
    last one: run to its end (a key at every pause) it has printed
    [(sampleCount - 1) / 20] prompts besides all the rows, so that 20 samples
    need no key and 21 need one.  When the keys stop coming at pause [k]
    (there being more than [20 * (k + 1)] samples) the command never returns;
    it has then printed exactly the rows [0 .. 20 * (k + 1) - 1] and [k + 1]
    prompts, the last line being the prompt, and neither the closing rule
    nor the total.  The globals are unchanged either way. *)
Theorem show_pauses_every_20_rows (key : nat -> bool) (st : State) :
  0 < sampleCount st ->
  let r := printData key st in
  next_state r = st /\
  ((forall k, key k = true) ->
   returned r = true /\
   length (List.filter is_pause (output r)) = Z.to_nat ((sampleCount st - 1) / 20) /\
   last (output r) = Some (Serial_printf "Total: %d samples" [AInt (sampleCount st)])) /\
  (forall k : nat,
     (forall j, (j < k)%nat -> key j = true) -> key k = false ->
     20 * (Z.of_nat k + 1) < sampleCount st ->
     returned r = false /\
     List.filter is_data_row (output r) =
       map (fun j : nat => data_row st (Z.of_nat j)) (seq 0 (20 * (k + 1))) /\
     length (List.filter is_pause (output r)) = (k + 1)%nat /\
     last (output r) = Some (Serial_println "--- Press any key to continue ---")).
Proof.
  intros Hpos r. subst r. unfold printData.
  assert (Hz : (sampleCount st =? 0) = false) by (apply Z.eqb_neq; lia).
  rewrite Hz. cbv zeta.
  split; [destruct (snd _); reflexivity|].
  split.
  - intros Hkey.
    rewrite (printData_loop_keys key st _ 0 0 Hkey). cbn [returned output].
    split; [reflexivity|]. split.
    + rewrite !List.filter_app, !length_app.
      rewrite (printData_loop_pauses key st _ 0 0 Hkey) by lia.
      match goal with
      | |- (?a + (_ + ?c))%nat = _ => change a with O; change c with O
      end.
      change (0 / 20) with 0. rewrite Z.sub_0_r. lia.
    + rewrite app_assoc.
      change [Serial_println "------------------------";
              Serial_printf "Total: %d samples" [AInt (sampleCount st)]]
        with ([Serial_println "------------------------"] ++
              [Serial_printf "Total: %d samples" [AInt (sampleCount st)]]).
      rewrite app_assoc. apply last_snoc.
  - intros k Hkeys Hno Hmany.
    destruct (printData_loop_blocks key st k (Z.to_nat (sampleCount st)) 0 0
                Hkeys Hno Hmany ltac:(lia) ltac:(lia) eq_refl ltac:(lia))
      as (Hs & Hrows & Hl & Hlast).
    rewrite Hs. cbn [returned output].
    split; [reflexivity|]. split; [|split].
    + rewrite List.filter_app, Hrows. cbn [List.filter is_data_row String.eqb app].
      replace (Z.to_nat (20 * (Z.of_nat k + 1) - 0)) with (20 * (k + 1))%nat by lia.
      cbn -[seq map Nat.mul]. apply map_ext. intros j. rewrite Z.add_0_l. reflexivity.
    + rewrite List.filter_app, length_app, Hl. cbn. lia.
    + destruct (fst (printData_loop key st (Z.to_nat (sampleCount st)) 0 0)) as [|e l] eqn:El;
        [discriminate|].
      rewrite last_app. rewrite Hlast. reflexivity.
Qed.

(** The loop of a replay that finds a byte waiting at its pass [m] (and
    none before) has written the codes of the [m] samples before it. *)
Lemma replay_loop_stops (abort : nat -> bool) (st : State) (n m : nat) (i : Z)
  (lastv : float) :
  0 <= i -> (m < n)%nat ->
  (forall k, (k < m)%nat -> abort (Z.to_nat i + k)%nat = false) ->
  abort (Z.to_nat i + m)%nat = true ->
  List.filter is_dac_write (replay_loop abort st n i lastv) =
    map (fun k : nat => dac_output_voltage (dacValue (buffer_at st (i + Z.of_nat k))))
        (seq 0 m).
Proof.
  revert m i lastv; induction n as [|n IH]; intros m i lastv Hi Hm Hbefore Hat;
    cbn [replay_loop]; [lia|].
  destruct m as [|m].
  - rewrite Nat.add_0_r in Hat. rewrite Hat. reflexivity.
  - pose proof (Hbefore O ltac:(lia)) as H0. rewrite Nat.add_0_r in H0. rewrite H0.
    cbv zeta. cbn [List.filter is_dac_write]. rewrite List.filter_app.
    assert (Hp : forall (b : bool) (e : Event),
               is_dac_write e = false ->
               List.filter is_dac_write (if b then [e] else []) = []).
    { intros [] e He; cbn; [rewrite He|]; reflexivity. }
    rewrite Hp by reflexivity.
    rewrite (IH m (i + 1)); [| lia | lia | |].
    + cbn [app seq map]. rewrite Z.add_0_r. f_equal.
      rewrite <- seq_shift, map_map. apply map_ext. intros k. do 3 f_equal. lia.
    + intros k Hk. replace (Z.to_nat (i + 1) + k)%nat with (Z.to_nat i + S k)%nat by lia.
      apply Hbefore. lia.
    + replace (Z.to_nat (i + 1) + m)%nat with (Z.to_nat i + S m)%nat by lia. exact Hat.
Qed.

(** A replay is interrupted by the first serial byte: when a byte is
    waiting at the test of pass [m] and none was before, the DAC has been
    driven with the samples [0 .. m - 1] and no further one; a byte waiting
    from the beginning lets no sample out at all.  Interrupted or not, the
    replay then resets the DAC to 0 as its last write and prints the
    completion line and the two durations. *)
Theorem replay_stops_at_first_byte (inp : LoopInput) (st : State) (m : nat) :
  (m < Z.to_nat (sampleCount st))%nat ->
  (forall k, (k < m)%nat -> replay_abort inp k = false) ->
  replay_abort inp m = true ->
  let out := replayVoltages inp st in
  List.filter is_dac_write out =
    map (fun k : nat => dac_output_voltage (dacValue (buffer_at st (Z.of_nat k)))) (seq 0 m)
    ++ [dac_output_voltage 0] /\
  (m = O -> List.filter is_dac_write out = [dac_output_voltage 0]) /\
  In (Serial_println "Replay completed.") out /\
  In (Serial_printf "Expected duration: %.3f s, Replay duration: %.3f s"
        [ADouble (to_double (expectedSec st)); ADouble (to_double (replaySec inp))]) out.
Proof.
  intros Hm Hbefore Hat out.
  assert (Hc : (sampleCount st =? 0) = false) by (apply Z.eqb_neq; lia).
  assert (E : List.filter is_dac_write out =
              map (fun k : nat => dac_output_voltage (dacValue (buffer_at st (Z.of_nat k))))
                  (seq 0 m) ++ [dac_output_voltage 0]).
  { subst out. unfold replayVoltages. rewrite Hc.
    rewrite !List.filter_app.
    rewrite (replay_loop_stops (replay_abort inp) st _ m 0 _ ltac:(lia) Hm Hbefore Hat).
    destruct (sampleRate st >? 200), (timing_off _ _); cbn [List.filter is_dac_write app];
      rewrite ?app_nil_r; reflexivity. }
  split; [exact E|]. split; [intros ->; exact E|].
  subst out. unfold replayVoltages. rewrite Hc.
  split; (apply in_or_app; right; apply in_or_app; right; apply in_or_app; left; cbn; tauto).
Qed.

(* ===================================================================== *)
(** ** The range [status] reports, and the finiteness of the samples *)

Lemma order_le_refl (x : spec_float) : order_le x x.
Proof. unfold order_le. lia. Qed.

Lemma order_le_trans (x y z : spec_float) : order_le x y -> order_le y z -> order_le x z.
Proof. unfold order_le. lia. Qed.

Lemma order_lt_le (x y : spec_float) : order_lt x y -> order_le x y.
Proof. unfold order_lt, order_le. lia. Qed.

(** The statistics loop keeps [minV] below and [maxV] above every sample it
    has seen, and each of them is its initial value or one of those
    samples. *)
Lemma status_loop_range (st : State) (n : nat) (i : Z) (a b c : float) :
  Forall (fun x => nonneg x = true) (voltageBuffer st) ->
  nonneg a = true -> nonneg b = true ->
  forall minV maxV avgV, status_loop st n i (a, b, c) = (minV, maxV, avgV) ->
  nonneg minV = true /\ nonneg maxV = true /\
  order_le minV a /\ order_le b maxV /\
  (forall k : nat, (k < n)%nat ->
     order_le minV (buffer_at st (i + Z.of_nat k)) /\
     order_le (buffer_at st (i + Z.of_nat k)) maxV) /\
  (minV = a \/ exists k : nat, (k < n)%nat /\ minV = buffer_at st (i + Z.of_nat k)) /\
  (maxV = b \/ exists k : nat, (k < n)%nat /\ maxV = buffer_at st (i + Z.of_nat k)).
Proof.
  intros Hbuf. revert i a b c; induction n as [|n IH]; intros i a b c Ha Hb minV maxV avgV;
    cbn [status_loop].
  - intros E. injection E as <- <- <-.
    split; [exact Ha|]. split; [exact Hb|].
    split; [apply order_le_refl|]. split; [apply order_le_refl|].
    split; [intros k Hk; lia|]. split; left; reflexivity.
  - cbv zeta.
    pose proof (buffer_at_nonneg st i Hbuf) as Hx.
    set (x := buffer_at st i) in *.
    set (a' := if F32.ltb x a then x else a).
    set (b' := if F32.ltb b x then x else b).
    assert (Ha' : nonneg a' = true) by (subst a'; destruct (F32.ltb x a); assumption).
    assert (Hb' : nonneg b' = true) by (subst b'; destruct (F32.ltb b x); assumption).
    assert (Hmin : order_le a' a /\ order_le a' x /\ (a' = a \/ a' = x)).
    { subst a'. unfold F32.ltb. destruct (SFltb x a) eqn:E.
      - apply (SFltb_order x a Hx Ha) in E.
        split; [apply order_lt_le; exact E|]. split; [apply order_le_refl | right; reflexivity].
      - split; [apply order_le_refl|].
        split; [apply SFltb_false_order; assumption | left; reflexivity]. }
    assert (Hmax : order_le b b' /\ order_le x b' /\ (b' = b \/ b' = x)).
    { subst b'. unfold F32.ltb. destruct (SFltb b x) eqn:E.
      - apply (SFltb_order b x Hb Hx) in E.
        split; [apply order_lt_le; exact E|]. split; [apply order_le_refl | right; reflexivity].
      - split; [apply order_le_refl|].
        split; [apply SFltb_false_order; assumption | left; reflexivity]. }
    destruct Hmin as (Hmin_a & Hmin_x & Hmin_is).
    destruct Hmax as (Hmax_b & Hmax_x & Hmax_is).
    intros E.
    destruct (IH (i + 1) a' b' (F32.add c x) Ha' Hb' minV maxV avgV E)
      as (Hnmin & Hnmax & Hlo & Hhi & Hcells & Hwmin & Hwmax).
    split; [exact Hnmin|]. split; [exact Hnmax|].
    split; [eapply order_le_trans; eassumption|].
    split; [eapply order_le_trans; eassumption|].
    split.
    { intros k Hk. destruct k as [|k].
      - rewrite Z.add_0_r. fold x. split; eapply order_le_trans; eassumption.
      - replace (i + Z.of_nat (S k)) with (i + 1 + Z.of_nat k) by lia.
        apply Hcells. lia. }
    split.
    { destruct Hwmin as [Hw | (k & Hk & Hw)].
      - destruct Hmin_is as [E1|E1]; [left; congruence|].
        right. exists O. split; [lia|]. rewrite Z.add_0_r. fold x. congruence.
      - right. exists (S k). split; [lia|].
        replace (i + Z.of_nat (S k)) with (i + 1 + Z.of_nat k) by lia. exact Hw. }
    { destruct Hwmax as [Hw | (k & Hk & Hw)].
      - destruct Hmax_is as [E1|E1]; [left; congruence|].
        right. exists O. split; [lia|]. rewrite Z.add_0_r. fold x. congruence.
      - right. exists (S k). split; [lia|].
        replace (i + Z.of_nat (S k)) with (i + 1 + Z.of_nat k) by lia. exact Hw. }
Qed.

(** The range that [status] reports for a non-empty buffer bounds the
    recorded samples and is attained by them: in every reachable state the
    minimum is [<=] and the maximum [>=] each of the samples
    [0 .. sampleCount - 1] (in the comparison of C++ floats), each of the
    two is one of those samples, and the minimum is [<=] the maximum. *)
Theorem status_range_bounds_the_samples (st : State) :
  reachable st ->
  0 < sampleCount st ->
  forall minV maxV avgV, status_stats st = (minV, maxV, avgV) ->
  (forall i, 0 <= i < sampleCount st ->
     float_le minV (buffer_at st i) = true /\ float_le (buffer_at st i) maxV = true) /\
  (exists i, 0 <= i < sampleCount st /\ minV = buffer_at st i) /\
  (exists i, 0 <= i < sampleCount st /\ maxV = buffer_at st i) /\
  float_le minV maxV = true.
Proof.
  intros Hreach Hpos minV maxV avgV Hstats.
  destruct (reachable_readings_ok st Hreach) as [_ Hbuf].
  pose proof (buffer_at_nonneg st 0 Hbuf) as H0.
  unfold status_stats in Hstats.
  destruct (status_loop st (Z.to_nat (sampleCount st)) 0
              (buffer_at st 0, buffer_at st 0, F32.of_Z 0)) as [[lo hi] sum] eqn:Hloop.
  injection Hstats as <- <- _.
  destruct (status_loop_range st _ 0 _ _ _ Hbuf H0 H0 lo hi sum Hloop)
    as (Hnlo & Hnhi & Hlo & Hhi & Hcells & Hwlo & Hwhi).
  assert (Hcell : forall i, 0 <= i < sampleCount st ->
                    order_le lo (buffer_at st i) /\ order_le (buffer_at st i) hi).
  { intros i Hi. destruct (Hcells (Z.to_nat i) ltac:(lia)) as [H1 H2].
    rewrite Z.add_0_l, Z2Nat.id in H1, H2 by lia. split; assumption. }
  split; [|split; [|split]].
  - intros i Hi. destruct (Hcell i Hi) as [H1 H2].
    pose proof (buffer_at_nonneg st i Hbuf) as Hx.
    unfold float_le, F32.leb.
    split; apply SFleb_order; assumption.
  - destruct Hwlo as [E | (k & Hk & E)].
    + exists 0. split; [lia | exact E].
    + exists (Z.of_nat k). split; [lia|]. rewrite Z.add_0_l in E. exact E.
  - destruct Hwhi as [E | (k & Hk & E)].
    + exists 0. split; [lia | exact E].
    + exists (Z.of_nat k). split; [lia|]. rewrite Z.add_0_l in E. exact E.
  - unfold float_le, F32.leb. apply SFleb_order; [assumption..|].
    destruct (Hcell 0 ltac:(lia)) as [H1 H2]. eapply order_le_trans; eassumption.
Qed.

Lemma mag_le_is_finite (k : Z) (x : spec_float) : mag_le k x -> is_finite x = true.
Proof. destruct x; cbn; intros H; try reflexivity; destruct H. Qed.

(** With a finite non-negative offset, a reading is finite and below
    [2 ^ 27] volts. *)
Lemma readVoltage_finite (raw : nat -> Z) (st : State) :
  has_sign false (adcOffset st) -> mag_le 26 (adcOffset st) ->
  mag_le 27 (readVoltageHighPrecision raw st).
Proof.
  intros Hs Hm. unfold readVoltageHighPrecision. cbv zeta.
  destruct (F32.ltb _ _); [exact I|].
  destruct F32_format as [Hp32 He32].
  destruct (adc_volts_finite raw st) as [Hvs Hvm].
  pose proof (SFsub_nonneg_mag F32.prec F32.emax Hp32 He32
                (adc_volts raw st) (adcOffset st) 26 Hvs Hs Hvm Hm) as H.
  unfold F32.emax, F32.prec, SpecFloat.emin in H.
  eapply mag_le_mono; [|apply H; lia]. lia.
Qed.

Lemma reachable_finite (st : State) :
  reachable st ->
  has_sign false (adcOffset st) /\ mag_le 26 (adcOffset st) /\
  Forall (mag_le 27) (voltageBuffer st).
Proof.
  induction 1 as [raw | st inp _ (IHs & IHm & IHb)].
  - unfold setup, calibrateADCOffset; state_simpl.
    destruct (adc_volts_finite raw initial_state) as [Hs Hm].
    split; [exact Hs|]. split; [exact Hm|].
    unfold initial_state; state_simpl. apply Forall_replicate. exact I.
  - assert (Hcmd : let pre := next_state (processSerialCommands inp st) in
                   has_sign false (adcOffset pre) /\ mag_le 26 (adcOffset pre) /\
                   Forall (mag_le 27) (voltageBuffer pre)).
    { cbv zeta. destruct (command_effect inp st) as (Eb & _ & _ & _ & Eo).
      rewrite Eb.
      destruct Eo as [-> | ->]; [tauto|].
      destruct (adc_volts_finite (cmd_adc inp) st) as [Hs Hm]. tauto. }
    cbv zeta in Hcmd.
    unfold loop. destruct (returned (processSerialCommands inp st)); [|exact Hcmd].
    state_simpl. destruct Hcmd as (Hs & Hm & Hb).
    set (pre := next_state (processSerialCommands inp st)) in *.
    rewrite loop_sample_keeps_offset. split; [exact Hs|]. split; [exact Hm|].
    destruct (loop_sample_effect inp pre) as [(_ & Eb & _) | (_ & _ & _ & _ & Eb & _)];
      rewrite Eb; [exact Hb|].
    apply Forall_insert; [exact Hb|]. apply readVoltage_finite; assumption.
Qed.

(** The firmware never holds a NaN or an infinity as a voltage: in every
    reachable state the calibration offset is a finite float below
    [2 ^ 26] V, and every reading, hence every cell of the buffer, is a
    finite float below [2 ^ 27] V. *)
Theorem voltages_are_finite (st : State) :
  reachable st ->
  is_finite (adcOffset st) = true /\ mag_le 26 (adcOffset st) /\
  (forall raw, is_finite (readVoltageHighPrecision raw st) = true /\
               mag_le 27 (readVoltageHighPrecision raw st)) /\
  (forall i, is_finite (buffer_at st i) = true /\ mag_le 27 (buffer_at st i)).
Proof.
  intros Hreach. destruct (reachable_finite st Hreach) as (Hs & Hm & Hb).
  split; [exact (mag_le_is_finite _ _ Hm)|]. split; [exact Hm|]. split.
  - intros raw. pose proof (readVoltage_finite raw st Hs Hm) as H.
    split; [exact (mag_le_is_finite _ _ H) | exact H].
  - intros i.
    assert (H : mag_le 27 (buffer_at st i)).
    { unfold buffer_at.
      destruct (Nat.lt_ge_cases (Z.to_nat i) (length (voltageBuffer st))) as [Hlt|Hge].
      - rewrite List.Forall_forall in Hb. apply Hb. apply nth_In. exact Hlt.
      - rewrite nth_overflow by exact Hge. exact I. }
    split; [exact (mag_le_is_finite _ _ H) | exact H].
Qed.

(* ===================================================================== *)
(** ** Commands are read without regard to case and surrounding blanks *)

Lemma isspace_tolower (c : ascii) : isspace (tolower c) = isspace c.
Proof. destruct c as [[] [] [] [] [] [] [] []]; reflexivity. Qed.

Lemma ltrim_toLowerCase (s : string) : ltrim (toLowerCase s) = toLowerCase (ltrim s).
Proof.
  induction s as [|c s IH]; cbn [toLowerCase ltrim]; [reflexivity|].
  rewrite isspace_tolower. destruct (isspace c); [exact IH | reflexivity].
Qed.

Lemma string_rev_acc_toLowerCase (s acc : string) :
  string_rev_acc (toLowerCase s) (toLowerCase acc) = toLowerCase (string_rev_acc s acc).
Proof.
  revert acc; induction s as [|c s IH]; intros acc; cbn [toLowerCase string_rev_acc];
    [reflexivity|].
  exact (IH (String c acc)).
Qed.

Lemma string_rev_toLowerCase (s : string) :
  string_rev (toLowerCase s) = toLowerCase (string_rev s).
Proof. exact (string_rev_acc_toLowerCase s ""). Qed.

Lemma trim_toLowerCase (s : string) : trim (toLowerCase s) = toLowerCase (trim s).
Proof.
  unfold trim.
  rewrite ltrim_toLowerCase, string_rev_toLowerCase, ltrim_toLowerCase,
    string_rev_toLowerCase.
  reflexivity.
Qed.

Lemma string_app_assoc (s t u : string) : ((s ++ t) ++ u = s ++ (t ++ u))%string.
Proof. induction s as [|c s IH]; cbn; [reflexivity | rewrite IH; reflexivity]. Qed.

Lemma string_app_nil_r (s : string) : (s ++ "")%string = s.
Proof. induction s as [|c s IH]; cbn; [reflexivity | rewrite IH; reflexivity]. Qed.

Lemma string_rev_acc_app (s acc : string) :
  string_rev_acc s acc = (string_rev s ++ acc)%string.
Proof.
  unfold string_rev. revert acc; induction s as [|c s IH]; intros acc;
    cbn [string_rev_acc]; [reflexivity|].
  rewrite (IH (String c acc)), (IH (String c "")), string_app_assoc. reflexivity.
Qed.

Lemma string_rev_app (s t : string) :
  string_rev (s ++ t) = (string_rev t ++ string_rev s)%string.
Proof.
  induction s as [|c s IH]; cbn [String.append].
  - rewrite string_app_nil_r. reflexivity.
  - unfold string_rev at 1 3. cbn [string_rev_acc].
    rewrite !string_rev_acc_app, IH, string_app_assoc. reflexivity.
Qed.

Lemma all_space_app (s t : string) :
  all_space (s ++ t) = all_space s && all_space t.
Proof.
  induction s as [|c s IH]; cbn [String.append all_space]; [reflexivity|].
  rewrite IH, andb_assoc. reflexivity.
Qed.

Lemma all_space_rev (s : string) : all_space (string_rev s) = all_space s.
Proof.
  induction s as [|c s IH]; [reflexivity|].
  unfold string_rev. cbn [string_rev_acc]. rewrite string_rev_acc_app, all_space_app, IH.
  cbn [all_space]. rewrite andb_true_r. apply andb_comm.
Qed.

Lemma ltrim_app_space (a s : string) : all_space a = true -> ltrim (a ++ s) = ltrim s.
Proof.
  induction a as [|c a IH]; cbn [String.append all_space ltrim]; [reflexivity|].
  intros H. apply andb_true_iff in H as [Hc Ha]. rewrite Hc. exact (IH Ha).
Qed.

Lemma ltrim_nil_all_space (s : string) : ltrim s = "" -> all_space s = true.
Proof.
  induction s as [|c s IH]; cbn [ltrim all_space]; [reflexivity|].
  destruct (isspace c); [exact IH | discriminate].
Qed.

Lemma ltrim_app_text (s b : string) :
  ltrim s <> "" -> ltrim (s ++ b) = (ltrim s ++ b)%string.
Proof.
  induction s as [|c s IH]; cbn [String.append ltrim]; [congruence|].
  destruct (isspace c); [exact IH | reflexivity].
Qed.

(** Blanks around a line do not change what [trim] leaves of it. *)
Lemma trim_pad (a s b : string) :
  all_space a = true -> all_space b = true -> trim (a ++ s ++ b) = trim s.
Proof.
  intros Ha Hb.
  destruct (string_dec (ltrim s) "") as [E|E].
  - pose proof (ltrim_nil_all_space s E) as Hs.
    rewrite !trim_all_space; [reflexivity | exact Hs |].
    rewrite !all_space_app, Ha, Hs, Hb. reflexivity.
  - unfold trim. rewrite (ltrim_app_space a _ Ha), (ltrim_app_text s b E).
    rewrite string_rev_app, ltrim_app_space by (rewrite all_space_rev; exact Hb).
    reflexivity.
Qed.

(** The dispatcher reads a command without regard to letter case and to
    whitespace around it: two lines that differ only in the case of their
    letters, or only in blanks before and after, have the same effect on the
    globals, the same output and the same outcome. *)
Theorem commands_ignore_case_and_blanks (inp : LoopInput) (st : State) :
  (forall l1 l2,
     toLowerCase l1 = toLowerCase l2 ->
     processSerialCommands (set_serial_line (Some l1) inp) st =
     processSerialCommands (set_serial_line (Some l2) inp) st) /\
  (forall a l b,
     all_space a = true -> all_space b = true ->
     processSerialCommands (set_serial_line (Some (a ++ l ++ b)%string) inp) st =
     processSerialCommands (set_serial_line (Some l) inp) st).
Proof.
  split.
  - intros l1 l2 E. unfold processSerialCommands.
    cbn [serial_line set_serial_line]. cbv zeta.
    rewrite <- !trim_toLowerCase, E. reflexivity.
  - intros a l b Ha Hb. unfold processSerialCommands.
    cbn [serial_line set_serial_line]. cbv zeta.
    rewrite (trim_pad a l b Ha Hb). reflexivity.
Qed.

(* ===================================================================== *)
(** ** Numbers typed after [rate] and [samples] *)

Lemma atol_digits_uint (acc : Z) (d : Decimal.uint) :
  atol_digits acc (NilEmpty.string_of_uint d) = uint_value acc d.
Proof.
  revert acc; induction d as [|d IH|d IH|d IH|d IH|d IH|d IH|d IH|d IH|d IH|d IH];
    intros acc; cbn [NilEmpty.string_of_uint uint_value]; [reflexivity|..];
    rewrite <- IH; reflexivity.
Qed.

Lemma of_uint_acc_value (d : Decimal.uint) (acc : positive) :
  Z.pos (Pos.of_uint_acc d acc) = uint_value (Z.pos acc) d.
Proof.
  revert acc; induction d as [|d IH|d IH|d IH|d IH|d IH|d IH|d IH|d IH|d IH|d IH];
    intros acc; cbn [Pos.of_uint_acc uint_value]; [reflexivity|..];
    rewrite IH; f_equal; lia.
Qed.

Lemma of_uint_value (d : Decimal.uint) : Z.of_N (N.of_uint d) = uint_value 0 d.
Proof.
  unfold N.of_uint.
  induction d as [|d IH|d IH|d IH|d IH|d IH|d IH|d IH|d IH|d IH|d IH];
    cbn [Pos.of_uint uint_value]; [reflexivity | exact IH | ..];
    cbn [Z.of_N]; rewrite of_uint_acc_value; reflexivity.
Qed.

(** The digits of a non-negative integer are read back as that integer. *)
Lemma atol_decimal (n : Z) : 0 <= n -> atol_digits 0 (decimal n) = n.
Proof.
  intros Hn. unfold decimal.
  rewrite atol_digits_uint, <- of_uint_value, DecimalN.Unsigned.of_to. lia.
Qed.

Lemma toInt_uint (d : Decimal.uint) :
  toInt (NilEmpty.string_of_uint d) =
  Z.max INT_MIN (Z.min INT_MAX (atol_digits 0 (NilEmpty.string_of_uint d))).
Proof. destruct d; reflexivity. Qed.

Lemma toInt_minus_uint (d : Decimal.uint) :
  toInt (String "-" (NilEmpty.string_of_uint d)) =
  Z.max INT_MIN (Z.min INT_MAX (- atol_digits 0 (NilEmpty.string_of_uint d))).
Proof. reflexivity. Qed.

Lemma toInt_numeral (z : Z) : toInt (numeral z) = Z.max INT_MIN (Z.min INT_MAX z).
Proof.
  unfold numeral. destruct (z <? 0) eqn:E.
  - apply Z.ltb_lt in E. unfold decimal at 1. rewrite toInt_minus_uint.
    fold (decimal (- z)). rewrite atol_decimal by lia. f_equal. f_equal. lia.
  - apply Z.ltb_ge in E. unfold decimal at 1. rewrite toInt_uint.
    fold (decimal z). rewrite atol_decimal by lia. reflexivity.
Qed.

(** Blanks before a number are skipped. *)
Lemma toInt_skips_blank (s : string) : toInt (String " " s) = toInt s.
Proof. reflexivity. Qed.

Lemma samples_command_step (inp : LoopInput) (st : State) (line : string) :
  serial_line inp = Some line ->
  startsWith (toLowerCase (trim line)) "samples" = true ->
  let n := toInt (substring 7 (toLowerCase (trim line))) in
  processSerialCommands inp st =
    if (n >=? 1) && (n <=? 1024) then
      mkStep (set_ADC_SAMPLES n st)
        [Serial_printf "ADC samples per reading set to %d" [AInt n]] true
    else mkStep st [Serial_println "Invalid ADC samples (1-1024)"] true.
Proof.
  intros Hline H n. subst n. dispatch Hline H. reflexivity.
Qed.

(** A number typed in decimal after [rate] or [samples] is read as that
    number, whatever its size and sign: [String::toInt] returns it, brought
    into the range of [long] when it lies outside.  So [rate z] sets the
    rate to [z] exactly when [1 <= z <= 10000] and is rejected for every
    other integer [z], and [samples z] sets the oversample count to [z]
    exactly when [1 <= z <= 1024] and is rejected otherwise; a number too
    large for 32 bits does not wrap around into the accepted range. *)
Theorem typed_numbers_are_read (inp : LoopInput) (st : State) (line : string) (z : Z) :
  serial_line inp = Some line ->
  let r := processSerialCommands inp st in
  toInt (numeral z) = Z.max INT_MIN (Z.min INT_MAX z) /\
  (toLowerCase (trim line) = ("rate " ++ numeral z)%string ->
   (1 <= z <= 10000 ->
    next_state r = set_sampleRate z st /\
    In (Serial_printf "Sample rate set to %d Hz" [AInt z]) (output r)) /\
   (~ 1 <= z <= 10000 ->
    r = mkStep st [Serial_println "Invalid sample rate (1-10000 Hz)"] true)) /\
  (toLowerCase (trim line) = ("samples " ++ numeral z)%string ->
   (1 <= z <= 1024 ->
    r = mkStep (set_ADC_SAMPLES z st)
          [Serial_printf "ADC samples per reading set to %d" [AInt z]] true) /\
   (~ 1 <= z <= 1024 ->
    r = mkStep st [Serial_println "Invalid ADC samples (1-1024)"] true)).
Proof.
  intros Hline r.
  split; [apply toInt_numeral|]. split.
  - intros E.
    assert (Hp : startsWith (toLowerCase (trim line)) "rate" = true).
    { rewrite E. exact (startsWith_app "rate" (String " " (numeral z))). }
    pose proof (rate_command_step inp st line Hline Hp) as Hstep.
    cbv zeta in Hstep. rewrite E in Hstep.
    change (substring 5 ("rate " ++ numeral z)) with (numeral z) in Hstep.
    rewrite toInt_numeral in Hstep. fold r in Hstep.
    unfold INT_MIN, INT_MAX in Hstep.
    split.
    + intros Hz.
      replace (Z.max (- 2 ^ 31) (Z.min (2 ^ 31 - 1) z)) with z in Hstep by lia.
      assert (Ht : (z >? 0) && (z <=? 10000) = true).
      { apply andb_true_iff. split; [apply Z.gtb_lt | apply Z.leb_le]; lia. }
      rewrite Ht in Hstep. rewrite Hstep. split; [reflexivity | left; reflexivity].
    + intros Hz.
      set (n := Z.max (- 2 ^ 31) (Z.min (2 ^ 31 - 1) z)) in *.
      assert (Ht : (n >? 0) && (n <=? 10000) = false).
      { apply andb_false_iff.
        destruct (Z_lt_ge_dec 0 n) as [Hpos|Hneg];
          [right; apply Z.leb_gt; subst n; lia | left; rewrite Z.gtb_ltb; apply Z.ltb_ge; lia]. }
      rewrite Ht in Hstep. exact Hstep.
  - intros E.
    assert (Hp : startsWith (toLowerCase (trim line)) "samples" = true).
    { rewrite E. exact (startsWith_app "samples" (String " " (numeral z))). }
    pose proof (samples_command_step inp st line Hline Hp) as Hstep.
    cbv zeta in Hstep. rewrite E in Hstep.
    change (substring 7 ("samples " ++ numeral z)) with (String " " (numeral z)) in Hstep.
    rewrite toInt_skips_blank, toInt_numeral in Hstep. fold r in Hstep.
    unfold INT_MIN, INT_MAX in Hstep.
    split.
    + intros Hz.
      replace (Z.max (- 2 ^ 31) (Z.min (2 ^ 31 - 1) z)) with z in Hstep by lia.
      assert (Ht : (z >=? 1) && (z <=? 1024) = true).
      { apply andb_true_iff. split; [apply Z.geb_le | apply Z.leb_le]; lia. }
      rewrite Ht in Hstep. exact Hstep.
    + intros Hz.
      set (n := Z.max (- 2 ^ 31) (Z.min (2 ^ 31 - 1) z)) in *.
      assert (Ht : (n >=? 1) && (n <=? 1024) = false).
      { apply andb_false_iff.
        destruct (Z_lt_ge_dec n 1) as [Hlo|Hhi];
          [left; rewrite Z.geb_leb; apply Z.leb_gt; lia | right; apply Z.leb_gt; subst n; lia]. }
      rewrite Ht in Hstep. exact Hstep.
Qed.

(* ===================================================================== *)
(** ** The wrapping clock, and the idle firmware *)

Lemma command_lastSampleTime (inp : LoopInput) (st : State) :
  let st' := next_state (processSerialCommands inp st) in
  lastSampleTime st' = lastSampleTime st \/ lastSampleTime st' = u32 (cmd_millis inp).
Proof.
  unfold processSerialCommands, printData, startRecording, stopRecording,
    calibrateADCOffset, ret.
  destruct (serial_line inp) as [line|]; cbv zeta.
  2: { cbn; tauto. }
  split_ifs; state_simpl; tauto.
Qed.

Lemma loop_sample_lastSampleTime (inp : LoopInput) (st : State) :
  let st' := fst (loop_sample inp st) in
  lastSampleTime st' = lastSampleTime st \/ lastSampleTime st' = u32 (tick_millis inp).
Proof.
  unfold loop_sample, stopRecording. split_ifs; state_simpl; tauto.
Qed.

Lemma reachable_clock_range (st : State) :
  reachable st -> 0 <= lastSampleTime st < 2 ^ 32.
Proof.
  induction 1 as [raw | st inp _ IH].
  - unfold setup, calibrateADCOffset; state_simpl. cbn. lia.
  - assert (Hcmd : 0 <= lastSampleTime (next_state (processSerialCommands inp st)) < 2 ^ 32).
    { destruct (command_lastSampleTime inp st) as [E|E]; rewrite E;
        [exact IH | apply u32_range]. }
    unfold loop. destruct (returned (processSerialCommands inp st)); [|exact Hcmd].
    state_simpl.
    destruct (loop_sample_lastSampleTime inp (next_state (processSerialCommands inp st)))
      as [E|E]; rewrite E; [exact Hcmd | apply u32_range].
Qed.



(** The firmware does nothing by itself: while no line arrives on the
    serial port, an idle firmware stays idle whatever the clock and the ADC
    do, with every global unchanged and no output at all (no serial line, no
    DAC or LED write); and until a line arrives, a recording one changes
    nothing but the count, the buffer and the two sample timestamps, or
    stops because the buffer is full. *)
Theorem nothing_happens_without_a_command (inps : list LoopInput) (st : State) :
  forallb quiet inps = true ->
  (recording st = false -> run inps st = mkStep st [] true) /\
  returned (run inps st) = true /\
  sampleRate (next_state (run inps st)) = sampleRate st /\
  ADC_SAMPLES (next_state (run inps st)) = ADC_SAMPLES st /\
  adcOffset (next_state (run inps st)) = adcOffset st /\
  (recording (next_state (run inps st)) = true -> recording st = true) /\
  List.filter is_dac_write (output (run inps st)) = [].
Proof.
  revert st; induction inps as [|inp rest IH]; intros st Hq.
  - cbn. repeat split; auto.
  - cbn [forallb] in Hq. apply andb_true_iff in Hq as [Hq Hqs].
    cbn [run]. rewrite (quiet_loop inp st Hq). cbn [returned next_state output].
    destruct (IH (fst (loop_sample inp st)) Hqs) as (Hidle & Hret & Hrate & Hadc & Hoff & Hrec & Hdac).
    assert (Hconst : sampleRate (fst (loop_sample inp st)) = sampleRate st /\
                     ADC_SAMPLES (fst (loop_sample inp st)) = ADC_SAMPLES st /\
                     (recording (fst (loop_sample inp st)) = true -> recording st = true)).
    { unfold loop_sample, stopRecording. split_ifs; state_simpl; repeat split; congruence. }
    destruct Hconst as (Er & Ea & Erec).
    split.
    { intros Hst.
      assert (E : loop_sample inp st = (st, [])).
      { unfold loop_sample. rewrite Hst. reflexivity. }
      rewrite E in Hidle |- *. cbn [fst snd] in Hidle |- *.
      rewrite (Hidle Hst). reflexivity. }
    split; [exact Hret|].
    split; [congruence|]. split; [congruence|].
    split; [rewrite Hoff; apply loop_sample_keeps_offset|].
    split; [intros H; apply Erec, Hrec, H|].
    rewrite List.filter_app, loop_sample_no_dac, Hdac. reflexivity.
Qed.

(* ===================================================================== *)
(** ** What a recording prints *)

(** The progress line and the buffer-full line of a sampling pass whose
    sample is due. *)
Lemma loop_sample_due_output (inp : LoopInput) (st : State) :
  recording st = true ->
  0 <= sampleCount st < MAX_SAMPLES ->
  sample_period_ms st <= u32 (u32 (tick_millis inp) - lastSampleTime st) ->
  let out := snd (loop_sample inp st) in
  List.filter is_progress out =
    (if Z.rem (sampleCount st + 1) 100 =? 0
     then [Serial_printf "Recorded %d samples..." [AInt (sampleCount st + 1)]]
     else []) /\
  List.filter is_buffer_full out =
    (if sampleCount st + 1 >=? MAX_SAMPLES
     then [Serial_println "Buffer full! Stopping recording."]
     else []).
Proof.
  intros Hrec Hc Hdue. unfold loop_sample.
  rewrite Hrec. cbn [andb].
  destruct (sampleCount st <? MAX_SAMPLES) eqn:Hroom; [|apply Z.ltb_ge in Hroom; lia].
  cbv zeta.
  set (st1 := if sampleCount st =? 0 then _ else st).
  assert (E1 : sampleCount st1 = sampleCount st /\ lastSampleTime st1 = lastSampleTime st /\
               sample_period_ms st1 = sample_period_ms st /\ recording st1 = true).
  { subst st1; destruct (sampleCount st =? 0); cbn; rewrite Hrec; repeat split; reflexivity. }
  destruct E1 as (Ec & El & Ep & Er).
  rewrite El, Ep.
  destruct (u32 (u32 (tick_millis inp) - lastSampleTime st) >=? sample_period_ms st) eqn:Hd.
  2: { rewrite Z.geb_leb in Hd. apply Z.leb_gt in Hd. lia. }
  cbn [sampleCount set_lastSampleTime set_sampleCount set_voltageBuffer].
  rewrite Ec.
  assert (Es : s32 (sampleCount st + 1) = sampleCount st + 1).
  { apply s32_small. unfold INT_MIN, INT_MAX, MAX_SAMPLES in *. lia. }
  rewrite Es.
  unfold stopRecording.
  cbn [recording set_lastSampleTime set_sampleCount set_voltageBuffer].
  rewrite Er. cbn [negb].
  destruct (sampleCount st + 1 >=? MAX_SAMPLES), (Z.rem (sampleCount st + 1) 100 =? 0),
    (Z.rem (sampleCount st + 1) 100 <? 50); split; reflexivity.
Qed.

Lemma progress_aux (inps : list LoopInput) (st : State) :
  (inps <> [] -> recording st = true) ->
  0 <= sampleCount st ->
  sampleCount st + Z.of_nat (length inps) <= MAX_SAMPLES ->
  forallb quiet inps = true ->
  sampling_due (sample_period_ms st) (lastSampleTime st) inps = true ->
  let out := output (run inps st) in
  let c := sampleCount st in
  let n := c + Z.of_nat (length inps) in
  List.filter is_progress out =
    map (fun j : nat =>
           Serial_printf "Recorded %d samples..." [AInt (100 * (c / 100 + 1 + Z.of_nat j))])
        (seq 0 (Z.to_nat (n / 100 - c / 100))) /\
  List.filter is_buffer_full out =
    (if (n =? MAX_SAMPLES) && negb (Nat.eqb (length inps) 0)
     then [Serial_println "Buffer full! Stopping recording."]
     else []).
Proof.
  revert st; induction inps as [|inp rest IH]; intros st Hrec Hc Hroom Hq Hdue; cbv zeta.
  - cbn [run output length List.filter Nat.eqb negb]. rewrite andb_false_r.
    replace (Z.to_nat _) with O by (cbn [Z.of_nat]; rewrite Z.add_0_r; lia).
    split; reflexivity.
  - cbn [forallb] in Hq. apply andb_true_iff in Hq as [Hq Hqs].
    cbn [sampling_due] in Hdue. apply andb_true_iff in Hdue as [Hd Hds].
    apply Z.leb_le in Hd.
    cbn [length] in Hroom |- *.
    specialize (Hrec ltac:(discriminate)).
    assert (Hc' : 0 <= sampleCount st < MAX_SAMPLES) by (unfold MAX_SAMPLES in *; lia).
    destruct (loop_sample_due inp st Hrec Hc' Hd)
      as (Ec & _ & El & _ & Er & Erate & _).
    destruct (loop_sample_due_output inp st Hrec Hc' Hd) as (Hprog & Hfull).
    cbv zeta in Hprog, Hfull.
    cbn [run]. rewrite (quiet_loop inp st Hq). cbn [returned next_state output].
    set (st1 := fst (loop_sample inp st)) in *.
    assert (Hrec1 : rest <> [] -> recording st1 = true).
    { intros Hne. rewrite Er. apply Z.ltb_lt.
      destruct rest; [congruence|]. cbn [length] in Hroom. lia. }
    rewrite <- (sample_period_ms_ext st st1 Erate), <- El in Hds.
    specialize (IH st1 Hrec1 ltac:(lia) ltac:(lia) Hqs Hds).
    cbv zeta in IH. destruct IH as (IHprog & IHfull).
    rewrite Ec in IHprog, IHfull.
    replace (sampleCount st + 1 + Z.of_nat (length rest))
      with (sampleCount st + Z.of_nat (S (length rest))) in IHprog, IHfull by lia.
    set (c := sampleCount st) in *.
    set (n := c + Z.of_nat (S (length rest))) in *.
    assert (Hn : c + 1 <= n <= MAX_SAMPLES) by (subst n; lia).
    rewrite !List.filter_app, Hprog, Hfull, IHprog, IHfull.
    split.
    + destruct (Z.rem (c + 1) 100 =? 0) eqn:Hr.
      * apply Z.eqb_eq in Hr. rewrite Z.rem_mod_nonneg in Hr by lia.
        assert (Hdiv : (c + 1) / 100 = c / 100 + 1 /\ c + 1 = 100 * (c / 100 + 1) /\
                       (c + 1) / 100 <= n / 100).
        { split; [|split]; [Z.div_mod_to_equations; lia .. |].
          apply Z.div_le_mono; lia. }
        destruct Hdiv as (Hdiv & Hmul & Hle).
        replace (Z.to_nat (n / 100 - c / 100))
          with (S (Z.to_nat (n / 100 - (c + 1) / 100))) by lia.
        cbn [app seq map]. f_equal.
        { do 3 f_equal. lia. }
        rewrite <- seq_shift, map_map. apply map_ext. intros j. do 3 f_equal. lia.
      * apply Z.eqb_neq in Hr. rewrite Z.rem_mod_nonneg in Hr by lia.
        assert (Hdiv : (c + 1) / 100 = c / 100) by (Z.div_mod_to_equations; lia).
        rewrite Hdiv. reflexivity.
    + cbn [Nat.eqb negb]. rewrite andb_true_r.
      destruct (c + 1 >=? MAX_SAMPLES) eqn:Hf.
      * apply Z.geb_le in Hf.
        assert (Hrest : length rest = O) by (subst n; lia).
        rewrite Hrest. cbn [Nat.eqb negb]. rewrite andb_false_r.
        assert (En : (n =? MAX_SAMPLES) = true) by (apply Z.eqb_eq; lia).
        rewrite En. reflexivity.
      * rewrite Z.geb_leb in Hf. apply Z.leb_gt in Hf.
        cbn [app].
        destruct (n =? MAX_SAMPLES) eqn:En; [|reflexivity].
        apply Z.eqb_eq in En.
        destruct rest as [|inp2 rest]; [cbn [length] in *; subst n; lia|].
        reflexivity.
Qed.

(** What a recording prints while it runs: over sampling passes that bring
    no command and are each due, one progress line [Recorded N samples...]
    for every multiple [N] of 100 that the count reaches, in increasing
    order and nothing else of that kind; and the line [Buffer full! Stopping
    recording.] once, in the pass that brings the count to [MAX_SAMPLES],
    and never otherwise. *)
Theorem progress_every_100_samples (inps : list LoopInput) (st : State) :
  recording st = true ->
  0 <= sampleCount st ->
  sampleCount st + Z.of_nat (length inps) <= MAX_SAMPLES ->
  forallb quiet inps = true ->
  sampling_due (sample_period_ms st) (lastSampleTime st) inps = true ->
  let out := output (run inps st) in
  let c := sampleCount st in
  let n := c + Z.of_nat (length inps) in
  List.filter is_progress out =
    map (fun j : nat =>
           Serial_printf "Recorded %d samples..." [AInt (100 * (c / 100 + 1 + Z.of_nat j))])
        (seq 0 (Z.to_nat (n / 100 - c / 100))) /\
  List.filter is_buffer_full out =
    (if (n =? MAX_SAMPLES) && negb (Nat.eqb (length inps) 0)
     then [Serial_println "Buffer full! Stopping recording."]
     else []).
Proof.
  intros Hrec. apply progress_aux. intros _. exact Hrec.
Qed.

End Firmware.

(* ===================================================================== *)
(** ** The float model against the kernel's binary64

    The double literals and a double computation of the model agree with
    Rocq's primitive floats. *)

#[local] Set Warnings "-inexact-float".

Lemma double_literals_agree :
  Prim2SF 3.3 = d_3_3 /\ Prim2SF 0.2 = d_0_2 /\ Prim2SF 0.1 = d_0_1 /\
  Prim2SF 1000 = d_1000 /\ Prim2SF 255 = d_255 /\
  Prim2SF (3.2999999523162842 * 255 / 3.3) =
    F64.div (F64.mul (to_double (to_float d_3_3)) d_255) d_3_3.
Proof. vm_compute. repeat split. Qed.

(* ===================================================================== *)
(** ** Worked examples *)

(** The buffer filled to the brim: recording has stopped by itself and a
    further sampling pass does nothing. *)
Lemma buffer_never_overflows_example :
  let st := after_session example_curve ESP_ADC_CAL_VAL_DEFAULT_VREF "1.0"
              (fun _ => 0) example_full_session in
  sampleCount st = MAX_SAMPLES /\ recording st = false /\
  loop_sample example_curve (at_millis 2000) st = (st, []).
Proof.
  cbv zeta.
  assert (Hc : sampleCount
                 (after_session example_curve ESP_ADC_CAL_VAL_DEFAULT_VREF "1.0"
                    (fun _ => 0) example_full_session) = MAX_SAMPLES)
    by (vm_compute; reflexivity).
  split; [exact Hc|]. split; [vm_compute; reflexivity|].
  refine (proj1 (proj2 (proj2 (proj2
    (buffer_never_overflows example_curve ESP_ADC_CAL_VAL_DEFAULT_VREF "1.0" _ _)))) _ Hc).
  apply run_reachable, reachable_setup.
Defined.

Lemma readings_are_nonnegative_example :
  forallb nonneg
    (map (buffer_at
            (after_session example_curve ESP_ADC_CAL_VAL_DEFAULT_VREF "1.0"
               (fun _ => 0) example_session))
         [0; 1; 2; 3; 4; 5; 6; 7; 8; 9]) = true.
Proof.
  assert (H := readings_are_nonnegative example_curve ESP_ADC_CAL_VAL_DEFAULT_VREF "1.0"
                 (after_session example_curve ESP_ADC_CAL_VAL_DEFAULT_VREF "1.0"
                    (fun _ => 0) example_session)
                 (run_reachable _ _ _ _ _ (reachable_setup _ _ _ _))).
  destruct H as (_ & _ & _ & _ & Hcell & _).
  cbn [map forallb]. rewrite !Hcell. reflexivity.
Defined.

Lemma clear_sets_count_only_example :
  sampleCount
    (next_state
       (processSerialCommands example_curve (typed "  CLEAR " 5)
          (after_session example_curve ESP_ADC_CAL_VAL_DEFAULT_VREF "1.0"
             (fun _ => 0) example_session))) = 0.
Proof.
  refine (proj1 (proj2 (proj2
    (clear_sets_count_only example_curve (typed "  CLEAR " 5) _ "  CLEAR " _ _))));
    reflexivity.
Defined.

Lemma precondition_violations_example :
  processSerialCommands example_curve (typed "stop" 7) initial_state =
  mkStep initial_state [Serial_println "Not currently recording."] true.
Proof.
  refine (proj1 (precondition_violations_are_noops example_curve
                   (typed "stop" 7) initial_state "stop" _) _ _); reflexivity.
Defined.

Lemma start_resets_count_example :
  sampleCount
    (next_state
       (processSerialCommands example_curve (typed "start" 2000)
          (after_session example_curve ESP_ADC_CAL_VAL_DEFAULT_VREF "1.0"
             (fun _ => 0) example_session))) = 0.
Proof.
  refine (proj1 (start_resets_count example_curve (typed "start" 2000) _ "start" _ _ _)).
  - reflexivity.
  - reflexivity.
  - vm_compute. reflexivity.
Defined.

Lemma rate_command_example :
  sampleRate (next_state (processSerialCommands example_curve (typed "rate 250" 0) initial_state))
  = 250.
Proof.
  refine (proj1 (proj2 (proj1 (proj2
    (rate_command example_curve (typed "rate 250" 0) initial_state "rate 250" _ _)) _)));
    [reflexivity | reflexivity | vm_compute; split; discriminate].
Defined.

Lemma sample_period_truncates_example :
  sample_period_ms (set_sampleRate 300 initial_state) = 3 /\
  sample_period_ms (set_sampleRate 2000 initial_state) = 0.
Proof.
  split.
  - rewrite (proj1 (sample_period_truncates example_curve (at_millis 0)
                      (set_sampleRate 300 initial_state) ltac:(vm_compute; split; discriminate))).
    reflexivity.
  - apply (proj1 (proj2 (proj2
             (sample_period_truncates example_curve (at_millis 0)
                (set_sampleRate 2000 initial_state) ltac:(vm_compute; split; discriminate))))).
    reflexivity.
Defined.

Lemma show_prints_rows_example :
  List.filter is_data_row
    (output
       (processSerialCommands example_curve (typed "show" 1300)
          (after_session example_curve ESP_ADC_CAL_VAL_DEFAULT_VREF "1.0"
             (fun _ => 0) example_session))) =
  map (fun k : Z =>
         Serial_printf "%d,%.4f,%.1f"
           [AInt k; ADouble (F64.lit 3 2); ADouble (to_double (F32.of_Z (20 * k)))])
      [0; 1; 2; 3; 4; 5; 6; 7; 8; 9].
Proof.
  pose proof (show_prints_rows example_curve (typed "show" 1300)
                (after_session example_curve ESP_ADC_CAL_VAL_DEFAULT_VREF "1.0"
                   (fun _ => 0) example_session)
                "show" eq_refl eq_refl ltac:(vm_compute; reflexivity)) as H.
  cbv zeta in H. destruct H as (_ & _ & _ & H).
  rewrite H by (vm_compute; reflexivity).
  vm_compute. reflexivity.
Defined.

Lemma replay_reports_expected_duration_example :
  In (Serial_printf "Expected duration: %.3f s, Replay duration: %.3f s"
        [ADouble (to_double (to_float (F64.lit 181 1000)));
         ADouble (to_double (to_float (F64.lit 200 1000)))])
     (replayVoltages (typed "replay" 5000)
        (after_session example_curve ESP_ADC_CAL_VAL_DEFAULT_VREF "1.0"
           (fun _ => 0) example_session)).
Proof.
  pose proof (replay_reports_expected_duration (typed "replay" 5000)
                (after_session example_curve ESP_ADC_CAL_VAL_DEFAULT_VREF "1.0"
                   (fun _ => 0) example_session)
                ltac:(vm_compute; discriminate)) as H.
  cbv zeta in H. destruct H as (H & _).
  assert (Ee : expectedSec
                 (after_session example_curve ESP_ADC_CAL_VAL_DEFAULT_VREF "1.0"
                    (fun _ => 0) example_session) = to_float (F64.lit 181 1000))
    by (vm_compute; reflexivity).
  assert (Ea : replaySec (typed "replay" 5000) = to_float (F64.lit 200 1000))
    by (vm_compute; reflexivity).
  rewrite Ee, Ea in H. exact H.
Defined.

(** A recorded 4.0 V sample replayed: the DAC is driven to 254, not to its
    full scale 255, and then reset. *)
Lemma overrange_sample_replays_as_254 :
  let st := after_session example_curve ESP_ADC_CAL_VAL_DEFAULT_VREF "1.0"
              (fun _ => 0) example_overrange_session in
  sampleCount st = 1 /\ buffer_at st 0 = F32.of_Z 4 /\
  List.filter is_dac_write (replayVoltages (typed "replay" 2000) st) =
    [dac_output_voltage 254; dac_output_voltage 0].
Proof. vm_compute. repeat split. Qed.

(** C3 (counterexample). An argument that is not a number can still set the
    rate: [12abc] is no integer literal, yet [rate 12abc] changes the rate
    from 100 to 12 and prints the confirmation, not the rejection. *)
Lemma rate_trailing_text_is_accepted :
  let r := processSerialCommands example_curve (typed "rate 12abc" 0) initial_state in
  integer_literal "12abc" = false /\
  ~ (sampleRate (next_state r) = sampleRate initial_state /\
     In (Serial_println "Invalid sample rate (1-10000 Hz)") (output r)) /\
  sampleRate initial_state = 100 /\
  sampleRate (next_state r) = 12 /\
  output r = [Serial_printf "Sample rate set to %d Hz" [AInt 12]].
Proof.
  cbv zeta. split; [reflexivity|]. split.
  - intros [H _]. vm_compute in H. discriminate.
  - repeat split.
Qed.

Lemma samples_command_example :
  ADC_SAMPLES (next_state (processSerialCommands example_curve (typed "samples 16" 0) initial_state))
  = 16.
Proof.
  pose proof (samples_command example_curve (typed "samples 16" 0) initial_state
                "samples 16" eq_refl eq_refl) as H.
  cbv zeta in H. destruct H as (_ & H & _).
  destruct (H ltac:(vm_compute; split; discriminate)) as [E _].
  rewrite E. reflexivity.
Defined.

Lemma stop_command_recording_example :
  recording
    (next_state
       (processSerialCommands example_curve (typed "stop" 9)
          (set_recording true initial_state))) = false.
Proof.
  pose proof (stop_command_recording example_curve (typed "stop" 9)
                (set_recording true initial_state) "stop" eq_refl eq_refl eq_refl) as H.
  cbv zeta in H. destruct H as [E _]. rewrite E. reflexivity.
Defined.

Lemma divisors_are_never_zero_example :
  sampleRate
    (after_session example_curve ESP_ADC_CAL_VAL_DEFAULT_VREF "1.0"
       (fun _ => 0) example_session) <> 0.
Proof.
  refine (proj1 (proj2 (proj2
    (divisors_are_never_zero example_curve ESP_ADC_CAL_VAL_DEFAULT_VREF "1.0" _ _)))).
  apply run_reachable, reachable_setup.
Defined.

Lemma replay_writes_samples_in_order_example :
  List.filter is_dac_write
    (replayVoltages (typed "replay" 5000)
       (after_session example_curve ESP_ADC_CAL_VAL_DEFAULT_VREF "1.0"
          (fun _ => 0) example_session)) =
  repeat (dac_output_voltage 115) 10 ++ [dac_output_voltage 0].
Proof.
  pose proof (replay_writes_samples_in_order (typed "replay" 5000)
                (after_session example_curve ESP_ADC_CAL_VAL_DEFAULT_VREF "1.0"
                   (fun _ => 0) example_session)
                ltac:(vm_compute; discriminate)) as H.
  cbv zeta in H. destruct H as [_ H].
  rewrite H by reflexivity. vm_compute. reflexivity.
Defined.

Lemma unknown_command_is_ignored_example :
  processSerialCommands example_curve (typed "   " 0) initial_state =
  mkStep initial_state [Serial_println unknown_command] true.
Proof.
  exact (proj2 (proj2 (unknown_command_is_ignored example_curve (typed "   " 0)
                         initial_state "   " eq_refl) eq_refl)).
Defined.

Lemma only_show_waits_example :
  exists line,
    serial_line (typed_then_silent "show" 2000) = Some line /\
    startsWith (toLowerCase (trim line)) "show"
    || startsWith (toLowerCase (trim line)) "print" = true /\
    20 < sampleCount
           (after_session example_curve ESP_ADC_CAL_VAL_DEFAULT_VREF "1.0"
              (fun _ => 0) example_long_session) /\
    exists k, show_key (typed_then_silent "show" 2000) k = false.
Proof.
  apply (only_show_waits example_curve). vm_compute. reflexivity.
Defined.

Lemma dac_written_only_by_replay_example :
  sampleCount
    (after_session example_curve ESP_ADC_CAL_VAL_DEFAULT_VREF "1.0"
       (fun _ => 0) example_session) <> 0.
Proof.
  destruct (proj2 (dac_written_only_by_replay example_curve ESP_ADC_CAL_VAL_DEFAULT_VREF "1.0")
              (typed "replay" 5000)
              (after_session example_curve ESP_ADC_CAL_VAL_DEFAULT_VREF "1.0"
                 (fun _ => 0) example_session))
    as (line & _ & _ & H).
  - vm_compute. discriminate.
  - exact H.
Defined.

Lemma recording_implies_room_example :
  sampleCount
    (after_session example_curve ESP_ADC_CAL_VAL_DEFAULT_VREF "1.0"
       (fun _ => 0) example_long_session) < MAX_SAMPLES.
Proof.
  refine (proj1 (recording_implies_room example_curve ESP_ADC_CAL_VAL_DEFAULT_VREF "1.0" _ _ _)).
  - apply run_reachable, reachable_setup.
  - vm_compute. reflexivity.
Defined.

Lemma pass_changes_one_cell_example :
  let st := after_session example_curve ESP_ADC_CAL_VAL_DEFAULT_VREF "1.0"
              (fun _ => 0) example_long_session in
  buffer_at (next_state (loop example_curve (at_millis 2000) st)) 3 = buffer_at st 3.
Proof.
  cbv zeta.
  pose proof (pass_changes_one_cell example_curve ESP_ADC_CAL_VAL_DEFAULT_VREF "1.0"
                (at_millis 2000)
                (after_session example_curve ESP_ADC_CAL_VAL_DEFAULT_VREF "1.0"
                   (fun _ => 0) example_long_session)
                (run_reachable _ _ _ _ _ (reachable_setup _ _ _ _))) as H.
  cbv zeta in H. destruct H as (_ & H & _).
  apply H; [lia | vm_compute; discriminate].
Defined.

Lemma oversampled_average_in_range_example :
  adc_volts example_curve (fun _ => 1500) initial_state =
  to_float (F64.div (F64.of_Z (u32 (example_curve 1500))) d_1000).
Proof.
  refine (proj2 (proj2 (oversampled_average_in_range example_curve (fun _ => 1500)
                          initial_state 1500 1500 _ _ _ _)) eq_refl).
  - vm_compute. split; discriminate.
  - lia.
  - lia.
  - intros j _. lia.
Defined.

Lemma samples_are_stored_in_order_example :
  let st := after_session example_curve ESP_ADC_CAL_VAL_DEFAULT_VREF "1.0"
              (fun _ => 0) (firstn 1 example_long_session) in
  sampleCount (next_state (run example_curve (skipn 1 example_long_session) st)) = 45.
Proof.
  cbv zeta.
  pose proof (samples_are_stored_in_order example_curve
                (skipn 1 example_long_session)
                (after_session example_curve ESP_ADC_CAL_VAL_DEFAULT_VREF "1.0"
                   (fun _ => 0) (firstn 1 example_long_session))
                ltac:(vm_compute; reflexivity) ltac:(vm_compute; discriminate)
                ltac:(vm_compute; discriminate) ltac:(vm_compute; reflexivity)
                ltac:(vm_compute; reflexivity) ltac:(vm_compute; reflexivity)) as H.
  cbv zeta in H. destruct H as (_ & H & _).
  rewrite H. vm_compute. reflexivity.
Defined.

Lemma show_pauses_every_20_rows_example :
  length
    (List.filter is_pause
       (output
          (printData (fun _ => true)
             (after_session example_curve ESP_ADC_CAL_VAL_DEFAULT_VREF "1.0"
                (fun _ => 0) example_long_session)))) = 2%nat.
Proof.
  destruct (show_pauses_every_20_rows (fun _ => true)
              (after_session example_curve ESP_ADC_CAL_VAL_DEFAULT_VREF "1.0"
                 (fun _ => 0) example_long_session)
              ltac:(vm_compute; reflexivity)) as (_ & H & _).
  destruct (H (fun _ => eq_refl)) as (_ & E & _).
  rewrite E. vm_compute. reflexivity.
Defined.

Lemma replay_stops_at_first_byte_example :
  List.filter is_dac_write
    (replayVoltages (replay_with_key_at_3 5000)
       (after_session example_curve ESP_ADC_CAL_VAL_DEFAULT_VREF "1.0"
          (fun _ => 0) example_session)) =
  repeat (dac_output_voltage 115) 3 ++ [dac_output_voltage 0].
Proof.
  pose proof (replay_stops_at_first_byte (replay_with_key_at_3 5000)
                (after_session example_curve ESP_ADC_CAL_VAL_DEFAULT_VREF "1.0"
                   (fun _ => 0) example_session) 3) as H.
  cbv zeta in H.
  destruct H as (E & _).
  - vm_compute. lia.
  - intros k Hk. do 3 (destruct k as [|k]; [reflexivity|]). lia.
  - reflexivity.
  - rewrite E. vm_compute. reflexivity.
Defined.

Lemma status_range_bounds_the_samples_example :
  let '(minV, maxV, _) :=
    status_stats
      (after_session example_curve ESP_ADC_CAL_VAL_DEFAULT_VREF "1.0"
         (fun _ => 0) example_session) in
  float_le minV maxV = true.
Proof.
  destruct (status_stats
              (after_session example_curve ESP_ADC_CAL_VAL_DEFAULT_VREF "1.0"
                 (fun _ => 0) example_session)) as [[minV maxV] avgV] eqn:E.
  refine (proj2 (proj2 (proj2
    (status_range_bounds_the_samples example_curve ESP_ADC_CAL_VAL_DEFAULT_VREF "1.0"
       _ _ _ minV maxV avgV E)))).
  - apply run_reachable, reachable_setup.
  - vm_compute. reflexivity.
Defined.

Lemma voltages_are_finite_example :
  is_finite
    (buffer_at
       (after_session example_curve ESP_ADC_CAL_VAL_DEFAULT_VREF "1.0"
          (fun _ => 0) example_session) 3) = true.
Proof.
  refine (proj1 (proj2 (proj2 (proj2
    (voltages_are_finite example_curve ESP_ADC_CAL_VAL_DEFAULT_VREF "1.0" _ _))) 3)).
  apply run_reachable, reachable_setup.
Defined.

Lemma commands_ignore_case_and_blanks_example :
  processSerialCommands example_curve
    (set_serial_line (Some "  START ") (at_millis 1000)) initial_state =
  processSerialCommands example_curve
    (set_serial_line (Some "start") (at_millis 1000)) initial_state.
Proof.
  destruct (commands_ignore_case_and_blanks example_curve (at_millis 1000) initial_state)
    as [Hcase Hpad].
  etransitivity.
  - exact (Hpad "  " "START" " " eq_refl eq_refl).
  - apply Hcase. reflexivity.
Defined.

Lemma typed_numbers_are_read_example :
  processSerialCommands example_curve (typed "rate 4294967396" 0) initial_state =
  mkStep initial_state [Serial_println "Invalid sample rate (1-10000 Hz)"] true.
Proof.
  refine (proj2 (proj1 (proj2
    (typed_numbers_are_read example_curve (typed "rate 4294967396" 0) initial_state
       "rate 4294967396" 4294967396 eq_refl)) _) _).
  - vm_compute. reflexivity.
  - lia.
Defined.


Lemma nothing_happens_without_a_command_example :
  run example_curve [at_millis 0; at_millis 10; at_millis 5000] initial_state =
  mkStep initial_state [] true.
Proof.
  exact (proj1 (nothing_happens_without_a_command example_curve
                  [at_millis 0; at_millis 10; at_millis 5000] initial_state eq_refl)
               eq_refl).
Defined.

(** Filling the buffer at 2000 Hz from the first sample on: fifty progress
    lines, and the buffer-full line once. *)
Lemma progress_every_100_samples_example :
  let st := after_session example_curve ESP_ADC_CAL_VAL_DEFAULT_VREF "1.0"
              (fun _ => 0) (firstn 3 example_full_session) in
  let out := output (run example_curve (repeat (at_millis 1001) 4999) st) in
  length (List.filter is_progress out) = 50%nat /\
  List.filter is_buffer_full out = [Serial_println "Buffer full! Stopping recording."].
Proof.
  cbv zeta.
  pose proof (progress_every_100_samples example_curve
                (repeat (at_millis 1001) 4999)
                (after_session example_curve ESP_ADC_CAL_VAL_DEFAULT_VREF "1.0"
                   (fun _ => 0) (firstn 3 example_full_session))
                ltac:(vm_compute; reflexivity) ltac:(vm_compute; discriminate)
                ltac:(vm_compute; discriminate) ltac:(vm_compute; reflexivity)
                ltac:(vm_compute; reflexivity)) as H.
  cbv zeta in H. destruct H as [Hp Hf].
  rewrite Hp, Hf. split; vm_compute; reflexivity.
Defined.
